(** * A shallow embedding of the FAANG job scraper pipeline

    Sources embedded here:
    - [src/data/models.py]              the enumerations and the [Job] record;
    - [src/scrapers/base_scraper.py]    [JobCategorizer] and [BaseScraper];
    - [src/scrapers/scraper_factory.py] [ScraperFactory].

    Conventions.
    - A Python [str] is a [string]: a sequence of code points, each below
      256 (the Latin-1 range, which [str.lower], [str.split], [str.strip]
      and the character classes of the patterns used by the code all map
      into itself).  [Optional[str]] is [option string].
    - A Python exception is a value of [exn]; a computation that may raise
      returns [result A], that is [exn + A].
    - Weights and scores, Python floats in the source, are exact rationals.
    - The configuration the factory holds is a tree of mutable dictionaries
      and lists; it lives in a heap of objects, so that a dictionary and a
      copy of it are different things.
    - What lies outside the repository is a parameter: the date parser, the
      clock, the URL resolver, the importable modules, and the listings an
      extractor returns. *)

From Stdlib Require Import QArith.
From stdpp Require Import gmap strings list pretty.
From Stdlib Require Import Ascii String.

Local Open Scope string_scope.
Local Open Scope list_scope.

(** ** Python strings *)

Module Str.

Definition code (c : ascii) : nat := nat_of_ascii c.

Definition between (lo hi : nat) (c : ascii) : bool :=
  Nat.leb lo (code c) && Nat.leb (code c) hi.

(** [str.isspace] on one code point; also the class [\s] of [re]. *)
Definition isspace (c : ascii) : bool :=
  between 9 13 c || between 28 32 c || Nat.eqb (code c) 133 || Nat.eqb (code c) 160.

(** The class [\d] of [re]. *)
Definition isdigit (c : ascii) : bool := between 48 57 c.

Definition isupper (c : ascii) : bool :=
  between 65 90 c || (between 192 222 c && negb (Nat.eqb (code c) 215)).

(** The class [\w] of [re]: [str.isalnum] or the underscore. *)
Definition isword (c : ascii) : bool :=
  between 48 57 c || between 65 90 c || between 97 122 c || Nat.eqb (code c) 95
  || Nat.eqb (code c) 170 || between 178 179 c || Nat.eqb (code c) 181
  || between 185 186 c || between 188 190 c
  || between 192 214 c || between 216 246 c || between 248 255 c.

Definition lower_char (c : ascii) : ascii :=
  if isupper c then ascii_of_nat (code c + 32) else c.

(** [s.lower()] *)
Fixpoint lower (s : string) : string :=
  match s with
  | EmptyString => EmptyString
  | String c s' => String (lower_char c) (lower s')
  end.

(** [sub in s] *)
Fixpoint contains (sub s : string) : bool :=
  String.prefix sub s ||
  match s with
  | EmptyString => false
  | String _ s' => contains sub s'
  end.

(** [any(word in text for word in words)] *)
Definition any_in (words : list string) (text : string) : bool :=
  existsb (fun w => contains w text) words.

(** [s.startswith(p)] *)
Definition startswith (s p : string) : bool := String.prefix p s.

(** [s[:n]] *)
Fixpoint take (n : nat) (s : string) : string :=
  match n, s with
  | S n', String c s' => String c (take n' s')
  | _, _ => EmptyString
  end.

Fixpoint drop (n : nat) (s : string) : string :=
  match n, s with
  | S n', String _ s' => drop n' s'
  | _, _ => s
  end.

Fixpoint lstrip (s : string) : string :=
  match s with
  | String c s' => if isspace c then lstrip s' else s
  | EmptyString => EmptyString
  end.

Fixpoint rstrip (s : string) : string :=
  match s with
  | EmptyString => EmptyString
  | String c s' =>
      match rstrip s' with
      | EmptyString => if isspace c then EmptyString else String c EmptyString
      | t => String c t
      end
  end.

(** [s.strip()] *)
Definition strip (s : string) : string := rstrip (lstrip s).

(** [s.split()]: the maximal runs of characters that are not white space.
    [cur] holds the run being read, in reverse. *)
Fixpoint split_loop (cur : list ascii) (s : string) : list string :=
  let flush := match cur with
               | [] => []
               | _ => [string_of_list_ascii (rev cur)]
               end in
  match s with
  | EmptyString => flush
  | String c s' =>
      if isspace c then flush ++ split_loop [] s'
      else split_loop (c :: cur) s'
  end.

Definition split (s : string) : list string := split_loop [] s.

(** Python truthiness of a string: [if s]. *)
Definition truthy (s : string) : bool :=
  match s with EmptyString => false | _ => true end.

End Str.

(** ** The fragment of [re] the code uses

    Every pattern in [base_scraper.py] is a concatenation of greedy bounded
    or unbounded repetitions of a single character class, and of the word
    boundary assertion. *)

Module Re.

Inductive atom : Type :=
| Rep (cls : ascii -> bool) (lo : nat) (hi : option nat)
| WordBoundary.

Definition regex := list atom.

Definition chr (c : ascii) : atom := Rep (Ascii.eqb c) 1 (Some 1).
Definition one (cls : ascii -> bool) : atom := Rep cls 1 (Some 1).
Definition opt (c : ascii) : atom := Rep (Ascii.eqb c) 0 (Some 1).
Definition star (cls : ascii -> bool) : atom := Rep cls 0 None.
Definition plus (cls : ascii -> bool) : atom := Rep cls 1 None.
Definition times (cls : ascii -> bool) (lo hi : nat) : atom := Rep cls lo (Some hi).

Fixpoint lit (s : string) : regex :=
  match s with
  | EmptyString => []
  | String c s' => chr c :: lit s'
  end.

(** The number of leading characters of [s] in [cls], at most [hi]. *)
Fixpoint leading (cls : ascii -> bool) (hi : option nat) (s : string) : nat :=
  match hi, s with
  | Some 0, _ => 0
  | _, EmptyString => 0
  | _, String c s' =>
      if cls c then S (leading cls (pred <$> hi) s') else 0
  end.

(** The character before position [n] of [s], [prev] when [n = 0]. *)
Fixpoint before (n : nat) (prev : option ascii) (s : string) : option ascii :=
  match n, s with
  | S n', String c s' => before n' (Some c) s'
  | _, _ => prev
  end.

(** Greedy repetition with backtracking: try [n] characters, then fewer,
    never fewer than [lo]. *)
Fixpoint backtrack (k : option ascii -> string -> option string)
    (n lo : nat) (prev : option ascii) (s : string) : option string :=
  if Nat.ltb n lo then None
  else match k (before n prev s) (Str.drop n s) with
       | Some rest => Some rest
       | None => match n with
                 | 0 => None
                 | S n' => backtrack k n' lo prev s
                 end
       end.

Definition word_at (c : option ascii) : bool :=
  match c with Some c => Str.isword c | None => false end.

Definition head (s : string) : option ascii :=
  match s with String c _ => Some c | EmptyString => None end.

(** Match [r] at the start of [s]; [prev] is the character before [s].
    The result is what remains of [s] after the match. *)
Fixpoint match_here (r : regex) (prev : option ascii) (s : string) : option string :=
  match r with
  | [] => Some s
  | WordBoundary :: r' =>
      if xorb (word_at prev) (word_at (head s)) then match_here r' prev s else None
  | Rep cls lo hi :: r' =>
      backtrack (fun p s' => match_here r' p s') (leading cls hi s) lo prev s
  end.

(** [re.search(r, s)]: the text of the leftmost match ([match.group()]). *)
Fixpoint search_from (r : regex) (prev : option ascii) (s : string) : option string :=
  match match_here r prev s with
  | Some rest => Some (Str.take (String.length s - String.length rest) s)
  | None =>
      match s with
      | EmptyString => None
      | String c s' => search_from r (Some c) s'
      end
  end.

Definition search (r : regex) (s : string) : option string := search_from r None s.

(** [re.sub(r, repl, s)] for a pattern that matches no empty string.
    [skip] counts the characters of the current match still to be dropped. *)
Fixpoint sub_loop (r : regex) (repl : string) (skip : nat)
    (prev : option ascii) (s : string) : string :=
  match s with
  | EmptyString => EmptyString
  | String c s' =>
      match skip with
      | S k => sub_loop r repl k (Some c) s'
      | 0 =>
          match match_here r prev s with
          | Some rest =>
              match String.length s - String.length rest with
              | 0 => String c (sub_loop r repl 0 (Some c) s')
              | S k => repl ++ sub_loop r repl k (Some c) s'
              end
          | None => String c (sub_loop r repl 0 (Some c) s')
          end
      end
  end.

Definition sub (r : regex) (repl s : string) : string := sub_loop r repl 0 None s.

End Re.

(** ** Exceptions and dictionaries *)

Inductive exn : Type :=
| AttributeError (msg : string)
| KeyError (msg : string)
| ValueError (msg : string)
| TypeError (msg : string)
| ModuleNotFoundError (msg : string)
| ExternalError (msg : string).

(** [str(e)] *)
Definition exn_str (e : exn) : string :=
  match e with
  | AttributeError msg | KeyError msg | ValueError msg | TypeError msg
  | ModuleNotFoundError msg | ExternalError msg => msg
  end.

(** A computation that returns a value or raises. *)
Definition result (A : Type) : Type := exn + A.
Definition ret {A} (a : A) : result A := inr a.
Definition raise {A} (e : exn) : result A := inl e.
Definition bind {A B} (m : result A) (k : A -> result B) : result B :=
  match m with
  | inl e => inl e
  | inr a => k a
  end.

Declare Scope py_scope.
Delimit Scope py_scope with py.
Notation "'let*' x ':=' m 'in' k" := (bind m (fun x => k))
  (at level 10, x name, m at level 100, k at level 200, only parsing) : py_scope.

(** A [dict] with string keys, in insertion order. *)
Module Dict.

Definition t (V : Type) : Type := list (string * V).

Fixpoint get {V} (k : string) (d : t V) : option V :=
  match d with
  | [] => None
  | (k', v) :: d' => if String.eqb k k' then Some v else get k d'
  end.

Definition mem {V} (k : string) (d : t V) : bool :=
  match get k d with Some _ => true | None => false end.

(** [d[k] = v] *)
Fixpoint set {V} (k : string) (v : V) (d : t V) : t V :=
  match d with
  | [] => [(k, v)]
  | (k', v') :: d' =>
      if String.eqb k k' then (k', v) :: d' else (k', v') :: set k v d'
  end.

End Dict.

(** ** [data/models.py] *)

Inductive CompanyName := META | AMAZON | APPLE | NETFLIX | GOOGLE.

Inductive JobCategory :=
| TECHNOLOGY | DATA | PRODUCT | DESIGN | SALES | MARKETING | OPERATIONS
| FINANCE | HR | LEGAL | CUSTOMER_SUCCESS | CONSULTING | OTHER.

Inductive JobType :=
| FULL_TIME | PART_TIME | CONTRACT | INTERNSHIP | TEMPORARY | FREELANCE.

Inductive ExperienceLevel :=
| ENTRY | MID | SENIOR | LEAD | DIRECTOR | EXECUTIVE.

Inductive WorkplaceType :=
| ONSITE | REMOTE | HYBRID | UNKNOWN.

(** The members of each enumeration, by name, as the class bodies list them. *)
Definition JobType_members : Dict.t JobType :=
  [("FULL_TIME", FULL_TIME); ("PART_TIME", PART_TIME); ("CONTRACT", CONTRACT);
   ("INTERNSHIP", INTERNSHIP); ("TEMPORARY", TEMPORARY); ("FREELANCE", FREELANCE)].

Definition ExperienceLevel_members : Dict.t ExperienceLevel :=
  [("ENTRY", ENTRY); ("MID", MID); ("SENIOR", SENIOR); ("LEAD", LEAD);
   ("DIRECTOR", DIRECTOR); ("EXECUTIVE", EXECUTIVE)].

Definition WorkplaceType_members : Dict.t WorkplaceType :=
  [("ONSITE", ONSITE); ("REMOTE", REMOTE); ("HYBRID", HYBRID); ("UNKNOWN", UNKNOWN)].

(** The values of [JobCategory], for the call [JobCategory(value)]. *)
Definition JobCategory_values : Dict.t JobCategory :=
  [("technology", TECHNOLOGY); ("data", DATA); ("product", PRODUCT);
   ("design", DESIGN); ("sales", SALES); ("marketing", MARKETING);
   ("operations", OPERATIONS); ("finance", FINANCE); ("hr", HR);
   ("legal", LEGAL); ("customer_success", CUSTOMER_SUCCESS);
   ("consulting", CONSULTING); ("other", OTHER)].

(** [Cls.NAME]: attribute access on an enumeration class raises
    [AttributeError] when the class defines no such member. *)
Definition getattr {E} (cls : string) (members : Dict.t E) (name : string) : result E :=
  match Dict.get name members with
  | Some m => ret m
  | None =>
      raise (AttributeError ("type object '" ++ cls ++ "' has no attribute '" ++ name ++ "'"))
  end.

Definition JobType_ := getattr "JobType" JobType_members.
Definition ExperienceLevel_ := getattr "ExperienceLevel" ExperienceLevel_members.
Definition WorkplaceType_ := getattr "WorkplaceType" WorkplaceType_members.

(** The reasoning text of a categorization.  The two formatted variants
    keep the numbers they print. *)
Inductive reasoning : Type :=
| Literal (s : string)
| ConfidenceBelowThreshold (confidence threshold : Q)
| BestMatchWithScore (score : Q).

Record JobCategorizationResult := {
  category : JobCategory;
  confidence : Q;
  keyword_matches : Dict.t nat;
  department_match : bool;
  reasoning_ : reasoning
}.

(** A calendar date, as [datetime.date]. *)
Record date := { year : Z; month : Z; day : Z }.

(** [Job]; the keyword arguments of the call in [_process_job_data] that
    name no field of the model ([requirements], [responsibilities],
    [benefits], [categorization_result], [source_data]) are ignored by the
    model and do not appear here. *)
Record Job := {
  job_id : string;
  job_title : string;
  job_company : CompanyName;
  job_location : string;
  job_description : string;
  job_department : option string;
  job_category : JobCategory;
  job_type : JobType;
  job_experience_level : ExperienceLevel;
  job_workplace_type : WorkplaceType;
  job_posted_date : option date;
  job_url : option string
}.

(** ** [JobCategorizer] *)

Record category_info := {
  keywords : list string;      (* category_info.get("keywords", []) *)
  departments : list string    (* category_info.get("departments", []) *)
}.

Record categorization_rules := {
  rule_title_weight : option Q;
  rule_department_weight : option Q;
  rule_description_weight : option Q;
  rule_exact_match_bonus : option Q;
  rule_min_confidence_threshold : option Q
}.

Record JobCategorizer := {
  categories : Dict.t category_info;
  rules : categorization_rules
}.

Definition Qgtb (a b : Q) : bool := negb (Qle_bool a b).
Definition Qltb (a b : Q) : bool := negb (Qle_bool b a).

(** [min(a, b)] of Python: [a] unless [b < a]. *)
Definition py_min (a b : Q) : Q := if Qltb b a then b else a.

Definition Qlen {A} (l : list A) : Q := inject_Z (Z.of_nat (List.length l)).

Module Categorizer.

(** The test of one keyword in the loop of [_find_keyword_matches]. *)
Definition keyword_hit (text keyword : string) : bool :=
  if Str.contains (Str.lower keyword) text then true
  else if Nat.ltb 1 (List.length (Str.split keyword)) then
    forallb (fun word => Str.contains (Str.lower word) text) (Str.split keyword)
  else false.

Definition _find_keyword_matches (text : string) (keywords : list string) : list string :=
  fold_left
    (fun matches keyword =>
       if keyword_hit text keyword then matches ++ [keyword] else matches)
    keywords [].

Definition title_weight (c : JobCategorizer) : Q :=
  default (6 # 10) (rule_title_weight (rules c)).
Definition department_weight (c : JobCategorizer) : Q :=
  default (3 # 10) (rule_department_weight (rules c)).
Definition description_weight (c : JobCategorizer) : Q :=
  default (1 # 10) (rule_description_weight (rules c)).
Definition exact_match_bonus (c : JobCategorizer) : Q :=
  default (2 # 1) (rule_exact_match_bonus (rules c)).
Definition min_confidence (c : JobCategorizer) : Q :=
  default (3 # 10) (rule_min_confidence_threshold (rules c)).

(** One field's contribution: nothing unless it has matches. *)
Definition field_score (matches : list string) (weight : Q) : Q :=
  match matches with
  | [] => 0%Q
  | _ => (Qlen matches * weight)%Q
  end.

(** The bonus loop over [matches.values()]. *)
Definition bonus (c : JobCategorizer) (all_matches : list string) : Q :=
  fold_left
    (fun score m =>
       if Nat.eqb (List.length (Str.split m)) 1
       then (score + exact_match_bonus c)%Q else score)
    all_matches 0%Q.

(** The body of the loop over the categories: the score of one category
    and the number of its matches. *)
Definition score_category (c : JobCategorizer)
    (title_lower description_lower department_lower : string)
    (info : category_info) : Q * nat :=
  let title_matches := _find_keyword_matches title_lower (keywords info) in
  let desc_sample := Str.take 500 description_lower in
  let desc_matches := _find_keyword_matches desc_sample (keywords info) in
  let dept_matches := _find_keyword_matches department_lower (departments info) in
  let all_matches := title_matches ++ desc_matches ++ dept_matches in
  let score :=
    (0 + field_score title_matches (title_weight c)
       + field_score desc_matches (description_weight c * (1 # 2))
       + field_score dept_matches (department_weight c)
       + bonus c all_matches)%Q in
  (score, List.length all_matches).

(** The loop over [self.categories.items()], filling [scores] and
    [keyword_matches]. *)
Definition score_all (c : JobCategorizer)
    (title_lower description_lower department_lower : string)
    : Dict.t Q * Dict.t nat :=
  fold_left
    (fun '(scores, counts) '(category_id, info) =>
       let '(score, n) :=
         score_category c title_lower description_lower department_lower info in
       if Qgtb score 0%Q
       then (Dict.set category_id score scores, Dict.set category_id n counts)
       else (scores, counts))
    (categories c) ([], []).

(** [max(scores.items(), key=lambda x: x[1])]: the first item of
    greatest score. *)
Definition max_item (scores : Dict.t Q) : option (string * Q) :=
  fold_left
    (fun best item =>
       match best with
       | None => Some item
       | Some b => if Qgtb (snd item) (snd b) then Some item else Some b
       end)
    scores None.

Definition lower_or_empty (s : option string) : string :=
  match s with
  | Some s => if Str.truthy s then Str.lower s else ""
  | None => ""
  end.

Definition categorize_job (c : JobCategorizer)
    (title description : string) (department : option string)
    : result JobCategorizationResult :=
  let title_lower := lower_or_empty (Some title) in
  let description_lower := lower_or_empty (Some description) in
  let department_lower := lower_or_empty department in
  let '(scores, counts) := score_all c title_lower description_lower department_lower in
  match max_item scores with
  | None =>
      ret {| category := OTHER; confidence := 0%Q; keyword_matches := counts;
             department_match := false;
             reasoning_ := Literal "No category keywords found" |}
  | Some (best_category_id, _) =>
      match Dict.get best_category_id scores with
      | None => raise (KeyError best_category_id)
      | Some best_score =>
      match Dict.get best_category_id (categories c) with
      | None => raise (KeyError best_category_id)
      | Some info =>
          let max_possible_score := (Qlen (keywords info) * title_weight c)%Q in
          let confidence :=
            if Qgtb max_possible_score 0%Q
            then py_min (best_score / max_possible_score)%Q 1%Q else 0%Q in
          if Qltb confidence (min_confidence c) then
            ret {| category := OTHER; confidence := confidence;
                   keyword_matches := counts; department_match := false;
                   reasoning_ := ConfidenceBelowThreshold confidence (min_confidence c) |}
          else
            let department_match :=
              if Str.truthy department_lower
              then existsb (fun dept => Str.contains (Str.lower dept) department_lower)
                     (departments info)
              else false in
            let category_enum :=
              default OTHER (Dict.get best_category_id JobCategory_values) in
            ret {| category := category_enum; confidence := confidence;
                   keyword_matches := counts; department_match := department_match;
                   reasoning_ := BestMatchWithScore best_score |}
      end end
  end.

End Categorizer.

(** ** [BaseScraper] *)

Record stats := {
  jobs_found : nat;
  jobs_processed : nat;
  jobs_categorized : nat;
  errors : list string
}.

Record BaseScraper := {
  company_name : CompanyName;
  careers_url : string;
  rate_limit : Q;
  categorizer : JobCategorizer;
  stats_ : stats
}.

Definition set_stats (self : BaseScraper) (st : stats) : BaseScraper :=
  {| company_name := company_name self; careers_url := careers_url self;
     rate_limit := rate_limit self; categorizer := categorizer self; stats_ := st |}.

Definition add_categorized (st : stats) : stats :=
  {| jobs_found := jobs_found st; jobs_processed := jobs_processed st;
     jobs_categorized := jobs_categorized st + 1; errors := errors st |}.

Definition add_processed (st : stats) : stats :=
  {| jobs_found := jobs_found st; jobs_processed := jobs_processed st + 1;
     jobs_categorized := jobs_categorized st; errors := errors st |}.

Definition add_error (msg : string) (st : stats) : stats :=
  {| jobs_found := jobs_found st; jobs_processed := jobs_processed st;
     jobs_categorized := jobs_categorized st; errors := errors st ++ [msg] |}.

Definition set_found (n : nat) (st : stats) : stats :=
  {| jobs_found := n; jobs_processed := jobs_processed st;
     jobs_categorized := jobs_categorized st; errors := errors st |}.

(** A raw listing: the dictionary an extractor returns for one posting.
    A value is a string or [None]. *)
Definition raw_job : Type := Dict.t (option string).

(** [raw_job.get(key, default)] *)
Definition raw_get (raw : raw_job) (key : string) (dflt : option string) : option string :=
  default dflt (Dict.get key raw).

Module Patterns.
Import Re.

Definition whitespace_run : regex := [plus Str.isspace].
Definition markup_tag : regex :=
  [chr "<"; plus (fun c => negb (Ascii.eqb c ">")); chr ">"].
Definition control_char : regex :=
  [one (fun c => Str.between 0 31 c || Str.between 127 159 c)].

Definition date_patterns : list regex :=
  [ [times Str.isdigit 4 4; chr "-"; times Str.isdigit 2 2; chr "-"; times Str.isdigit 2 2];
    [times Str.isdigit 2 2; chr "/"; times Str.isdigit 2 2; chr "/"; times Str.isdigit 4 4];
    [times Str.isdigit 2 2; chr "-"; times Str.isdigit 2 2; chr "-"; times Str.isdigit 4 4];
    [times Str.isword 3 9; plus Str.isspace; times Str.isdigit 1 2; opt ",";
     plus Str.isspace; times Str.isdigit 4 4];
    [times Str.isdigit 1 2; plus Str.isspace; times Str.isword 3 9;
     plus Str.isspace; times Str.isdigit 4 4] ].

Definition days_ago : regex :=
  [plus Str.isdigit; star Str.isspace] ++ lit "day" ++ [opt "s"; star Str.isspace] ++ lit "ago".
Definition weeks_ago : regex :=
  [plus Str.isdigit; star Str.isspace] ++ lit "week" ++ [opt "s"; star Str.isspace] ++ lit "ago".

(** [\b<range>\s*years?\b] *)
Definition years (range : regex) : regex :=
  [WordBoundary] ++ range ++ [star Str.isspace] ++ lit "year" ++ [opt "s"; WordBoundary].

Definition years_0_2 : regex := years (lit "0-2").
Definition years_2_4 : regex := years (lit "2-4").
Definition years_4_7 : regex := years (lit "4-7").
Definition years_7 : regex := years [chr "7"; opt "+"].
Definition years_8 : regex := years [chr "8"; opt "+"].

Definition found (r : regex) (s : string) : bool :=
  match search r s with Some _ => true | None => false end.

End Patterns.

Section Scraper.

(** External collaborators: [dateutil.parser.parse] followed by [.date()]
    ([None] when it raises), [datetime.now().date()], and
    [urllib.parse.urljoin]. *)
Variable dateutil_parse : string -> option date.
Variable today : date.
Variable urljoin : string -> string -> result string.

Definition _clean_text (text : option string) : option string :=
  match text with
  | None => None
  | Some text =>
      if negb (Str.truthy text) then None
      else
        let text := Re.sub Patterns.whitespace_run " " (Str.strip text) in
        let text := Re.sub Patterns.markup_tag "" text in
        let text := Re.sub Patterns.control_char "" text in
        if Str.truthy text then Some text else None
  end.

(** The loop over [date_patterns]: the first match that parses. *)
Fixpoint parse_absolute (patterns : list Re.regex) (date_str : string) : option date :=
  match patterns with
  | [] => None
  | pattern :: rest =>
      match Re.search pattern date_str with
      | Some group =>
          match dateutil_parse group with
          | Some d => Some d
          | None => parse_absolute rest date_str
          end
      | None => parse_absolute rest date_str
      end
  end.

Definition relative_patterns : list (Re.regex * (option string -> date)) :=
  [ (Patterns.days_ago, fun _ => today);
    (Patterns.weeks_ago, fun _ => today);
    (Re.lit "yesterday", fun _ => today);
    (Re.lit "today", fun _ => today) ].

(** The loop over [relative_patterns]. *)
Fixpoint parse_relative (patterns : list (Re.regex * (option string -> date)))
    (date_str : string) : option date :=
  match patterns with
  | [] => None
  | (pattern, date_func) :: rest =>
      if Patterns.found pattern (Str.lower date_str) then Some (date_func None)
      else parse_relative rest date_str
  end.

Definition _parse_date (date_str : option string) : option date :=
  match date_str with
  | None => None
  | Some date_str =>
      if negb (Str.truthy date_str) then None
      else
        match parse_absolute Patterns.date_patterns date_str with
        | Some d => Some d
        | None => parse_relative relative_patterns date_str
        end
  end.

Definition _determine_job_type (title description : string) : result JobType :=
  let text := Str.lower (title ++ " " ++ description) in
  if Str.any_in ["intern"; "internship"; "student"] text then JobType_ "INTERNSHIP"
  else if Str.any_in ["contract"; "contractor"; "temporary"; "temp"] text then JobType_ "CONTRACT"
  else if Str.any_in ["part time"; "part-time"; "parttime"] text then JobType_ "PART_TIME"
  else if Str.any_in ["freelance"; "freelancer"; "consultant"] text then JobType_ "FREELANCE"
  else JobType_ "FULL_TIME".

Definition _determine_experience_level (title description : string)
    : result ExperienceLevel :=
  let text := Str.lower (title ++ " " ++ description) in
  let title_lower := Str.lower title in
  if Str.any_in ["senior"; "sr."; "lead"; "staff"] title_lower then
    ExperienceLevel_ "SENIOR"
  else if Str.any_in ["junior"; "jr."; "entry"; "associate"] title_lower then
    if Str.contains "entry" title_lower then ExperienceLevel_ "ENTRY_LEVEL"
    else ExperienceLevel_ "ASSOCIATE"
  else if Str.any_in ["principal"; "architect"; "distinguished"] title_lower then
    ExperienceLevel_ "PRINCIPAL"
  else if Str.any_in ["director"; "head of"; "vp"; "vice president"] title_lower then
    ExperienceLevel_ "DIRECTOR"
  else if Str.any_in ["cto"; "ceo"; "cmo"; "cfo"; "chief"] title_lower then
    ExperienceLevel_ "C_LEVEL"
  else if Patterns.found Patterns.years_0_2 text || Str.contains "entry level" text then
    ExperienceLevel_ "ENTRY_LEVEL"
  else if Patterns.found Patterns.years_2_4 text then ExperienceLevel_ "ASSOCIATE"
  else if Patterns.found Patterns.years_4_7 text then ExperienceLevel_ "MID_LEVEL"
  else if Patterns.found Patterns.years_7 text || Patterns.found Patterns.years_8 text then
    ExperienceLevel_ "SENIOR"
  else ExperienceLevel_ "UNKNOWN".

Definition _determine_workplace_type (location description : string)
    : result WorkplaceType :=
  let text := Str.lower (location ++ " " ++ description) in
  if Str.any_in ["remote"; "work from home"; "telecommute"; "distributed"] text then
    if Str.any_in ["hybrid"; "flexible"; "optional remote"] text then WorkplaceType_ "HYBRID"
    else WorkplaceType_ "REMOTE"
  else if Str.any_in ["hybrid"; "flexible work"; "remote optional"] text then
    WorkplaceType_ "HYBRID"
  else if Str.any_in ["on-site"; "onsite"; "office"; "in-person"] text then
    WorkplaceType_ "ON_SITE"
  else WorkplaceType_ "UNKNOWN".

(** [if url and not url.startswith("http"): url = urljoin(...)] *)
Definition absolute_url (self : BaseScraper) (url : option string) : result (option string) :=
  match url with
  | Some u =>
      if Str.truthy u && negb (Str.startswith u "http")
      then (let* joined := urljoin (careers_url self) u in ret (Some joined))%py
      else ret url
  | None => ret None
  end.

(** The body of the [try] block of [_process_job_data].  The statistics are
    threaded through: an increment made before an exception stays. *)
Definition process_job_body (self : BaseScraper) (raw : raw_job)
    : stats * result (option Job) :=
  let st := stats_ self in
  let title := _clean_text (raw_get raw "title" (Some "")) in
  let description := _clean_text (raw_get raw "description" (Some "")) in
  let location := _clean_text (raw_get raw "location" (Some "")) in
  let department := _clean_text (raw_get raw "department" None) in
  let url := raw_get raw "url" (Some "") in
  match title, description, location with
  | Some title, Some description, Some location =>
      if negb (Str.truthy title) || negb (Str.truthy description)
         || negb (Str.truthy location)
      then (st, ret None)
      else
        match absolute_url self url with
        | inl e => (st, raise e)
        | inr url =>
            match Categorizer.categorize_job (categorizer self) title description department with
            | inl e => (st, raise e)
            | inr categorization =>
                let st := add_categorized st in
                let posted_date := _parse_date (raw_get raw "posted_date" None) in
                (st,
                 (let* jt := _determine_job_type title description in
                  let* el := _determine_experience_level title description in
                  let* wt := _determine_workplace_type location description in
                  ret (Some {| job_id := ""; job_title := title;
                               job_company := company_name self;
                               job_location := location;
                               job_description := description;
                               job_department := department;
                               job_category := category categorization;
                               job_type := jt;
                               job_experience_level := el;
                               job_workplace_type := wt;
                               job_posted_date := posted_date;
                               job_url := url |}))%py)
            end
        end
  | _, _, _ => (st, ret None)
  end.

(** [_process_job_data]: the body under [try], with
    [except Exception: return None]. *)
Definition _process_job_data (self : BaseScraper) (raw : raw_job)
    : BaseScraper * result (option Job) :=
  let '(st, r) := process_job_body self raw in
  match r with
  | inr job => (set_stats self st, ret job)
  | inl _ => (set_stats self st, ret None)
  end.

(** The state of the loop of [scrape_jobs]: the scraper, the jobs
    collected, and the delays slept so far. *)
Definition loop_state : Type := BaseScraper * list Job * list Q.

(** One iteration of [for raw_job in raw_jobs]. *)
Definition scrape_step (s : loop_state) (raw : raw_job) : loop_state :=
  let '(self, jobs, delays) := s in
  let '(self, jobs) :=
    match _process_job_data self raw with
    | (self, inr (Some job)) =>
        (set_stats self (add_processed (stats_ self)), jobs ++ [job])
    | (self, inr None) => (self, jobs)
    | (self, inl e) => (set_stats self (add_error (exn_str e) (stats_ self)), jobs)
    end in
  let delays :=
    if Qgtb (rate_limit self) 0%Q then delays ++ [(1 / rate_limit self)%Q] else delays in
  (self, jobs, delays).

(** [scrape_jobs].  [extracted] is what navigating to the careers page,
    waiting for it and calling [_extract_job_listings] produce: the raw
    listings, or the exception one of them raises. *)
Definition scrape_jobs (self : BaseScraper) (extracted : result (list raw_job))
    : loop_state :=
  match extracted with
  | inr raw_jobs =>
      let '(self, jobs, delays) := fold_left scrape_step raw_jobs (self, [], []) in
      (set_stats self (set_found (List.length raw_jobs) (stats_ self)), jobs, delays)
  | inl e => (set_stats self (add_error (exn_str e) (stats_ self)), [], [])
  end.

End Scraper.

(** ** [ScraperFactory]

    The configuration is a tree of mutable dictionaries and lists.  Objects
    live in a heap; a value is an atom or a reference to an object, so that
    handing out a stored dictionary and handing out a copy of it differ. *)

Definition loc : Type := nat.

Inductive val : Type :=
| VNone
| VBool (b : bool)
| VNum (q : Q)
| VStr (s : string)
| VRef (l : loc).

Inductive obj : Type :=
| ODict (items : Dict.t val)
| OList (items : list val).

Abbreviation heap := (gmap loc obj).

#[local] Set Warnings "-register-all".

(** A parsed JSON document, as a value without identity. *)
Inductive json : Type :=
| JNull
| JBool (b : bool)
| JNum (q : Q)
| JStr (s : string)
| JList (js : list json)
| JDict (kvs : Dict.t json).

Module Heap.

Definition alloc (h : heap) (o : obj) : heap * val :=
  let l := fresh (dom h) in (<[l := o]> h, VRef l).

(** [json.load]: builds fresh objects for the document. *)
Fixpoint load (j : json) (h : heap) : heap * val :=
  match j with
  | JNull => (h, VNone)
  | JBool b => (h, VBool b)
  | JNum q => (h, VNum q)
  | JStr s => (h, VStr s)
  | JList js =>
      let '(h, vs) :=
        (fix go (js : list json) (h : heap) : heap * list val :=
           match js with
           | [] => (h, [])
           | j :: js =>
               let '(h, v) := load j h in
               let '(h, vs) := go js h in (h, v :: vs)
           end) js h in
      alloc h (OList vs)
  | JDict kvs =>
      let '(h, items) :=
        (fix go (kvs : Dict.t json) (h : heap) : heap * Dict.t val :=
           match kvs with
           | [] => (h, [])
           | (k, j) :: kvs =>
               let '(h, v) := load j h in
               let '(h, items) := go kvs h in (h, (k, v) :: items)
           end) kvs h in
      alloc h (ODict items)
  end.

(** [copy.deepcopy] on a tree of dictionaries and lists: atoms are
    returned as they are, a container is rebuilt from copies of its
    members.  [fuel] bounds the nesting depth. *)
Fixpoint deepcopy_fuel (fuel : nat) (h : heap) (v : val) : option (heap * val) :=
  match fuel with
  | 0 => None
  | S fuel =>
      match v with
      | VRef l =>
          match h !! l with
          | Some (OList vs) =>
              match
                (fix go (vs : list val) (h : heap) : option (heap * list val) :=
                   match vs with
                   | [] => Some (h, [])
                   | v :: vs =>
                       match deepcopy_fuel fuel h v with
                       | Some (h, v') =>
                           match go vs h with
                           | Some (h, vs') => Some (h, v' :: vs')
                           | None => None
                           end
                       | None => None
                       end
                   end) vs h
              with
              | Some (h, vs') => Some (alloc h (OList vs'))
              | None => None
              end
          | Some (ODict items) =>
              match
                (fix go (items : Dict.t val) (h : heap) : option (heap * Dict.t val) :=
                   match items with
                   | [] => Some (h, [])
                   | (k, v) :: items =>
                       match deepcopy_fuel fuel h v with
                       | Some (h, v') =>
                           match go items h with
                           | Some (h, items') => Some (h, (k, v') :: items')
                           | None => None
                           end
                       | None => None
                       end
                   end) items h
              with
              | Some (h, items') => Some (alloc h (ODict items'))
              | None => None
              end
          | None => None
          end
      | _ => Some (h, v)
      end
  end.

(** No chain of references in [h] is longer than the number of its
    objects, unless it runs into a cycle. *)
Definition deepcopy (h : heap) (v : val) : option (heap * val) :=
  deepcopy_fuel (S (size h)) h v.

(** Python truthiness: [if v]. *)
Definition truthy (h : heap) (v : val) : bool :=
  match v with
  | VNone => false
  | VBool b => b
  | VNum q => negb (Qeq_bool q 0)
  | VStr s => Str.truthy s
  | VRef l =>
      match h !! l with
      | Some (ODict []) | Some (OList []) => false
      | _ => true
      end
  end.

(** [v.get(key)] with the default left to the caller; only a dictionary
    has the method. *)
Definition dict_lookup (h : heap) (v : val) (key : string) : result (option val) :=
  match v with
  | VRef l =>
      match h !! l with
      | Some (ODict items) => ret (Dict.get key items)
      | _ => raise (AttributeError "object has no attribute 'get'")
      end
  | _ => raise (AttributeError "object has no attribute 'get'")
  end.

(** [v.get(key, dflt)] *)
Definition dict_get (h : heap) (v : val) (key : string) (dflt : val) : result val :=
  (let* found := dict_lookup h v key in ret (default dflt found))%py.

(** [v.items()] *)
Definition dict_items (h : heap) (v : val) : result (Dict.t val) :=
  match v with
  | VRef l =>
      match h !! l with
      | Some (ODict items) => ret items
      | _ => raise (AttributeError "object has no attribute 'items'")
      end
  | _ => raise (AttributeError "object has no attribute 'items'")
  end.

End Heap.

(** What a module attribute can be: a class that inherits from
    [BaseScraper], named, or anything else. *)
Inductive pyattr : Type :=
| ScraperClass (name : string)
| NotAScraper.

Record ScraperFactory := {
  _company_configs : Dict.t val;
  _global_config : val;
  _registry : gmap string string
}.

(** The factory together with what its methods read and change: the heap
    of objects and the modules imported so far. *)
Record state := {
  factory : ScraperFactory;
  objects : heap;
  imports : list string
}.

Definition set_objects (st : state) (h : heap) : state :=
  {| factory := factory st; objects := h; imports := imports st |}.

Definition set_registry (st : state) (r : gmap string string) : state :=
  {| factory := {| _company_configs := _company_configs (factory st);
                   _global_config := _global_config (factory st);
                   _registry := r |};
     objects := objects st; imports := imports st |}.

Definition add_import (st : state) (module_path : string) : state :=
  {| factory := factory st; objects := objects st;
     imports := imports st ++ [module_path] |}.

(** The call [scraper_cls(company_config=..., global_config=...)] that ends
    [create_scraper]. *)
Record constructor_call := {
  call_class : string;
  call_company_config : val;
  call_global_config : val
}.

Section Factory.

(** [importlib.import_module]: the attributes of the module at a path,
    [None] when there is no such module. *)
Variable importable : string -> option (Dict.t pyattr).

(** [ScraperFactory.__init__] on the document [json.load] returns. *)
Definition __init__ (raw_config : json) : result state :=
  let '(h, raw) := Heap.load raw_config ∅ in
  (let* companies := Heap.dict_lookup h raw "companies" in
   let* company_items :=
     match companies with
     | Some companies => Heap.dict_items h companies
     | None => ret []
     end in
   let* raw_items := Heap.dict_items h raw in
   let company_configs :=
     fold_left (fun d '(key, value) => Dict.set (Str.lower key) value d) company_items [] in
   let '(h, global_config) :=
     Heap.alloc h
       (ODict (List.filter (fun '(key, _) => negb (String.eqb key "companies")) raw_items)) in
   ret {| factory := {| _company_configs := company_configs;
                        _global_config := global_config;
                        _registry := ∅ |};
          objects := h; imports := [] |})%py.

Definition register_scraper (company_key : string) (scraper_cls : pyattr) (st : state)
    : state * result unit :=
  match scraper_cls with
  | NotAScraper => (st, raise (TypeError "Scraper class must inherit from BaseScraper"))
  | ScraperClass name =>
      let normalized_key := Str.lower company_key in
      if negb (Dict.mem normalized_key (_company_configs (factory st))) then
        (st, raise (KeyError ("Unknown company '" ++ company_key ++ "' in configuration")))
      else
        (set_registry st (<[normalized_key := name]> (_registry (factory st))), ret tt)
  end.

(** The generator [available_companies]: the keys it yields, and the
    exception that ends it early, if any. *)
Fixpoint available_loop (h : heap) (include_disabled : bool) (configs : Dict.t val)
    : list string * option exn :=
  match configs with
  | [] => ([], None)
  | (key, config) :: rest =>
      if include_disabled then
        let '(keys, e) := available_loop h include_disabled rest in (key :: keys, e)
      else
        match Heap.dict_get h config "enabled" (VBool true) with
        | inl e => ([], Some e)
        | inr enabled =>
            let '(keys, e) := available_loop h include_disabled rest in
            if Heap.truthy h enabled then (key :: keys, e) else (keys, e)
        end
  end.

Definition available_companies (include_disabled : bool) (st : state)
    : list string * option exn :=
  available_loop (objects st) include_disabled (_company_configs (factory st)).

Definition get_company_config (company_key : string) (st : state) : state * result val :=
  let normalized_key := Str.lower company_key in
  match Dict.get normalized_key (_company_configs (factory st)) with
  | None =>
      (st, raise (KeyError ("No configuration found for company '" ++ company_key ++ "'")))
  | Some config =>
      match Heap.deepcopy (objects st) config with
      | Some (h, copy) => (set_objects st h, ret copy)
      | None => (st, raise (ExternalError "deepcopy"))
      end
  end.

(** A value used where the library wants a [str]. *)
Definition as_str (v : val) : result string :=
  match v with
  | VStr s => ret s
  | _ => raise (TypeError "expected a string")
  end.

Definition _get_scraper_class (company_key : string) (company_config : val) (st : state)
    : state * result string :=
  match _registry (factory st) !! company_key with
  | Some cls => (st, ret cls)
  | None =>
      match Heap.dict_get (objects st) company_config "scraper_class" VNone with
      | inl e => (st, raise e)
      | inr class_name =>
          if negb (Heap.truthy (objects st) class_name) then
            (st, raise (ValueError
               ("Scraper class not specified for company '" ++ company_key ++ "'")))
          else
            match
              Heap.dict_get (objects st) company_config "module"
                (VStr ("scrapers.companies." ++ company_key ++ "_scraper"))
            with
            | inl e => (st, raise e)
            | inr module_path =>
                match as_str module_path with
                | inl e => (st, raise e)
                | inr module_path =>
                    let st := add_import st module_path in
                    match importable module_path, as_str class_name with
                    | None, _ =>
                        (st, raise (ModuleNotFoundError
                           ("Unable to import module '" ++ module_path
                            ++ "' for company '" ++ company_key ++ "'")))
                    | Some _, inl e => (st, raise e)
                    | Some module, inr class_name =>
                        match Dict.get class_name module with
                        | None =>
                            (st, raise (AttributeError
                               ("Module '" ++ module_path
                                ++ "' does not define scraper class '" ++ class_name ++ "'")))
                        | Some NotAScraper =>
                            (st, raise (TypeError
                               ("Scraper class '" ++ class_name ++ "' for company '"
                                ++ company_key ++ "' must inherit from BaseScraper")))
                        | Some (ScraperClass cls) =>
                            (set_registry st (<[company_key := cls]> (_registry (factory st))),
                             ret cls)
                        end
                    end
                end
            end
      end
  end.

Definition create_scraper (company_key : string) (st : state)
    : state * result constructor_call :=
  let normalized_key := Str.lower company_key in
  match get_company_config normalized_key st with
  | (st, inl e) => (st, raise e)
  | (st, inr company_config) =>
      match Heap.dict_get (objects st) company_config "enabled" (VBool true) with
      | inl e => (st, raise e)
      | inr enabled =>
          if negb (Heap.truthy (objects st) enabled) then
            (st, raise (ValueError
               ("Scraper for company '" ++ company_key ++ "' is disabled in configuration")))
          else
            match _get_scraper_class normalized_key company_config st with
            | (st, inl e) => (st, raise e)
            | (st, inr scraper_cls) =>
                match Heap.deepcopy (objects st) (_global_config (factory st)) with
                | Some (h, global_copy) =>
                    (set_objects st h,
                     ret {| call_class := scraper_cls;
                            call_company_config := company_config;
                            call_global_config := global_copy |})
                | None => (st, raise (ExternalError "deepcopy"))
                end
            end
      end
  end.

End Factory.

(** ** Vocabulary of the statements *)

(** No keyword and no department term of any category matched the title,
    the sampled description or the department. *)
Definition nothing_matched (c : JobCategorizer)
    (title description : string) (department : option string) : Prop :=
  forall category_id info,
    In (category_id, info) (categories c) ->
    Categorizer._find_keyword_matches
      (Categorizer.lower_or_empty (Some title)) (keywords info) = []
    /\ Categorizer._find_keyword_matches
         (Str.take 500 (Categorizer.lower_or_empty (Some description))) (keywords info) = []
    /\ Categorizer._find_keyword_matches
         (Categorizer.lower_or_empty department) (departments info) = [].

(** The record one raw listing yields when the body of [_process_job_data]
    runs to its end, if it does. *)
Definition yielded (dateutil_parse : string -> option date) (today : date)
    (urljoin : string -> string -> result string)
    (self : BaseScraper) (raw : raw_job) : option Job :=
  match snd (process_job_body dateutil_parse today urljoin self raw) with
  | inr (Some job) => Some job
  | _ => None
  end.

(** The delays [scrape_jobs] sleeps for [n] items. *)
Definition pauses (self : BaseScraper) (n : nat) : list Q :=
  if Qgtb (rate_limit self) 0%Q then repeat (1 / rate_limit self)%Q n else [].


(** Two scrapers that differ in their statistics at most. *)
Definition same_config (a b : BaseScraper) : Prop :=
  exists st, b = set_stats a st.

(** One of the relative phrases occurs in the lower-cased date string. *)
Definition relative_found (date_str : string) : bool :=
  existsb (fun pattern => Patterns.found pattern (Str.lower date_str))
    [Patterns.days_ago; Patterns.weeks_ago; Re.lit "yesterday"; Re.lit "today"].

(** An absolute pattern gives no date for [date_str]: it does not match,
    or the parser raises on what it matched. *)
Definition gives_no_date (dateutil_parse : string -> option date)
    (date_str : string) (pattern : Re.regex) : Prop :=
  match Re.search pattern date_str with
  | Some group => dateutil_parse group = None
  | None => True
  end.

(** *** Reading the heap

    [repr_in P h j v]: in the heap [h] the value [v] reads as the document
    [j], and every object visited on the way lies at a location in [P]. *)

Fixpoint all2 {A B} (R : A -> B -> Prop) (l1 : list A) (l2 : list B) : Prop :=
  match l1, l2 with
  | [], [] => True
  | a :: l1, b :: l2 => R a b /\ all2 R l1 l2
  | _, _ => False
  end.

(** Two dictionary entries with the same key and related values. *)
Definition keyed {V W} (R : V -> W -> Prop) (a : string * V) (b : string * W) : Prop :=
  fst a = fst b /\ R (snd a) (snd b).

Fixpoint repr_in (P : loc -> Prop) (h : heap) (j : json) (v : val) {struct j} : Prop :=
  match j with
  | JNull => v = VNone
  | JBool b => v = VBool b
  | JNum q => v = VNum q
  | JStr s => v = VStr s
  | JList js =>
      exists l vs,
        v = VRef l /\ P l /\ h !! l = Some (OList vs) /\ all2 (repr_in P h) js vs
  | JDict kvs =>
      exists l items,
        v = VRef l /\ P l /\ h !! l = Some (ODict items)
        /\ all2 (keyed (repr_in P h)) kvs items
  end.

Definition repr (h : heap) (j : json) (v : val) : Prop := repr_in (fun _ => True) h j v.

(** The locations a value leads to, through any number of containers. *)
Inductive reach (h : heap) : val -> loc -> Prop :=
| reach_here l : reach h (VRef l) l
| reach_dict l items k v l' :
    h !! l = Some (ODict items) -> In (k, v) items -> reach h v l' -> reach h (VRef l) l'
| reach_list l vs v l' :
    h !! l = Some (OList vs) -> In v vs -> reach h v l' -> reach h (VRef l) l'.

Fixpoint json_depth (j : json) : nat :=
  match j with
  | JList js => S (list_max (map json_depth js))
  | JDict kvs => S (list_max (map (fun kj => json_depth (snd kj)) kvs))
  | _ => 0
  end.

Fixpoint json_size (j : json) : nat :=
  match j with
  | JList js => S (list_sum (map json_size js))
  | JDict kvs => S (list_sum (map (fun kj => json_size (snd kj)) kvs))
  | _ => 1
  end.

(** Python truthiness of a document. *)
Definition json_truthy (j : json) : bool :=
  match j with
  | JNull => false
  | JBool b => b
  | JNum q => negb (Qeq_bool q 0)
  | JStr s => Str.truthy s
  | JList [] | JDict [] => false
  | JList _ | JDict _ => true
  end.

(** [config.get("enabled", True)] is true. *)
Definition json_enabled (config : json) : bool :=
  match config with
  | JDict kvs => json_truthy (default (JBool true) (Dict.get "enabled" kvs))
  | _ => true
  end.

Definition is_dict (j : json) : Prop :=
  match j with JDict _ => True | _ => False end.

(** The configuration the factory holds: its stored company dictionaries
    read as [companies], key by key and in order, and its global dictionary
    reads as [glob]. *)
Definition factory_ok (st : state) (companies : Dict.t json) (glob : json) : Prop :=
  all2 (keyed (repr (objects st))) companies (_company_configs (factory st))
  /\ repr (objects st) glob (_global_config (factory st)).

(** What [__init__] stores for the document [raw_config]. *)
Definition loaded_companies (raw_config : json) : Dict.t json :=
  match raw_config with
  | JDict kvs =>
      match Dict.get "companies" kvs with
      | Some (JDict companies) =>
          fold_left (fun d '(key, value) => Dict.set (Str.lower key) value d) companies []
      | _ => []
      end
  | _ => []
  end.

Definition loaded_global (raw_config : json) : json :=
  match raw_config with
  | JDict kvs => JDict (List.filter (fun '(key, _) => negb (String.eqb key "companies")) kvs)
  | _ => JNull
  end.

(** Any number of writes, each to a location in [owned]. *)
Inductive mutated (owned : loc -> Prop) : heap -> heap -> Prop :=
| mutated_done h : mutated owned h h
| mutated_write h l o h' :
    owned l -> mutated owned (<[l := o]> h) h' -> mutated owned h h'.

(** A location that the heap [h] does not hold: whatever is allocated
    after [h] lies at such a location. *)
Definition new_since (h : heap) (l : loc) : Prop := l ∉ dom h.

(** The loops inside [Heap.load] and [Heap.deepcopy_fuel], by name. *)
Fixpoint load_list (js : list json) (h : heap) : heap * list val :=
  match js with
  | [] => (h, [])
  | j :: js =>
      let '(h, v) := Heap.load j h in
      let '(h, vs) := load_list js h in (h, v :: vs)
  end.

Fixpoint load_items (kvs : Dict.t json) (h : heap) : heap * Dict.t val :=
  match kvs with
  | [] => (h, [])
  | (k, j) :: kvs =>
      let '(h, v) := Heap.load j h in
      let '(h, items) := load_items kvs h in (h, (k, v) :: items)
  end.

Definition copy_list (fuel : nat) : list val -> heap -> option (heap * list val) :=
  fix go (vs : list val) (h : heap) : option (heap * list val) :=
    match vs with
    | [] => Some (h, [])
    | v :: vs =>
        match Heap.deepcopy_fuel fuel h v with
        | Some (h, v') =>
            match go vs h with
            | Some (h, vs') => Some (h, v' :: vs')
            | None => None
            end
        | None => None
        end
    end.

Definition copy_items (fuel : nat) : Dict.t val -> heap -> option (heap * Dict.t val) :=
  fix go (items : Dict.t val) (h : heap) : option (heap * Dict.t val) :=
    match items with
    | [] => Some (h, [])
    | (k, v) :: items =>
        match Heap.deepcopy_fuel fuel h v with
        | Some (h, v') =>
            match go items h with
            | Some (h, items') => Some (h, (k, v') :: items')
            | None => None
            end
        | None => None
        end
    end.

(** [deepcopy] with fuel beyond the depth of the document [j] returns a
    value that reads as [j] and is made of new objects. *)
Definition copies (j : json) : Prop :=
  forall (P : loc -> Prop) n h v,
    repr_in P h j v -> json_depth j <= n ->
    exists h' v',
      Heap.deepcopy_fuel (S n) h v = Some (h', v')
      /\ h ⊆ h' /\ repr_in (new_since h) h' j v'.

(** The factory hands out the configuration [companies] and [glob]:
    [get_company_config] returns a value that reads as the company's
    document, and the two dictionaries of a constructor call read as the
    company's document and as [glob]. *)
Definition serves (importable : string -> option (Dict.t pyattr))
    (st : state) (companies : Dict.t json) (glob : json) : Prop :=
  (forall company_key j,
     Dict.get (Str.lower company_key) companies = Some j ->
     exists st' v,
       get_company_config company_key st = (st', inr v) /\ repr (objects st') j v)
  /\ (forall company_key j st' call,
        Dict.get (Str.lower company_key) companies = Some j ->
        create_scraper importable company_key st = (st', inr call) ->
        repr (objects st') j (call_company_config call)
        /\ repr (objects st') glob (call_global_config call)).

(** ** Sample data for the examples *)

Module Sample.

Definition technology : category_info :=
  {| keywords := ["engineer"; "developer"; "machine learning"];
     departments := ["Engineering"] |}.

Definition sales : category_info :=
  {| keywords := ["sales"; "account executive"]; departments := ["Sales"] |}.

(** The rules are left to their defaults. *)
Definition config : JobCategorizer :=
  {| categories := [("technology", technology); ("sales", sales)];
     rules := {| rule_title_weight := None; rule_department_weight := None;
                 rule_description_weight := None; rule_exact_match_bonus := None;
                 rule_min_confidence_threshold := None |} |}.

Definition scraper (rate : Q) : BaseScraper :=
  {| company_name := META; careers_url := "https://careers.example.com/jobs/";
     rate_limit := rate; categorizer := config;
     stats_ := {| jobs_found := 0; jobs_processed := 0; jobs_categorized := 0;
                  errors := [] |} |}.

Definition now : date := {| year := 2024; month := 6; day := 15 |}.

Definition digit (c : ascii) : option Z :=
  if Str.isdigit c then Some (Z.of_nat (Str.code c) - 48)%Z else None.

Fixpoint number_loop (acc : Z) (s : string) : option Z :=
  match s with
  | EmptyString => Some acc
  | String c s' =>
      match digit c with
      | Some d => number_loop (10 * acc + d)%Z s'
      | None => None
      end
  end.

Definition number (s : string) : option Z :=
  match s with EmptyString => None | _ => number_loop 0 s end.

Definition checked (y m d : option Z) : option date :=
  match y, m, d with
  | Some y, Some m, Some d =>
      if ((1 <=? y) && (1 <=? m) && (m <=? 12) && (1 <=? d) && (d <=? 31))%Z
      then Some {| year := y; month := m; day := d |} else None
  | _, _, _ => None
  end.

(** A date parser for the examples, standing for [dateutil]: it reads
    [YYYY-MM-DD] and [MM/DD/YYYY] and rejects, as any date parser does, a
    month outside 1..12 or a day outside 1..31. *)
Definition parse (s : string) : option date :=
  if (String.length s =? 10)%nat then
    if Ascii.eqb (default " "%char (String.get 4 s)) "-" then
      checked (number (substring 0 4 s)) (number (substring 5 2 s)) (number (substring 8 2 s))
    else if Ascii.eqb (default " "%char (String.get 2 s)) "/" then
      checked (number (substring 6 4 s)) (number (substring 0 2 s)) (number (substring 3 2 s))
    else None
  else None.

(** A resolver for the examples, standing for [urljoin] on a base that
    ends in a slash and a relative path; like [urljoin] it raises
    [ValueError] on a network location with an unclosed bracket. *)
Definition join (base url : string) : result string :=
  if Str.startswith url "//[" && negb (Str.contains "]" url)
  then raise (ValueError "Invalid IPv6 URL")
  else ret (base ++ url)%string.

Definition plain_listing : raw_job :=
  [("title", Some "Software Engineer");
   ("description", Some "Build and ship backend services.");
   ("location", Some "Seattle, WA")].

Definition analyst_listing : raw_job :=
  [("title", Some "Data Analyst");
   ("description", Some "Own the weekly reporting.");
   ("location", Some "Austin, TX")].

Definition no_location_listing : raw_job :=
  [("title", Some "Product Designer");
   ("description", Some "Design the onboarding flow.");
   ("location", Some "   ")].

Definition senior_remote_listing : raw_job :=
  [("title", Some "Senior  <b>Engineer</b>");
   ("description", Some "Build services. Remote friendly.");
   ("location", Some "Remote, US");
   ("url", Some "12345");
   ("posted_date", Some "2024-06-01")].


Definition director_listing : raw_job :=
  [("title", Some "Director of Sales");
   ("description", Some "Lead the sales team.");
   ("location", Some "New York");
   ("department", Some "Sales")].

(** A configuration document: Meta is disabled, Amazon has no
    [enabled] entry. *)
Definition meta_config : Dict.t json :=
  [("name", JStr "Meta"); ("scraper_class", JStr "MetaScraper");
   ("enabled", JBool false);
   ("selectors", JDict [("card", JList [JStr "div.job"; JStr "li.job"])])].

Definition amazon_config : Dict.t json :=
  [("name", JStr "Amazon"); ("scraper_class", JStr "AmazonScraper");
   ("rate_limit", JNum 2)].

Definition global_entries : Dict.t json :=
  [("default_rate_limit", JNum 2);
   ("job_categories",
    JDict [("technology", JDict [("keywords", JList [JStr "engineer"])])])].

Definition document : json :=
  JDict (("companies", JDict [("Meta", JDict meta_config); ("amazon", JDict amazon_config)])
         :: global_entries).

(** The same document with Meta enabled. *)
Definition document_all_enabled : json :=
  JDict (("companies",
          JDict [("Meta", JDict [("name", JStr "Meta"); ("enabled", JBool true)]);
                 ("amazon", JDict amazon_config)])
         :: global_entries).

Definition modules (path : string) : option (Dict.t pyattr) :=
  if String.eqb path "scrapers.companies.amazon_scraper"
  then Some [("AmazonScraper", ScraperClass "AmazonScraper"); ("helper", NotAScraper)]
  else None.

Definition empty_state : state :=
  {| factory := {| _company_configs := []; _global_config := VNone; _registry := ∅ |};
     objects := ∅; imports := [] |}.

Definition state_of (r : result state) : state :=
  match r with inr st => st | inl _ => empty_state end.

Definition loaded : state := Eval vm_compute in state_of (__init__ document).
Definition loaded_all_enabled : state :=
  Eval vm_compute in state_of (__init__ document_all_enabled).

End Sample.

(** ** [CompanyName] by value, and the company switches of the settings *)

(** The values of [CompanyName], for the call [CompanyName(value)]. *)
Definition CompanyName_values : Dict.t CompanyName :=
  [("meta", META); ("amazon", AMAZON); ("apple", APPLE); ("netflix", NETFLIX);
   ("google", GOOGLE)].

(** [CompanyName(value)]: the member with that value, [ValueError] when
    there is none. *)
Definition CompanyName_of_value (value : string) : result CompanyName :=
  match Dict.get value CompanyName_values with
  | Some member => ret member
  | None => raise (ValueError ("'" ++ value ++ "' is not a valid CompanyName"))
  end.

(** [CompanySettings] of [config/settings.py] *)
Record CompanySettings := {
  enable_meta_scraping : bool;
  enable_amazon_scraping : bool;
  enable_apple_scraping : bool;
  enable_netflix_scraping : bool;
  enable_google_scraping : bool
}.

(** [Settings.get_enabled_companies] *)
Definition get_enabled_companies (companies : CompanySettings) : list string :=
  let enabled_companies := [] in
  let enabled_companies :=
    if enable_meta_scraping companies then enabled_companies ++ ["meta"]
    else enabled_companies in
  let enabled_companies :=
    if enable_amazon_scraping companies then enabled_companies ++ ["amazon"]
    else enabled_companies in
  let enabled_companies :=
    if enable_apple_scraping companies then enabled_companies ++ ["apple"]
    else enabled_companies in
  let enabled_companies :=
    if enable_netflix_scraping companies then enabled_companies ++ ["netflix"]
    else enabled_companies in
  let enabled_companies :=
    if enable_google_scraping companies then enabled_companies ++ ["google"]
    else enabled_companies in
  enabled_companies.

(** ** Reading a configuration dictionary

    The constructor of a scraper and [_get_user_agent] only read the
    dictionaries they are given; for them a dictionary is the document it
    holds. *)

Module Json.

(** [j.get(key, dflt)]; only a dictionary has the method. *)
Definition get (j : json) (key : string) (dflt : json) : result json :=
  match j with
  | JDict kvs => ret (default dflt (Dict.get key kvs))
  | _ => raise (AttributeError "object has no attribute 'get'")
  end.

(** [j[key]] for a string [key]: [KeyError] when a dictionary lacks the
    key, [TypeError] on anything that is not a dictionary. *)
Definition getitem (j : json) (key : string) : result json :=
  match j with
  | JDict kvs =>
      match Dict.get key kvs with
      | Some v => ret v
      | None => raise (KeyError key)
      end
  | JList _ => raise (TypeError "list indices must be integers or slices, not str")
  | JStr _ => raise (TypeError "string indices must be integers")
  | _ => raise (TypeError "object is not subscriptable")
  end.

(** [j.lower()]; only a string has the method. *)
Definition lower (j : json) : result string :=
  match j with
  | JStr s => ret (Str.lower s)
  | _ => raise (AttributeError "object has no attribute 'lower'")
  end.

(** [len(j)] *)
Definition len (j : json) : result nat :=
  match j with
  | JList js => ret (List.length js)
  | JDict kvs => ret (List.length kvs)
  | JStr s => ret (String.length s)
  | _ => raise (TypeError "object has no len()")
  end.

(** [j[i]] for an index [i] that is not negative.  A dictionary read from
    JSON has string keys, so an integer is never one of them.  An index
    out of range raises [IndexError], a class of exceptions that [exn]
    does not name. *)
Definition index (j : json) (i : nat) : result json :=
  match j with
  | JList js =>
      match nth_error js i with
      | Some x => ret x
      | None => raise (ExternalError "list index out of range")
      end
  | JStr s =>
      match String.get i s with
      | Some c => ret (JStr (String c EmptyString))
      | None => raise (ExternalError "string index out of range")
      end
  | JDict _ => raise (KeyError (pretty i))
  | _ => raise (TypeError "object is not subscriptable")
  end.

End Json.

(** ** [BaseScraper]: construction and the user agent *)

Module Instance.

(** The attributes [BaseScraper.__init__] sets, but for those that hold
    objects of a library ([driver] and [wait], both [None], and [logger]).
    [categories] and [rules] are the two attributes of the
    [JobCategorizer] that it builds from the global configuration. *)
Record t := {
  company_config : json;
  global_config : json;
  company_name : CompanyName;
  display_name : json;
  careers_url : json;
  selectors : json;
  search_params : json;
  request_config : json;
  rate_limit : json;
  max_pages : json;
  categories : json;
  rules : json;
  stats_ : stats
}.

Definition __init__ (company_config global_config : json) : result t :=
  (let* name := Json.getitem company_config "name" in
   let* name_lower := Json.lower name in
   let* company_name := CompanyName_of_value name_lower in
   let* name := Json.getitem company_config "name" in
   let* display_name := Json.get company_config "display_name" name in
   let* careers_url := Json.getitem company_config "careers_url" in
   let* selectors := Json.get company_config "selectors" (JDict []) in
   let* search_params := Json.get company_config "search_params" (JDict []) in
   let* request_config := Json.get company_config "request_config" (JDict []) in
   let* default_rate_limit := Json.get global_config "default_rate_limit" (JNum 2) in
   let* rate_limit := Json.get company_config "rate_limit" default_rate_limit in
   let* default_max_pages := Json.get global_config "default_max_pages" (JNum 5) in
   let* max_pages := Json.get company_config "max_pages" default_max_pages in
   let* categories := Json.get global_config "job_categories" (JDict []) in
   let* rules := Json.get global_config "categorization_rules" (JDict []) in
   ret {| company_config := company_config; global_config := global_config;
          company_name := company_name; display_name := display_name;
          careers_url := careers_url; selectors := selectors;
          search_params := search_params; request_config := request_config;
          rate_limit := rate_limit; max_pages := max_pages;
          categories := categories; rules := rules;
          stats_ := {| jobs_found := 0; jobs_processed := 0; jobs_categorized := 0;
                       errors := [] |} |})%py.

Section UserAgent.

(** [settings.scraping.user_agent], and the number that [random] draws. *)
Variable settings_user_agent : string.
Variable entropy : nat.

(** [random.choice(seq)]: [seq[i]] for an [i] below [len(seq)]. *)
Definition random_choice (seq : json) : result json :=
  (let* n := Json.len seq in Json.index seq (entropy mod n))%py.

Definition _get_user_agent (self : t) : result json :=
  (let* user_agents :=
     Json.get (global_config self) "user_agents" (JList [JStr settings_user_agent]) in
   let* rotation := Json.get (global_config self) "user_agent_rotation" (JBool false) in
   let* rotate :=
     if json_truthy rotation
     then (let* n := Json.len user_agents in ret (Nat.ltb 1 n))
     else ret false in
   if rotate then random_choice user_agents
   else if json_truthy user_agents then Json.index user_agents 0
   else ret (JStr settings_user_agent))%py.

End UserAgent.

End Instance.

(** ** The statistics as an object

    [self.stats] is a dictionary that holds three counters and a list, and
    [get_stats] hands out a copy of the dictionary.  What the holder of
    the copy sees of later changes depends on which objects the two
    share, so here the statistics live in the heap. *)

Module Store.

(** [d[key]] on an object *)
Definition getitem (h : heap) (d : val) (key : string) : result val :=
  match d with
  | VRef l =>
      match h !! l with
      | Some (ODict items) =>
          match Dict.get key items with
          | Some v => ret v
          | None => raise (KeyError key)
          end
      | _ => raise (TypeError "list indices must be integers or slices, not str")
      end
  | _ => raise (TypeError "object is not subscriptable")
  end.

(** [d[key] = v] *)
Definition setitem (h : heap) (d : val) (key : string) (v : val) : result heap :=
  match d with
  | VRef l =>
      match h !! l with
      | Some (ODict items) => ret (<[l := ODict (Dict.set key v items)]> h)
      | _ => raise (TypeError "list indices must be integers or slices, not str")
      end
  | _ => raise (TypeError "object does not support item assignment")
  end.

(** [l.append(v)] *)
Definition append (h : heap) (l : val) (v : val) : result heap :=
  match l with
  | VRef l =>
      match h !! l with
      | Some (OList vs) => ret (<[l := OList (vs ++ [v])]> h)
      | _ => raise (AttributeError "object has no attribute 'append'")
      end
  | _ => raise (AttributeError "object has no attribute 'append'")
  end.

(** [v.copy()]: a new container with the members of [v], which are not
    copied. *)
Definition copy (h : heap) (v : val) : result (heap * val) :=
  match v with
  | VRef l =>
      match h !! l with
      | Some o => ret (Heap.alloc h o)
      | None => raise (AttributeError "object has no attribute 'copy'")
      end
  | _ => raise (AttributeError "object has no attribute 'copy'")
  end.

End Store.

(** A counter, as the number the dictionary holds. *)
Definition Qnat (n : nat) : Q := inject_Z (Z.of_nat n).

(** The dictionary literal that [BaseScraper.__init__] binds to
    [self.stats]: the list is built first, then the dictionary. *)
Definition new_stats (h : heap) : heap * val :=
  let '(h, errors) := Heap.alloc h (OList []) in
  Heap.alloc h
    (ODict [("jobs_found", VNum (Qnat 0)); ("jobs_processed", VNum (Qnat 0));
            ("jobs_categorized", VNum (Qnat 0)); ("errors", errors)]).

(** [self.stats[counter] += 1] *)
Definition increment (h : heap) (self_stats : val) (counter : string) : result heap :=
  (let* current := Store.getitem h self_stats counter in
   match current with
   | VNum q => Store.setitem h self_stats counter (VNum (q + 1))
   | VBool b => Store.setitem h self_stats counter (VNum ((if b then 1 else 0) + 1))
   | _ => raise (TypeError "unsupported operand type(s) for +=")
   end)%py.

(** [self.stats["errors"].append(message)] *)
Definition record_error (h : heap) (self_stats : val) (message : string) : result heap :=
  (let* errors := Store.getitem h self_stats "errors" in
   Store.append h errors (VStr message))%py.

(** [get_stats]: [self.stats.copy()] *)
Definition get_stats (h : heap) (self_stats : val) : result (heap * val) :=
  Store.copy h self_stats.

(** [registered_companies]: the keys of the registry, as a set. *)
Definition registered_companies (st : state) : gset string :=
  dom (_registry (factory st)).

(** ** More vocabulary *)

(** The class [[\x00-\x1f\x7f-\x9f]] of the last substitution of
    [_clean_text]. *)
Definition is_control (c : ascii) : bool := Str.between 0 31 c || Str.between 127 159 c.

(** The characters of a text. *)
Definition chars (s : string) : list ascii := list_ascii_of_string s.

(** Text that needs no cleaning: it is not empty, it has no "<" and no
    control character, and its white space is single plain spaces between
    other characters.  [after_space] tells whether the character before
    [s] was a space; it is true at the start, where no space may stand. *)
Fixpoint tidy_from (after_space : bool) (s : string) : bool :=
  match s with
  | EmptyString => negb after_space
  | String c s' =>
      if Str.isspace c then Ascii.eqb c " " && negb after_space && tidy_from true s'
      else negb (is_control c) && negb (Ascii.eqb c "<") && tidy_from false s'
  end.

Definition tidy (s : string) : bool := tidy_from true s.

(** The class [[^>]] of the markup pattern. *)
Definition not_close (c : ascii) : bool := negb (Ascii.eqb c ">").

(** The text begins with ">". *)
Definition closes (s : string) : bool :=
  match s with
  | String c _ => Ascii.eqb ">" c
  | EmptyString => false
  end.

(** ">" occurs in the text. *)
Fixpoint has_close (s : string) : bool :=
  match s with
  | String c s' => Ascii.eqb ">" c || has_close s'
  | EmptyString => false
  end.

(** Wherever the text has "<", either ">" follows at once or no ">"
    follows at all: no part of the text is a tag. *)
Fixpoint tagless (s : string) : bool :=
  match s with
  | String c s' =>
      (if Ascii.eqb "<" c then closes s' || negb (has_close s') else true) && tagless s'
  | EmptyString => true
  end.

(** [s] without the characters of a class. *)
Fixpoint without (cls : ascii -> bool) (s : string) : string :=
  match s with
  | String c s' => if cls c then without cls s' else String c (without cls s')
  | EmptyString => EmptyString
  end.

(** Every registered company is a configured one. *)
Definition registry_ok (st : state) : Prop :=
  forall k, k ∈ registered_companies st -> In k (fst (available_companies true st)).

(** The exception [create_scraper] raises for a company that is disabled. *)
Definition disabled_error (company_key : string) : exn :=
  ValueError ("Scraper for company '" ++ company_key ++ "' is disabled in configuration").

(** A document [ScraperFactory.__init__] can read: an object whose
    [companies] entry, if there is one, is an object. *)
Definition readable (raw_config : json) : Prop :=
  match raw_config with
  | JDict kvs =>
      match Dict.get "companies" kvs with
      | None | Some (JDict _) => True
      | Some _ => False
      end
  | _ => False
  end.


(** What looking up the class [class_name] in the module at [module_path]
    comes to, for the company [company_key]. *)
Definition resolution (importable : string -> option (Dict.t pyattr))
    (company_key module_path class_name : string) : result string :=
  match importable module_path with
  | None =>
      raise (ModuleNotFoundError
               ("Unable to import module '" ++ module_path
                ++ "' for company '" ++ company_key ++ "'"))
  | Some module =>
      match Dict.get class_name module with
      | None =>
          raise (AttributeError
                   ("Module '" ++ module_path
                    ++ "' does not define scraper class '" ++ class_name ++ "'"))
      | Some NotAScraper =>
          raise (TypeError
                   ("Scraper class '" ++ class_name ++ "' for company '"
                    ++ company_key ++ "' must inherit from BaseScraper"))
      | Some (ScraperClass cls) => ret cls
      end
  end.

(** In the heap [h] the value [self_stats] is a dictionary that reads as
    the statistics [st]; its list of errors is the object at [errors_at]. *)
Definition stats_at (h : heap) (self_stats : val) (errors_at : loc) (st : stats) : Prop :=
  exists l,
    self_stats = VRef l /\ l <> errors_at
    /\ h !! l = Some (ODict [("jobs_found", VNum (Qnat (jobs_found st)));
                             ("jobs_processed", VNum (Qnat (jobs_processed st)));
                             ("jobs_categorized", VNum (Qnat (jobs_categorized st)));
                             ("errors", VRef errors_at)])
    /\ h !! errors_at = Some (OList (map VStr (errors st))).

(** ** More sample data *)

Module Fixtures.
Import Sample.

(** What [create_scraper] does for "Amazon" on the sample factory. *)
Definition amazon_created : state * result constructor_call :=
  Eval vm_compute in create_scraper modules "Amazon" loaded.

Definition no_call : constructor_call :=
  {| call_class := ""; call_company_config := VNone; call_global_config := VNone |}.

Definition amazon_call : constructor_call :=
  match snd amazon_created with inr call => call | inl _ => no_call end.

Definition no_record : Job :=
  {| job_id := ""; job_title := ""; job_company := META; job_location := "";
     job_description := ""; job_department := None; job_category := OTHER;
     job_type := FULL_TIME; job_experience_level := MID;
     job_workplace_type := UNKNOWN; job_posted_date := None; job_url := None |}.

(** The record that [senior_remote_listing] yields. *)
Definition senior_record : Job :=
  Eval vm_compute in
    match yielded parse now join (scraper 0) senior_remote_listing with
    | Some job => job
    | None => no_record
    end.

(** A document in which the entry of one company is not a dictionary. *)
Definition document_bad_entry : json :=
  JDict [("companies", JDict [("Meta", JDict meta_config); ("amazon", JNum 5);
                              ("apple", JDict [("name", JStr "Apple")])])].

Definition loaded_bad_entry : state :=
  Eval vm_compute in state_of (__init__ document_bad_entry).

(** A global configuration with two user agents and rotation switched on,
    and a scraper instance built with it. *)
Definition rotating : Dict.t json :=
  [("user_agents", JList [JStr "agent/1"; JStr "agent/2"]);
   ("user_agent_rotation", JBool true)].

Definition no_instance : Instance.t :=
  {| Instance.company_config := JNull; Instance.global_config := JNull;
     Instance.company_name := META; Instance.display_name := JNull;
     Instance.careers_url := JNull; Instance.selectors := JNull;
     Instance.search_params := JNull; Instance.request_config := JNull;
     Instance.rate_limit := JNull; Instance.max_pages := JNull;
     Instance.categories := JNull; Instance.rules := JNull;
     Instance.stats_ := {| jobs_found := 0; jobs_processed := 0; jobs_categorized := 0;
                           errors := [] |} |}.

Definition meta_instance : Instance.t :=
  Eval vm_compute in
    match
      Instance.__init__
        (JDict [("name", JStr "Meta"); ("careers_url", JStr "https://careers.example.com/")])
        (JDict rotating)
    with
    | inr self => self
    | inl _ => no_instance
    end.

(** The statistics of a new scraper, in an empty heap. *)
Definition fresh_stats : heap * val := Eval vm_compute in new_stats ∅.

Definition no_stats : stats :=
  {| jobs_found := 0; jobs_processed := 0; jobs_categorized := 0; errors := [] |}.

End Fixtures.

(** * Properties *)

(** ** Strings *)

Module StrFacts.

Lemma append_cons (c : ascii) (a b : string) :
  (String c a ++ b)%string = String c (a ++ b)%string.
Proof. reflexivity. Qed.

Lemma prefix_spec (p s : string) :
  String.prefix p s = true <-> exists rest, s = (p ++ rest)%string.
Proof.
  revert s. induction p as [|c p IH]; intros s.
  - destruct s; simpl; split; eauto.
  - destruct s as [|c' s]; simpl.
    + split; [discriminate | intros [rest H]; discriminate].
    + destruct (Ascii.ascii_dec c c') as [->|Hne].
      * rewrite IH. split; intros [rest H]; exists rest;
          rewrite append_cons in *; congruence.
      * split; [discriminate | intros [rest H]; rewrite append_cons in H; congruence].
Qed.

(** [sub in s] holds exactly when [s] is [a ++ sub ++ b] for some [a], [b]. *)
Lemma contains_spec (sub s : string) :
  Str.contains sub s = true <-> exists a b, s = (a ++ sub ++ b)%string.
Proof.
  induction s as [|c s IH].
  - cbn [Str.contains]. rewrite orb_false_r, prefix_spec. split.
    + intros [rest H]. exists EmptyString, rest. exact H.
    + intros [[|? a] [b H]]; [eauto | discriminate].
  - cbn [Str.contains]. rewrite orb_true_iff, prefix_spec, IH. split.
    + intros [[rest H] | [a [b H]]].
      * exists EmptyString, rest. exact H.
      * exists (String c a), b. rewrite append_cons. congruence.
    + intros [[|c' a] [b H]].
      * left. exists b. exact H.
      * right. exists a, b. rewrite append_cons in H. congruence.
Qed.

Lemma truthy_nonempty (s : string) : Str.truthy s = true <-> s <> EmptyString.
Proof. destruct s; simpl; split; congruence. Qed.

End StrFacts.

Example lower_ex : Str.lower "Senior SWE" = "senior swe".
Proof. reflexivity. Qed.

Example split_ex : Str.split "  machine   learning " = ["machine"; "learning"].
Proof. reflexivity. Qed.

Example strip_ex : Str.strip "  a b  " = "a b".
Proof. reflexivity. Qed.

Example sub_whitespace_ex : Re.sub Patterns.whitespace_run " " "a  b   c" = "a b c".
Proof. reflexivity. Qed.

Example sub_tag_ex : Re.sub Patterns.markup_tag "" "<b>Senior</b> <>x" = "Senior <>x".
Proof. reflexivity. Qed.

Example search_date_ex :
  Re.search (nth 3 Patterns.date_patterns []) "posted January 5, 2024 by HR"
  = Some "January 5, 2024".
Proof. reflexivity. Qed.

Example search_years_ex :
  Patterns.found Patterns.years_0_2 "need 0-2 years" = true
  /\ Patterns.found Patterns.years_0_2 "need 10-2 years" = false.
Proof. split; reflexivity. Qed.

(** ** The keyword matcher *)

Module CategorizerFacts.
Import Categorizer.

Lemma find_keyword_matches_acc (text : string) (keywords acc : list string) :
  fold_left
    (fun matches keyword =>
       if keyword_hit text keyword then matches ++ [keyword] else matches)
    keywords acc
  = acc ++ List.filter (keyword_hit text) keywords.
Proof.
  revert acc. induction keywords as [|k ks IH]; intros acc; simpl.
  - by rewrite app_nil_r.
  - rewrite IH. destruct (keyword_hit text k); [|done].
    by rewrite <- app_assoc.
Qed.

(** The loop of [_find_keyword_matches] keeps, in order, the keywords
    that pass the test of its body. *)
Lemma find_keyword_matches_filter (text : string) (keywords : list string) :
  _find_keyword_matches text keywords = List.filter (keyword_hit text) keywords.
Proof. unfold _find_keyword_matches. by rewrite find_keyword_matches_acc. Qed.

Lemma keyword_hit_spec (text keyword : string) :
  keyword_hit text keyword = true <->
  Str.contains (Str.lower keyword) text = true
  \/ (1 < List.length (Str.split keyword)
      /\ Forall (fun word => Str.contains (Str.lower word) text = true)
           (Str.split keyword)).
Proof.
  unfold keyword_hit.
  destruct (Str.contains (Str.lower keyword) text) eqn:Hc.
  - split; auto.
  - destruct (Nat.ltb_spec 1 (List.length (Str.split keyword))) as [Hlt|Hge].
    + rewrite forallb_forall, List.Forall_forall. split.
      * intros H. right. split; [exact Hlt | exact H].
      * intros [H | [_ H]]; [discriminate | exact H].
    + split; [discriminate |]. intros [H | [H _]]; [discriminate | lia].
Qed.

End CategorizerFacts.

Module DictFacts.




End DictFacts.

Module QFacts.

Lemma Qgtb_true (a b : Q) : Qgtb a b = true <-> (b < a)%Q.
Proof.
  unfold Qgtb. rewrite negb_true_iff. split.
  - intros H. apply Qnot_le_lt. intros Hle.
    apply Qle_bool_iff in Hle. congruence.
  - intros H. destruct (Qle_bool a b) eqn:E; [|done].
    apply Qle_bool_iff in E. exfalso. by apply (Qlt_not_le b a).
Qed.

Lemma Qltb_true (a b : Q) : Qltb a b = true <-> (a < b)%Q.
Proof. apply (Qgtb_true b a). Qed.




End QFacts.

(** ** The categorizer *)

Module ScoreFacts.
Import Categorizer.








End ScoreFacts.

Module CategorizerClaims.
Import Categorizer.


Example categorize_engineer :
  categorize_job Sample.config "Software Engineer" "Build and ship backend services." None
  = inr {| category := TECHNOLOGY; confidence := 1;
           keyword_matches := [("technology", 1%nat)];
           department_match := false;
           reasoning_ := BestMatchWithScore (26 # 10) |}.
Proof. vm_compute. reflexivity. Qed.

Example categorize_nothing :
  nothing_matched Sample.config "Chef" "Cook dinner." None
  /\ categorize_job Sample.config "Chef" "Cook dinner." None
     = inr {| category := OTHER; confidence := 0; keyword_matches := [];
              department_match := false;
              reasoning_ := Literal "No category keywords found" |}.
Proof.
  split; [|reflexivity].
  intros k info [[= <- <-] | [[= <- <-] | []]]; vm_compute; auto.
Qed.


Lemma count_occ_filter (f : string -> bool) (l : list string) (x : string) :
  count_occ string_dec (List.filter f l) x <= count_occ string_dec l x.
Proof.
  induction l as [|y l IH]; simpl; [lia|].
  destruct (f y); simpl; destruct (string_dec y x); lia.
Qed.

(** C5, as amended.  [_find_keyword_matches] reports a keyword exactly
    when it is in the list and either its lower-cased form is a substring
    of the text as passed, or it splits into more than one word and every
    word, lower-cased, is a substring of the text; the matches come in
    list order and no keyword is reported more often than the list holds
    it. *)
Theorem find_keyword_matches_spec (text : string) (keywords : list string) :
  (forall keyword,
     In keyword (_find_keyword_matches text keywords) <->
     In keyword keywords
     /\ (Str.contains (Str.lower keyword) text = true
         \/ (1 < List.length (Str.split keyword)
             /\ Forall (fun word => Str.contains (Str.lower word) text = true)
                  (Str.split keyword))))
  /\ _find_keyword_matches text keywords = List.filter (keyword_hit text) keywords
  /\ (forall keyword,
        count_occ string_dec (_find_keyword_matches text keywords) keyword
        <= count_occ string_dec keywords keyword).
Proof.
  rewrite CategorizerFacts.find_keyword_matches_filter. split; [|split].
  - intros keyword. rewrite filter_In, CategorizerFacts.keyword_hit_spec. tauto.
  - reflexivity.
  - intros keyword. apply count_occ_filter.
Qed.

(** C5, the claim as stated fails: the keyword "AI" is reported for the
    text "ai engineer", in which "AI" does not occur verbatim, and it is
    a single word. *)
Lemma find_keyword_matches_folds_case :
  _find_keyword_matches "ai engineer" ["AI"] = ["AI"]
  /\ Str.contains "AI" "ai engineer" = false
  /\ List.length (Str.split "AI") = 1.
Proof. repeat split. Qed.

Example find_keyword_matches_words :
  _find_keyword_matches "learning about machines" ["machine learning"; "sales"; "Learning"]
  = ["machine learning"; "Learning"].
Proof. reflexivity. Qed.

End CategorizerClaims.

(** ** Normalization and the run loop *)

Section ScraperFacts.

Variable dateutil_parse : string -> option date.
Variable today : date.
Variable urljoin : string -> string -> result string.

Local Abbreviation body := (process_job_body dateutil_parse today urljoin).
Local Abbreviation process := (_process_job_data dateutil_parse today urljoin).
Local Abbreviation step := (scrape_step dateutil_parse today urljoin).
Local Abbreviation scrape := (scrape_jobs dateutil_parse today urljoin).
Local Abbreviation parse_date := (_parse_date dateutil_parse today).
Local Abbreviation absolute := (parse_absolute dateutil_parse).

Lemma clean_text_nonempty (text : option string) (s : string) :
  _clean_text text = Some s -> s <> "".
Proof.
  unfold _clean_text. destruct text as [t|]; [|discriminate].
  destruct (Str.truthy t); simpl; [|discriminate].
  destruct (Str.truthy (Re.sub _ _ _)) eqn:E; [|discriminate].
  intros [= <-]. by apply StrFacts.truthy_nonempty.
Qed.

Lemma set_stats_same (self : BaseScraper) : set_stats self (stats_ self) = self.
Proof. by destruct self. Qed.

Lemma stats_set_stats (self : BaseScraper) (st : stats) : stats_ (set_stats self st) = st.
Proof. reflexivity. Qed.

(** An item with a required field missing after cleaning is dropped, and
    leaves the scraper as it was. *)
Lemma process_missing_field (self : BaseScraper) (raw : raw_job) :
  _clean_text (raw_get raw "title" (Some "")) = None
  \/ _clean_text (raw_get raw "description" (Some "")) = None
  \/ _clean_text (raw_get raw "location" (Some "")) = None ->
  process self raw = (self, inr None).
Proof.
  intros H. unfold _process_job_data, process_job_body.
  destruct (_clean_text (raw_get raw "title" (Some ""))) as [t|];
    destruct (_clean_text (raw_get raw "description" (Some ""))) as [d|];
    destruct (_clean_text (raw_get raw "location" (Some ""))) as [l|];
    try (simpl; by rewrite set_stats_same);
    destruct H as [H | [H | H]]; discriminate.
Qed.

(** C10.  [_clean_text] returns [None] or a string that is not empty.
    It returns [None] for [None], for the empty string, and for a string
    of which nothing is left once white space is collapsed and tags and
    control characters are removed; and [_process_job_data] drops a
    listing whose title, description or location cleans to [None]. *)
Theorem clean_text_none_or_nonempty :
  (forall text,
     _clean_text text = None \/ exists s, _clean_text text = Some s /\ s <> "")
  /\ _clean_text None = None
  /\ _clean_text (Some "") = None
  /\ (forall t,
        Re.sub Patterns.control_char ""
          (Re.sub Patterns.markup_tag ""
             (Re.sub Patterns.whitespace_run " " (Str.strip t))) = "" ->
        _clean_text (Some t) = None)
  /\ (forall self raw,
        _clean_text (raw_get raw "title" (Some "")) = None
        \/ _clean_text (raw_get raw "description" (Some "")) = None
        \/ _clean_text (raw_get raw "location" (Some "")) = None ->
        process self raw = (self, inr None)).
Proof.
  split; [|split; [|split; [|split]]].
  - intros text. destruct (_clean_text text) as [s|] eqn:E; [right | by left].
    exists s. split; [reflexivity | by apply (clean_text_nonempty text)].
  - reflexivity.
  - reflexivity.
  - intros t H. unfold _clean_text. destruct (Str.truthy t); simpl; [|done].
    by rewrite H.
  - apply process_missing_field.
Qed.

(** *** Failure isolation *)

Lemma process_never_raises (self : BaseScraper) (raw : raw_job) :
  exists self' job, process self raw = (self', inr job).
Proof.
  unfold _process_job_data. destruct (body self raw) as [st [e|job]]; eauto.
Qed.

(** The body reads the configuration of the scraper, not its statistics,
    and changes no statistic but [jobs_categorized]. *)
Lemma body_frame (self : BaseScraper) (st : stats) (raw : raw_job) :
  snd (body (set_stats self st) raw) = snd (body self raw)
  /\ errors (fst (body (set_stats self st) raw)) = errors st
  /\ jobs_found (fst (body (set_stats self st) raw)) = jobs_found st
  /\ jobs_processed (fst (body (set_stats self st) raw)) = jobs_processed st.
Proof.
  destruct self as [cn cu rl cat st0].
  unfold process_job_body, absolute_url, set_stats. simpl.
  repeat case_match; simpl; auto; congruence.
Qed.

Lemma same_config_refl (a : BaseScraper) : same_config a a.
Proof. exists (stats_ a). by rewrite set_stats_same. Qed.

Lemma same_config_set_stats (a b : BaseScraper) (st : stats) :
  same_config a b -> same_config a (set_stats b st).
Proof. intros [st' ->]. by exists st. Qed.

Lemma yielded_same_config (a b : BaseScraper) (raw : raw_job) :
  same_config a b ->
  yielded dateutil_parse today urljoin b raw = yielded dateutil_parse today urljoin a raw.
Proof.
  intros [st ->]. unfold yielded.
  by destruct (body_frame a st raw) as [-> _].
Qed.

Lemma pauses_same_config (a b : BaseScraper) (n : nat) :
  same_config a b -> pauses b n = pauses a n.
Proof. by intros [st ->]. Qed.

(** One iteration: the record the item yields is appended, a success is
    counted, and the error list is left alone. *)
Lemma step_spec (self : BaseScraper) (jobs : list Job) (delays : list Q) (raw : raw_job) :
  exists self',
    step (self, jobs, delays) raw
    = (self', jobs ++ option_list (yielded dateutil_parse today urljoin self raw),
       delays ++ pauses self 1)
    /\ same_config self self'
    /\ errors (stats_ self') = errors (stats_ self)
    /\ jobs_found (stats_ self') = jobs_found (stats_ self)
    /\ jobs_processed (stats_ self')
       = jobs_processed (stats_ self)
         + List.length (option_list (yielded dateutil_parse today urljoin self raw)).
Proof.
  unfold scrape_step, _process_job_data, yielded, pauses.
  pose proof (body_frame self (stats_ self) raw) as (_ & He & Hf & Hp).
  rewrite set_stats_same in He, Hf, Hp.
  destruct (body self raw) as [st [e|[job|]]]; simpl in *.
  - exists (set_stats self st). rewrite app_nil_r.
    split_and!; [| by exists st | done | done | simpl; lia].
    destruct (Qgtb (rate_limit self) 0); by rewrite ?app_nil_r.
  - exists (set_stats self (add_processed st)).
    split_and!; [| by eexists | done | done | simpl; lia].
    destruct (Qgtb (rate_limit self) 0); by rewrite ?app_nil_r.
  - exists (set_stats self st). rewrite app_nil_r.
    split_and!; [| by exists st | done | done | simpl; lia].
    destruct (Qgtb (rate_limit self) 0); by rewrite ?app_nil_r.
Qed.

Lemma pauses_S (self : BaseScraper) (n : nat) :
  pauses self 1 ++ pauses self n = pauses self (S n).
Proof. unfold pauses. by destruct (Qgtb (rate_limit self) 0). Qed.

(** The loop of [scrape_jobs], from any state. *)
Lemma loop_spec (raw_jobs : list raw_job) (self : BaseScraper)
    (jobs : list Job) (delays : list Q) :
  exists self',
    fold_left step raw_jobs (self, jobs, delays)
    = (self', jobs ++ omap (yielded dateutil_parse today urljoin self) raw_jobs,
       delays ++ pauses self (List.length raw_jobs))
    /\ same_config self self'
    /\ errors (stats_ self') = errors (stats_ self)
    /\ jobs_found (stats_ self') = jobs_found (stats_ self)
    /\ jobs_processed (stats_ self')
       = jobs_processed (stats_ self)
         + List.length (omap (yielded dateutil_parse today urljoin self) raw_jobs).
Proof.
  revert self jobs delays.
  induction raw_jobs as [|raw raws IH]; intros self jobs delays.
  - exists self. simpl. rewrite !app_nil_r.
    assert (pauses self 0 = []) as -> by (unfold pauses; by destruct (Qgtb _ _)).
    rewrite app_nil_r. split_and!; [done | apply same_config_refl | done | done | lia].
  - cbn [fold_left].
    destruct (step_spec self jobs delays raw) as (s1 & -> & Hc1 & He1 & Hf1 & Hp1).
    destruct (IH s1 (jobs ++ option_list (yielded dateutil_parse today urljoin self raw))
                (delays ++ pauses self 1)) as (s2 & -> & Hc2 & He2 & Hf2 & Hp2).
    exists s2.
    assert (Hy : omap (yielded dateutil_parse today urljoin s1) raws
                 = omap (yielded dateutil_parse today urljoin self) raws).
    { clear -Hc1. unfold omap. induction raws as [|x xs IHx]; [done|]. simpl.
      by rewrite (yielded_same_config self s1 x Hc1), IHx. }
    rewrite Hy in *. rewrite (pauses_same_config self s1) by exact Hc1.
    rewrite <- !app_assoc, pauses_S.
    split; [|split; [|split; [|split]]].
    + f_equal. f_equal. simpl.
      by destruct (yielded dateutil_parse today urljoin self raw).
    + destruct Hc1 as [st1 ->]. destruct Hc2 as [st2 ->]. by exists st2.
    + congruence.
    + congruence.
    + rewrite Hp2, Hp1. unfold omap. simpl.
      destruct (yielded dateutil_parse today urljoin self raw); simpl; lia.
Qed.

(** The whole run on the listings the extraction stage produced. *)
Lemma scrape_spec (self : BaseScraper) (raw_jobs : list raw_job) :
  exists self',
    scrape self (inr raw_jobs)
    = (self', omap (yielded dateutil_parse today urljoin self) raw_jobs,
       pauses self (List.length raw_jobs))
    /\ errors (stats_ self') = errors (stats_ self)
    /\ jobs_found (stats_ self') = List.length raw_jobs
    /\ jobs_processed (stats_ self')
       = jobs_processed (stats_ self)
         + List.length (omap (yielded dateutil_parse today urljoin self) raw_jobs).
Proof.
  unfold scrape_jobs.
  destruct (loop_spec raw_jobs self [] []) as (s1 & -> & Hc & He & Hf & Hp).
  eexists. split; [reflexivity|]. simpl. auto.
Qed.


(** With a rate limit of zero the run sleeps not at all. *)
Lemma no_rate_limit_no_pause (self : BaseScraper) (n : nat) :
  rate_limit self = 0%Q -> pauses self n = [].
Proof. intros H. unfold pauses. by rewrite H. Qed.

(** A listing with a required field missing after cleaning yields no
    record. *)
Lemma missing_field_yields_nothing (self : BaseScraper) (raw : raw_job) :
  _clean_text (raw_get raw "title" (Some "")) = None
  \/ _clean_text (raw_get raw "description" (Some "")) = None
  \/ _clean_text (raw_get raw "location" (Some "")) = None ->
  yielded dateutil_parse today urljoin self raw = None.
Proof.
  intros H. apply process_missing_field with (self := self) in H.
  unfold yielded. unfold _process_job_data in H.
  destruct (body self raw) as [st [e|[job|]]]; unfold ret in *; simpl in *; congruence.
Qed.

(** *** Which listings can yield a record *)

Lemma determine_job_type_total (title description : string) :
  exists jt, _determine_job_type title description = inr jt.
Proof. unfold _determine_job_type. repeat case_match; eexists; reflexivity. Qed.

(** The members [ExperienceLevel] defines are not the ones
    [_determine_experience_level] names: only two of its branches return. *)
Lemma determine_experience_level_defined (title description : string)
    (el : ExperienceLevel) :
  _determine_experience_level title description = inr el ->
  el = SENIOR \/ el = DIRECTOR.
Proof.
  unfold _determine_experience_level.
  repeat case_match; intros Hres; vm_compute in Hres; try discriminate;
    injection Hres as <-; auto.
Qed.

Lemma determine_workplace_type_defined (location description : string)
    (wt : WorkplaceType) :
  _determine_workplace_type location description = inr wt -> wt <> ONSITE.
Proof.
  unfold _determine_workplace_type.
  repeat case_match; intros Hres; vm_compute in Hres; try discriminate;
    injection Hres as <-; discriminate.
Qed.

(** A record is produced only through the branches that name an existing
    member: its experience level is [SENIOR] or [DIRECTOR], and its
    workplace type is not [ONSITE]. *)
Lemma yielded_levels (self : BaseScraper) (raw : raw_job) (job : Job) :
  yielded dateutil_parse today urljoin self raw = Some job ->
  (job_experience_level job = SENIOR \/ job_experience_level job = DIRECTOR)
  /\ job_workplace_type job <> ONSITE.
Proof.
  unfold yielded, process_job_body.
  repeat case_match; simpl in *; try discriminate.
  intros [= <-].
  match goal with H : bind _ _ = _ |- _ => revert H end. unfold bind.
  destruct (_determine_job_type _ _) as [?|jt]; [discriminate|].
  destruct (_determine_experience_level _ _) as [?|el] eqn:Eel; [discriminate|].
  destruct (_determine_workplace_type _ _) as [?|wt] eqn:Ewt; [discriminate|].
  intros [= <-]. simpl. split.
  - by apply determine_experience_level_defined in Eel.
  - by apply determine_workplace_type_defined in Ewt.
Qed.

(** Whatever the listing, a record it yields has experience level
    [SENIOR] or [DIRECTOR] and a workplace type other than [ONSITE]: the
    other branches of the two cascades name members the enumerations do
    not define. *)
Theorem records_only_senior_or_director (self : BaseScraper) (raw : raw_job) :
  match yielded dateutil_parse today urljoin self raw with
  | Some job =>
      (job_experience_level job = SENIOR \/ job_experience_level job = DIRECTOR)
      /\ job_workplace_type job <> ONSITE
  | None => True
  end.
Proof.
  destruct (yielded dateutil_parse today urljoin self raw) as [job|] eqn:E; [|done].
  by apply (yielded_levels self raw).
Qed.

(** A run counts every raw listing as found, returns no record for a
    listing with a required field missing after cleaning, and sleeps
    nothing when the rate limit is not positive. *)
Theorem scrape_jobs_drops_and_counts (self : BaseScraper) (raw_jobs : list raw_job) :
  exists self',
    scrape self (inr raw_jobs)
    = (self', omap (yielded dateutil_parse today urljoin self) raw_jobs,
       pauses self (List.length raw_jobs))
    /\ jobs_found (stats_ self') = List.length raw_jobs
    /\ (forall raw,
          _clean_text (raw_get raw "title" (Some "")) = None
          \/ _clean_text (raw_get raw "description" (Some "")) = None
          \/ _clean_text (raw_get raw "location" (Some "")) = None ->
          yielded dateutil_parse today urljoin self raw = None)
    /\ ((rate_limit self <= 0)%Q -> pauses self (List.length raw_jobs) = []).
Proof.
  destruct (scrape_spec self raw_jobs) as (self' & Hs & _ & Hf & _).
  exists self'. split_and!; [done | done | apply missing_field_yields_nothing |].
  intros Hle. unfold pauses.
  destruct (Qgtb (rate_limit self) 0) eqn:E; [|done].
  apply QFacts.Qgtb_true in E. exfalso. by apply (Qlt_not_le 0 (rate_limit self)).
Qed.

(** *** The posted date *)

Lemma parse_relative_spec (date_str : string) :
  parse_relative (relative_patterns today) date_str
  = if relative_found date_str then Some today else None.
Proof.
  unfold relative_found, relative_patterns.
  cbn [parse_relative existsb].
  destruct (Patterns.found Patterns.days_ago _); [done|].
  destruct (Patterns.found Patterns.weeks_ago _); [done|].
  destruct (Patterns.found (Re.lit "yesterday") _); [done|].
  destruct (Patterns.found (Re.lit "today") _); done.
Qed.

Lemma parse_absolute_None (patterns : list Re.regex) (date_str : string) :
  absolute patterns date_str = None
  <-> Forall (gives_no_date dateutil_parse date_str) patterns.
Proof.
  induction patterns as [|p ps IH]; simpl.
  - split; [constructor | done].
  - rewrite Forall_cons, <- IH. unfold gives_no_date.
    destruct (Re.search p date_str) as [g|].
    + destruct (dateutil_parse g) as [d|]; [|tauto].
      split; [discriminate | intros [H _]; discriminate].
    + tauto.
Qed.

Lemma parse_absolute_Some (patterns : list Re.regex) (date_str : string) (d : date) :
  absolute patterns date_str = Some d
  <-> exists earlier pattern later group,
        patterns = earlier ++ pattern :: later
        /\ Forall (gives_no_date dateutil_parse date_str) earlier
        /\ Re.search pattern date_str = Some group
        /\ dateutil_parse group = Some d.
Proof.
  induction patterns as [|p ps IH]; simpl.
  - split; [discriminate|]. intros (e & q & l & g & H & _). by destruct e.
  - split.
    + destruct (Re.search p date_str) as [g|] eqn:Es.
      * destruct (dateutil_parse g) as [d'|] eqn:Ep.
        -- intros [= ->]. exists [], p, ps, g. split_and!; [done | constructor | done | done].
        -- intros H. apply IH in H as (e & q & l & g' & -> & He & Hs & Hp).
           exists (p :: e), q, l, g'. split_and!; [done | | done | done].
           constructor; [|done]. unfold gives_no_date. by rewrite Es.
      * intros H. apply IH in H as (e & q & l & g' & -> & He & Hs & Hp).
        exists (p :: e), q, l, g'. split_and!; [done | | done | done].
        constructor; [|done]. unfold gives_no_date. by rewrite Es.
    + intros (e & q & l & g & H & He & Hs & Hp). destruct e as [|p' e].
      * injection H as -> ->. by rewrite Hs, Hp.
      * injection H as -> ->. apply Forall_cons in He as [Hp' He].
        unfold gives_no_date in Hp'.
        assert (absolute (e ++ q :: l) date_str = Some d) as Hrest.
        { apply IH. by exists e, q, l, g. }
        destruct (Re.search p' date_str) as [g'|]; [by rewrite Hp' | done].
Qed.

(** C8, as amended.  [_parse_date] goes through the absolute patterns in
    their order and returns the date of the first match the parser
    accepts; a pattern whose match the parser rejects is passed over.
    The relative phrases are consulted exactly when no absolute pattern
    gave a date, and a string in which one of them occurs then resolves
    to the current date, whatever number it carries. *)
Theorem parse_date_stages (date_str : string) :
  parse_date (Some date_str)
  = match absolute Patterns.date_patterns date_str with
    | Some d => Some d
    | None => if relative_found date_str then Some today else None
    end
  /\ (absolute Patterns.date_patterns date_str = None
      <-> Forall (gives_no_date dateutil_parse date_str) Patterns.date_patterns)
  /\ (forall d,
        absolute Patterns.date_patterns date_str = Some d
        <-> exists earlier pattern later group,
              Patterns.date_patterns = earlier ++ pattern :: later
              /\ Forall (gives_no_date dateutil_parse date_str) earlier
              /\ Re.search pattern date_str = Some group
              /\ dateutil_parse group = Some d)
  /\ (absolute Patterns.date_patterns date_str = None ->
      relative_found date_str = true ->
      parse_date (Some date_str) = Some today).
Proof.
  assert (Hmain : parse_date (Some date_str)
                  = match absolute Patterns.date_patterns date_str with
                    | Some d => Some d
                    | None => if relative_found date_str then Some today else None
                    end).
  { destruct date_str as [|c rest]; [by vm_compute|].
    unfold _parse_date. cbn [Str.truthy negb].
    by rewrite parse_relative_spec. }
  split_and!.
  - exact Hmain.
  - apply parse_absolute_None.
  - intros d. apply parse_absolute_Some.
  - intros Ha Hr. by rewrite Hmain, Ha, Hr.
Qed.

End ScraperFacts.

Module ScraperRuns.
Import Sample.

(** C1, at the failing input.  The listing is well formed: its title,
    description and location clean to non-empty strings.  Determining its
    experience level reaches [ExperienceLevel.UNKNOWN], which the
    enumeration does not define; the exception is caught and the listing
    yields [None], no record. *)
Lemma well_formed_listing_dropped :
  _clean_text (raw_get plain_listing "title" (Some "")) = Some "Software Engineer"
  /\ _clean_text (raw_get plain_listing "description" (Some ""))
     = Some "Build and ship backend services."
  /\ _clean_text (raw_get plain_listing "location" (Some "")) = Some "Seattle, WA"
  /\ _determine_experience_level "Software Engineer" "Build and ship backend services."
     = inl (AttributeError "type object 'ExperienceLevel' has no attribute 'UNKNOWN'")
  /\ snd (_process_job_data parse now join (scraper 0) plain_listing) = inr None.
Proof. vm_compute. repeat split. Qed.

(** C2, at the failing input.  With a rate limit of zero, three listings
    of which two are valid and one has a blank location: all three are
    counted as found and nothing is slept, but no record is returned and
    none is counted as processed, because both valid listings end in
    [ExperienceLevel.UNKNOWN]. *)
Lemma three_listings_none_kept :
  let '(self, jobs, delays) :=
    scrape_jobs parse now join (scraper 0)
      (inr [plain_listing; analyst_listing; no_location_listing]) in
  jobs = [] /\ delays = []
  /\ jobs_found (stats_ self) = 3 /\ jobs_processed (stats_ self) = 0
  /\ errors (stats_ self) = [].
Proof. vm_compute. repeat split. Qed.

(** The run the specification describes, on listings that stay within the
    members the enumerations define: two records, three found, two
    processed, no delay. *)
Example three_listings_two_kept :
  let '(self, jobs, delays) :=
    scrape_jobs parse now join (scraper 0)
      (inr [senior_remote_listing; director_listing; no_location_listing]) in
  map job_title jobs = ["Senior Engineer"; "Director of Sales"]
  /\ map job_experience_level jobs = [SENIOR; DIRECTOR]
  /\ map job_workplace_type jobs = [REMOTE; UNKNOWN]
  /\ map job_category jobs = [TECHNOLOGY; SALES]
  /\ map job_url jobs = [Some "https://careers.example.com/jobs/12345"; Some ""]
  /\ delays = []
  /\ jobs_found (stats_ self) = 3 /\ jobs_processed (stats_ self) = 2.
Proof. vm_compute. repeat split. Qed.

Example rate_limit_two_sleeps_half :
  snd (scrape_jobs parse now join (scraper 2) (inr [senior_remote_listing; plain_listing]))
  = [1 # 2; 1 # 2]%Q.
Proof. vm_compute. reflexivity. Qed.


End ScraperRuns.

Example clean_text_examples :
  _clean_text (Some "  Senior   <b>Engineer</b> ") = Some "Senior Engineer"
  /\ _clean_text (Some "   ") = None
  /\ _clean_text (Some "<br/>") = None
  /\ _clean_text (Some "a < b > c") = Some "a  c".
Proof. repeat split. Qed.

Module DateExamples.
Import Sample.

(** C8, the claim as stated fails: the second absolute pattern matches
    "99/99/9999", the parser rejects it, and the relative phrase "today"
    is consulted although an absolute pattern matched. *)
Lemma relative_consulted_after_match :
  Re.search (nth 1 Patterns.date_patterns []) "99/99/9999 today" = Some "99/99/9999"
  /\ parse "99/99/9999" = None
  /\ _parse_date parse now (Some "99/99/9999 today") = Some now.
Proof. vm_compute. repeat split. Qed.

Example parse_date_examples :
  _parse_date parse now (Some "Posted 3 Days Ago") = Some now
  /\ _parse_date parse now (Some "2 weeks ago") = Some now
  /\ _parse_date parse now (Some "06/01/2024") = Some {| year := 2024; month := 6; day := 1 |}
  /\ _parse_date parse now (Some "2024-06-01, 3 days ago")
     = Some {| year := 2024; month := 6; day := 1 |}
  /\ _parse_date parse now (Some "soon") = None
  /\ _parse_date parse now (Some "") = None
  /\ _parse_date parse now None = None.
Proof. vm_compute. repeat split. Qed.

End DateExamples.

(** ** The heap, [deepcopy] and the factory *)

Lemma json_induction (P : json -> Prop) :
  P JNull -> (forall b, P (JBool b)) -> (forall q, P (JNum q)) -> (forall s, P (JStr s)) ->
  (forall js, Forall P js -> P (JList js)) ->
  (forall kvs, Forall (fun kj => P (snd kj)) kvs -> P (JDict kvs)) ->
  forall j, P j.
Proof.
  intros Hn Hb Hq Hs Hl Hd.
  fix IH 1. intros [| b | q | s | js | kvs].
  - exact Hn.
  - apply Hb.
  - apply Hq.
  - apply Hs.
  - apply Hl. induction js as [|j js IHjs]; constructor; [apply IH | exact IHjs].
  - apply Hd. induction kvs as [|[k j] kvs IHkvs]; constructor; [apply IH | exact IHkvs].
Qed.

Lemma load_JList js h :
  Heap.load (JList js) h = let '(h, vs) := load_list js h in Heap.alloc h (OList vs).
Proof. reflexivity. Qed.

Lemma load_JDict kvs h :
  Heap.load (JDict kvs) h = let '(h, items) := load_items kvs h in Heap.alloc h (ODict items).
Proof. reflexivity. Qed.

Lemma deepcopy_fuel_S fuel h v :
  Heap.deepcopy_fuel (S fuel) h v =
  match v with
  | VRef l =>
      match h !! l with
      | Some (OList vs) =>
          match copy_list fuel vs h with
          | Some (h, vs') => Some (Heap.alloc h (OList vs'))
          | None => None
          end
      | Some (ODict items) =>
          match copy_items fuel items h with
          | Some (h, items') => Some (Heap.alloc h (ODict items'))
          | None => None
          end
      | None => None
      end
  | _ => Some (h, v)
  end.
Proof. reflexivity. Qed.

Lemma repr_in_mono (P P' : loc -> Prop) (h h' : heap) (j : json) (v : val) :
  h ⊆ h' -> (forall l, P l -> P' l) -> repr_in P h j v -> repr_in P' h' j v.
Proof.
  intros Hsub HP. revert v.
  induction j as [| | | | js IH | kvs IH] using json_induction; intros v; simpl; try done.
  - intros (l & vs & -> & Hl & Hlook & Hall). exists l, vs.
    split_and!; [done | by apply HP | by eapply lookup_weaken |].
    clear Hlook. revert vs Hall.
    induction IH as [|j js Hj _ IHjs]; intros [|v vs]; simpl; try done.
    intros [H1 H2]. split; [by apply Hj | by apply IHjs].
  - intros (l & items & -> & Hl & Hlook & Hall). exists l, items.
    split_and!; [done | by apply HP | by eapply lookup_weaken |].
    clear Hlook. revert items Hall.
    induction IH as [|[k j] kvs Hj _ IHkvs]; intros [|[k' v] items]; simpl; try done.
    intros [[H0 H1] H2]. split; [split; [done | by apply Hj] | by apply IHkvs].
Qed.

Lemma alloc_spec (h : heap) (o : obj) (h' : heap) (v : val) :
  Heap.alloc h o = (h', v) ->
  exists l, v = VRef l /\ (l ∉ dom h) /\ h' = (<[l := o]> h) /\ h ⊆ h'.
Proof.
  unfold Heap.alloc. intros [= <- <-]. exists (fresh (dom h)).
  pose proof (is_fresh (dom h)) as Hf.
  split_and!; [done | done | done |].
  apply insert_subseteq. by apply not_elem_of_dom.
Qed.

Lemma all2_mono {A B} (R R' : A -> B -> Prop) l1 l2 :
  (forall a b, R a b -> R' a b) -> all2 R l1 l2 -> all2 R' l1 l2.
Proof.
  intros HR. revert l2. induction l1 as [|a l1 IH]; intros [|b l2]; simpl; try done.
  intros [H1 H2]. split; [by apply HR | by apply IH].
Qed.

Lemma not_dom_weaken (h h' : heap) (l : loc) : h ⊆ h' -> l ∉ dom h' -> l ∉ dom h.
Proof. intros Hsub Hl Hin. apply Hl. by apply (subseteq_dom h h'). Qed.

Lemma load_list_spec (js : list json) :
  Forall (fun j => forall h h' v, Heap.load j h = (h', v) ->
                   h ⊆ h' /\ repr_in (new_since h) h' j v) js ->
  forall h h' vs, load_list js h = (h', vs) ->
    h ⊆ h' /\ all2 (repr_in (new_since h) h') js vs.
Proof.
  induction 1 as [|j js Hj _ IH]; intros h h' vs; simpl.
  - intros [= <- <-]. done.
  - destruct (Heap.load j h) as [h1 v] eqn:E1.
    destruct (load_list js h1) as [h2 vs'] eqn:E2. intros [= <- <-].
    destruct (Hj _ _ _ E1) as [Hs1 Hr1]. destruct (IH _ _ _ E2) as [Hs2 Hr2].
    split; [by etrans|]. simpl. split.
    + by apply (repr_in_mono (fun l => l ∉ dom h) _ h1).
    + eapply all2_mono; [|exact Hr2]. intros a b.
      apply repr_in_mono; [done|]. intros l. by apply not_dom_weaken.
Qed.

Lemma load_items_spec (kvs : Dict.t json) :
  Forall (fun kj => forall h h' v, Heap.load (snd kj) h = (h', v) ->
                    h ⊆ h' /\ repr_in (new_since h) h' (snd kj) v) kvs ->
  forall h h' items, load_items kvs h = (h', items) ->
    h ⊆ h'
    /\ all2 (fun kj kv => fst kj = fst kv
                          /\ repr_in (new_since h) h' (snd kj) (snd kv)) kvs items.
Proof.
  induction 1 as [|[k j] kvs Hj _ IH]; intros h h' items; simpl.
  - intros [= <- <-]. done.
  - destruct (Heap.load j h) as [h1 v] eqn:E1.
    destruct (load_items kvs h1) as [h2 items'] eqn:E2. intros [= <- <-].
    destruct (Hj _ _ _ E1) as [Hs1 Hr1]. destruct (IH _ _ _ E2) as [Hs2 Hr2].
    split; [by etrans|]. simpl. split; [split; [done|] |].
    + by apply (repr_in_mono (fun l => l ∉ dom h) _ h1).
    + eapply all2_mono; [|exact Hr2]. intros a b [H0 H1]. split; [done|].
      revert H1. apply repr_in_mono; [done|]. intros l. by apply not_dom_weaken.
Qed.

(** [json.load] builds a tree of new objects that reads as the document. *)
Lemma load_spec (j : json) (h h' : heap) (v : val) :
  Heap.load j h = (h', v) -> h ⊆ h' /\ repr_in (new_since h) h' j v.
Proof.
  revert h h' v.
  induction j as [| | | | js IH | kvs IH] using json_induction; intros h h' v;
    try (simpl; intros [= <- <-]; done).
  - rewrite load_JList. destruct (load_list js h) as [h1 vs] eqn:E.
    intros Ha. apply alloc_spec in Ha as (l & -> & Hl & -> & Hs).
    destruct (load_list_spec js IH _ _ _ E) as [Hs1 Hr1].
    split; [by etrans|]. exists l, vs.
    split_and!; [done | by eapply not_dom_weaken | by rewrite lookup_insert_eq |].
    eapply all2_mono; [|exact Hr1]. intros a b. by apply repr_in_mono.
  - rewrite load_JDict. destruct (load_items kvs h) as [h1 items] eqn:E.
    intros Ha. apply alloc_spec in Ha as (l & -> & Hl & -> & Hs).
    destruct (load_items_spec kvs IH _ _ _ E) as [Hs1 Hr1].
    split; [by etrans|]. exists l, items.
    split_and!; [done | by eapply not_dom_weaken | by rewrite lookup_insert_eq |].
    eapply all2_mono; [|exact Hr1]. intros a b [H0 H1]. split; [done|].
    revert H1. by apply repr_in_mono.
Qed.

Lemma depth_list_le (js : list json) (n : nat) :
  list_max (map json_depth js) <= n -> Forall (fun j => json_depth j <= n) js.
Proof. rewrite list_max_le, Forall_map. done. Qed.

Lemma depth_items_le (kvs : Dict.t json) (n : nat) :
  list_max (map (fun kj => json_depth (snd kj)) kvs) <= n ->
  Forall (fun kj => json_depth (snd kj) <= n) kvs.
Proof. rewrite list_max_le, Forall_map. done. Qed.

Lemma copy_list_cons fuel v vs h :
  copy_list fuel (v :: vs) h =
  match Heap.deepcopy_fuel fuel h v with
  | Some (h, v') =>
      match copy_list fuel vs h with
      | Some (h, vs') => Some (h, v' :: vs')
      | None => None
      end
  | None => None
  end.
Proof. reflexivity. Qed.

Lemma copy_items_cons fuel k v items h :
  copy_items fuel ((k, v) :: items) h =
  match Heap.deepcopy_fuel fuel h v with
  | Some (h, v') =>
      match copy_items fuel items h with
      | Some (h, items') => Some (h, (k, v') :: items')
      | None => None
      end
  | None => None
  end.
Proof. reflexivity. Qed.

Lemma copy_list_spec (js : list json) :
  Forall copies js ->
  forall (P : loc -> Prop) n h vs,
    all2 (repr_in P h) js vs -> Forall (fun j => json_depth j <= n) js ->
    exists h' vs',
      copy_list (S n) vs h = Some (h', vs')
      /\ h ⊆ h' /\ all2 (repr_in (new_since h) h') js vs'.
Proof.
  induction 1 as [|j js Hj _ IH]; intros P n h [|v vs]; cbn [all2]; try done.
  - intros _ _. by exists h, [].
  - intros [Hr Hrs] Hd. apply Forall_cons in Hd as [Hd Hds].
    rewrite copy_list_cons.
    destruct (Hj P n h v Hr Hd) as (h1 & v' & -> & Hs1 & Hr1).
    destruct (IH P n h1 vs) as (h2 & vs' & -> & Hs2 & Hr2); [|done|].
    { eapply all2_mono; [|exact Hrs]. intros a b. by apply repr_in_mono. }
    exists h2, (v' :: vs'). split; [done|]. split; [by etrans|]. cbn [all2]. split.
    + by apply (repr_in_mono (fun l => l ∉ dom h) _ h1).
    + eapply all2_mono; [|exact Hr2]. intros a b.
      apply repr_in_mono; [done|]. intros l. by apply not_dom_weaken.
Qed.

Lemma copy_items_spec (kvs : Dict.t json) :
  Forall (fun kj => copies (snd kj)) kvs ->
  forall (P : loc -> Prop) n h items,
    all2 (fun kj kv => fst kj = fst kv /\ repr_in P h (snd kj) (snd kv)) kvs items ->
    Forall (fun kj => json_depth (snd kj) <= n) kvs ->
    exists h' items',
      copy_items (S n) items h = Some (h', items')
      /\ h ⊆ h'
      /\ all2 (fun kj kv => fst kj = fst kv
                            /\ repr_in (new_since h) h' (snd kj) (snd kv)) kvs items'.
Proof.
  induction 1 as [|[k j] kvs Hj _ IH]; intros P n h [|[k' v] items]; cbn [all2]; try done.
  - intros _ _. by exists h, [].
  - intros [[Hk Hr] Hrs] Hd. apply Forall_cons in Hd as [Hd Hds].
    cbn [fst snd] in *. subst k'. rewrite copy_items_cons.
    destruct (Hj P n h v Hr Hd) as (h1 & v' & -> & Hs1 & Hr1).
    destruct (IH P n h1 items) as (h2 & items' & -> & Hs2 & Hr2); [|done|].
    { eapply all2_mono; [|exact Hrs]. intros a b [H0 H1]. split; [done|].
      revert H1. by apply repr_in_mono. }
    exists h2, ((k, v') :: items'). split; [done|]. split; [by etrans|]. cbn [all2].
    split; [split; [done|] |]; cbn [fst snd].
    + by apply (repr_in_mono (fun l => l ∉ dom h) _ h1).
    + eapply all2_mono; [|exact Hr2]. intros a b [H0 H1]. split; [done|].
      revert H1. apply repr_in_mono; [done|]. intros l. by apply not_dom_weaken.
Qed.

(** With fuel beyond the depth of the document, [deepcopy] returns, and
    what it returns reads as the same document and is made of new objects. *)
Lemma deepcopy_fuel_spec (j : json) : copies j.
Proof.
  induction j as [| | | | js IH | kvs IH] using json_induction; intros P n h v;
    try (simpl; intros -> _; exists h; eexists; split_and!; [reflexivity | done | done]).
  - intros (l & vs & -> & Hl & Hlook & Hall) Hd. simpl in Hd.
    destruct n as [|n]; [lia|]. apply le_S_n, depth_list_le in Hd.
    rewrite deepcopy_fuel_S, Hlook.
    destruct (copy_list_spec js IH P n h vs Hall Hd) as (h1 & vs' & -> & Hs1 & Hr1).
    destruct (Heap.alloc h1 (OList vs')) as [h2 v2] eqn:Ea.
    apply alloc_spec in Ea as (l2 & -> & Hl2 & -> & Hs2).
    eexists _, _. split_and!; [reflexivity | by etrans |]. exists l2, vs'.
    split_and!; [done | by eapply not_dom_weaken | by rewrite lookup_insert_eq |].
    eapply all2_mono; [|exact Hr1]. intros a b. by apply repr_in_mono.
  - intros (l & items & -> & Hl & Hlook & Hall) Hd. simpl in Hd.
    destruct n as [|n]; [lia|]. apply le_S_n, depth_items_le in Hd.
    rewrite deepcopy_fuel_S, Hlook.
    destruct (copy_items_spec kvs IH P n h items Hall Hd) as (h1 & items' & -> & Hs1 & Hr1).
    destruct (Heap.alloc h1 (ODict items')) as [h2 v2] eqn:Ea.
    apply alloc_spec in Ea as (l2 & -> & Hl2 & -> & Hs2).
    eexists _, _. split_and!; [reflexivity | by etrans |]. exists l2, items'.
    split_and!; [done | by eapply not_dom_weaken | by rewrite lookup_insert_eq |].
    eapply all2_mono; [|exact Hr1]. intros a b [H0 H1]. split; [done|].
    revert H1. by apply repr_in_mono.
Qed.

(** A value reads as at most one document. *)
Lemma repr_in_functional (P P' : loc -> Prop) (h : heap) (j1 j2 : json) (v : val) :
  repr_in P h j1 v -> repr_in P' h j2 v -> j1 = j2.
Proof.
  revert j2 v.
  induction j1 as [| | | | js IH | kvs IH] using json_induction; intros j2 v H1 H2.
  1-4: destruct j2; simpl in *;
         try destruct H2 as (? & ? & ? & _); congruence.
  - destruct H1 as (l & vs & -> & _ & Hlook & Hall).
    destruct j2 as [| | | | js2 | kvs2]; simpl in H2; try discriminate.
    + destruct H2 as (l2 & vs2 & [= <-] & _ & Hlook2 & Hall2).
      rewrite Hlook in Hlook2. injection Hlook2 as <-. f_equal.
      clear Hlook. revert js2 vs Hall Hall2.
      induction IH as [|j js Hj _ IHjs]; intros [|j2 js2] [|v vs]; simpl; try done.
      intros [Ha Has] [Hb Hbs]. f_equal; [by eapply Hj | by eapply IHjs].
    + destruct H2 as (l2 & items2 & [= <-] & _ & Hlook2 & _). congruence.
  - destruct H1 as (l & items & -> & _ & Hlook & Hall).
    destruct j2 as [| | | | js2 | kvs2]; simpl in H2; try discriminate.
    + destruct H2 as (l2 & vs2 & [= <-] & _ & Hlook2 & _). congruence.
    + destruct H2 as (l2 & items2 & [= <-] & _ & Hlook2 & Hall2).
      rewrite Hlook in Hlook2. injection Hlook2 as <-. f_equal.
      clear Hlook. revert kvs2 items Hall Hall2.
      induction IH as [|[k j] kvs Hj _ IHkvs]; intros [|[k2 j2] kvs2] [|[k' v] items];
        simpl; try done.
      intros [[Hk Ha] Has] [[Hk2 Hb] Hbs]. f_equal; [|by eapply IHkvs].
      simpl in Hk, Hk2. f_equal; [congruence | by eapply Hj].
Qed.

Lemma size_in_list (j : json) (js : list json) :
  In j js -> json_size j <= list_sum (map json_size js).
Proof.
  induction js as [|j' js IH]; simpl; [done|]. intros [-> | H]; [lia|].
  apply IH in H. lia.
Qed.

Lemma size_in_items (kj : string * json) (kvs : Dict.t json) :
  In kj kvs -> json_size (snd kj) <= list_sum (map (fun kj => json_size (snd kj)) kvs).
Proof.
  induction kvs as [|kj' kvs IH]; simpl; [done|]. intros [-> | H]; [lia|].
  apply IH in H. lia.
Qed.

Lemma all2_In_mono {A B} (R R' : A -> B -> Prop) l1 l2 :
  (forall a b, In a l1 -> R a b -> R' a b) -> all2 R l1 l2 -> all2 R' l1 l2.
Proof.
  revert l2. induction l1 as [|a l1 IH]; intros [|b l2] HR; simpl; try done.
  intros [H1 H2]. split; [apply HR; [by left | done] |].
  apply IH; [|done]. intros a' b' Hin. apply HR. by right.
Qed.

(** The object a document is read from is not among those its strict
    parts are read from. *)
Lemma repr_in_delete (P : loc -> Prop) (h : heap) (l : loc) (j0 j : json) (v : val) :
  repr_in P h j0 (VRef l) -> json_size j < json_size j0 ->
  repr_in P h j v -> repr_in P (delete l h) j v.
Proof.
  intros H0. revert v.
  induction j as [| | | | js IH | kvs IH] using json_induction; intros v Hsz; simpl; try done.
  - intros (l' & vs & -> & Hl & Hlook & Hall).
    assert (l <> l') as Hne.
    { intros ->. assert (j0 = JList js) as ->; [|lia].
      eapply repr_in_functional; [exact H0|]. by exists l', vs. }
    exists l', vs. split_and!; [done | done | by rewrite lookup_delete_ne |].
    eapply all2_In_mono; [|exact Hall]. intros j v Hin Hr.
    rewrite List.Forall_forall in IH. apply IH; [done | | done].
    pose proof (size_in_list j js Hin). simpl in Hsz. lia.
  - intros (l' & items & -> & Hl & Hlook & Hall).
    assert (l <> l') as Hne.
    { intros ->. assert (j0 = JDict kvs) as ->; [|lia].
      eapply repr_in_functional; [exact H0|]. by exists l', items. }
    exists l', items. split_and!; [done | done | by rewrite lookup_delete_ne |].
    eapply all2_In_mono; [|exact Hall]. intros kj kv Hin [Hk Hr]. split; [done|].
    rewrite List.Forall_forall in IH. apply IH; [done | | done].
    pose proof (size_in_items kj kvs Hin). simpl in Hsz. lia.
Qed.

Lemma all2_Forall_l {A B} (R : A -> B -> Prop) (Q : A -> Prop) l1 l2 :
  (forall a b, In a l1 -> R a b -> Q a) -> all2 R l1 l2 -> Forall Q l1.
Proof.
  revert l2. induction l1 as [|a l1 IH]; intros [|b l2] HR; simpl; try done.
  intros [H1 H2]. constructor; [eapply HR; [by left | done] |].
  eapply IH; [|done]. intros a' b' Hin. apply HR. by right.
Qed.

(** A document read from a heap is no deeper than the heap has objects. *)
Lemma depth_le_size (P : loc -> Prop) (j : json) (h : heap) (v : val) :
  repr_in P h j v -> json_depth j <= size h.
Proof.
  revert h v.
  induction j as [| | | | js IH | kvs IH] using json_induction; intros h v; simpl; try lia.
  - intros (l & vs & -> & Hl & Hlook & Hall).
    assert (size (delete l h) = pred (size h)) as Hsz.
    { apply map_size_delete_Some. by eexists. }
    assert (size h <> 0) as Hne.
    { apply map_size_ne_0_lookup_2 with l. by eexists. }
    assert (list_max (map json_depth js) <= size (delete l h)); [|lia].
    apply list_max_le, Forall_map.
    rewrite List.Forall_forall in IH.
    eapply all2_Forall_l; [|exact Hall]. intros j v Hin Hr. simpl.
    apply (IH j Hin (delete l h) v).
    apply repr_in_delete with (j0 := JList js); [by exists l, vs | | done].
    pose proof (size_in_list j js Hin). simpl. lia.
  - intros (l & items & -> & Hl & Hlook & Hall).
    assert (size (delete l h) = pred (size h)) as Hsz.
    { apply map_size_delete_Some. by eexists. }
    assert (size h <> 0) as Hne.
    { apply map_size_ne_0_lookup_2 with l. by eexists. }
    assert (list_max (map (fun kj => json_depth (snd kj)) kvs) <= size (delete l h)); [|lia].
    apply list_max_le, Forall_map.
    rewrite List.Forall_forall in IH.
    eapply all2_Forall_l; [|exact Hall]. intros kj kv Hin [Hk Hr]. simpl.
    apply (IH kj Hin (delete l h) (snd kv)).
    apply repr_in_delete with (j0 := JDict kvs); [by exists l, items | | done].
    pose proof (size_in_items kj kvs Hin). simpl. lia.
Qed.

(** [copy.deepcopy] of a value that reads as a document returns a value
    that reads as the same document and is made of new objects only. *)
Lemma deepcopy_spec (P : loc -> Prop) (h : heap) (j : json) (v : val) :
  repr_in P h j v ->
  exists h' v',
    Heap.deepcopy h v = Some (h', v')
    /\ h ⊆ h' /\ repr_in (new_since h) h' j v'.
Proof.
  intros Hr. unfold Heap.deepcopy.
  apply (deepcopy_fuel_spec j P (size h) h v Hr). by eapply depth_le_size.
Qed.

Lemma all2_In_r {A B} (R : A -> B -> Prop) l1 l2 (b : B) :
  all2 R l1 l2 -> In b l2 -> exists a, In a l1 /\ R a b.
Proof.
  revert l2. induction l1 as [|a l1 IH]; intros [|b' l2]; simpl; try done.
  intros [H1 H2] [-> | Hin]; [by eauto|].
  destruct (IH l2 H2 Hin) as (a' & ? & ?). eauto.
Qed.

(** Whatever a value leads to was visited when it was read. *)
Lemma repr_in_reach (P : loc -> Prop) (h : heap) (j : json) (v : val) (l : loc) :
  repr_in P h j v -> reach h v l -> P l.
Proof.
  intros Hr Hreach. revert j Hr.
  induction Hreach as [l | l items k v l' Hlook Hin _ IH | l vs v l' Hlook Hin _ IH];
    intros j Hr.
  - destruct j; simpl in Hr; try discriminate;
      destruct Hr as (l0 & ? & [= <-] & Hl & _); exact Hl.
  - destruct j as [| | | | js | kvs]; simpl in Hr; try discriminate.
    + destruct Hr as (l0 & vs & [= <-] & _ & Hlook' & _). congruence.
    + destruct Hr as (l0 & items' & [= <-] & _ & Hlook' & Hall).
      rewrite Hlook in Hlook'. injection Hlook' as <-.
      destruct (all2_In_r _ _ _ _ Hall Hin) as (kj & _ & _ & Hkj). by eapply IH.
  - destruct j as [| | | | js | kvs]; simpl in Hr; try discriminate.
    + destruct Hr as (l0 & vs' & [= <-] & _ & Hlook' & Hall).
      rewrite Hlook in Hlook'. injection Hlook' as <-.
      destruct (all2_In_r _ _ _ _ Hall Hin) as (j' & _ & Hj'). by eapply IH.
    + destruct Hr as (l0 & items & [= <-] & _ & Hlook' & _). congruence.
Qed.

Lemma truthy_repr (P : loc -> Prop) (h : heap) (j : json) (v : val) :
  repr_in P h j v -> Heap.truthy h v = json_truthy j.
Proof.
  destruct j as [| | | | js | kvs]; simpl; try (by intros ->).
  - intros (l & vs & -> & _ & Hlook & Hall). simpl. rewrite Hlook.
    by destruct js, vs.
  - intros (l & items & -> & _ & Hlook & Hall). simpl. rewrite Hlook.
    by destruct kvs, items.
Qed.

Lemma all2_get {V W} (R : V -> W -> Prop) (d1 : Dict.t V) (d2 : Dict.t W) (k : string) :
  all2 (fun a b => fst a = fst b /\ R (snd a) (snd b)) d1 d2 ->
  match Dict.get k d1, Dict.get k d2 with
  | Some x, Some y => R x y
  | None, None => True
  | _, _ => False
  end.
Proof.
  revert d2. induction d1 as [|[k1 x] d1 IH]; intros [|[k2 y] d2]; simpl; try done.
  intros [[-> Hxy] Hrest]. destruct (String.eqb k k2); [done | by apply IH].
Qed.

Lemma dict_lookup_repr (P : loc -> Prop) (h : heap) (kvs : Dict.t json) (v : val)
    (key : string) :
  repr_in P h (JDict kvs) v ->
  exists found,
    Heap.dict_lookup h v key = inr found
    /\ match Dict.get key kvs, found with
       | Some j, Some v' => repr_in P h j v'
       | None, None => True
       | _, _ => False
       end.
Proof.
  intros (l & items & -> & _ & Hlook & Hall). simpl. rewrite Hlook.
  exists (Dict.get key items). split; [done|].
  by apply (all2_get (repr_in P h)).
Qed.

Lemma dict_get_repr (P : loc -> Prop) (h : heap) (kvs : Dict.t json) (v dflt : val)
    (key : string) (j : json) :
  repr_in P h (JDict kvs) v -> Dict.get key kvs = Some j ->
  exists v', Heap.dict_get h v key dflt = inr v' /\ repr_in P h j v'.
Proof.
  intros Hr Hget. destruct (dict_lookup_repr P h kvs v key Hr) as (found & Hl & Hm).
  unfold Heap.dict_get. rewrite Hl, Hget in *. destruct found as [v'|]; [|done].
  by exists v'.
Qed.

Lemma dict_get_default (P : loc -> Prop) (h : heap) (kvs : Dict.t json) (v dflt : val)
    (key : string) :
  repr_in P h (JDict kvs) v -> Dict.get key kvs = None ->
  Heap.dict_get h v key dflt = inr dflt.
Proof.
  intros Hr Hget. destruct (dict_lookup_repr P h kvs v key Hr) as (found & Hl & Hm).
  unfold Heap.dict_get. rewrite Hl, Hget in *. by destruct found.
Qed.

Lemma mutated_subseteq (owned : loc -> Prop) (h0 h h' : heap) :
  (forall l, owned l -> l ∉ dom h0) -> h0 ⊆ h -> mutated owned h h' -> h0 ⊆ h'.
Proof.
  intros Hown Hsub Hmut. induction Hmut as [h | h l o h' Hl _ IH]; [done|].
  apply IH. apply insert_subseteq_r; [|done]. by apply not_elem_of_dom, Hown.
Qed.

Lemma factory_ok_mono (st st' : state) (companies : Dict.t json) (glob : json) :
  _company_configs (factory st') = _company_configs (factory st) ->
  _global_config (factory st') = _global_config (factory st) ->
  objects st ⊆ objects st' ->
  factory_ok st companies glob -> factory_ok st' companies glob.
Proof.
  intros Hc Hg Hsub [Hcs Hgl]. unfold factory_ok. rewrite Hc, Hg. split.
  - eapply all2_mono; [|exact Hcs]. intros a b [H0 H1]. split; [done|].
    revert H1. by apply repr_in_mono.
  - revert Hgl. by apply repr_in_mono.
Qed.


Lemma lower_char_idem (c : ascii) : Str.lower_char (Str.lower_char c) = Str.lower_char c.
Proof. destruct c as [[] [] [] [] [] [] [] []]; reflexivity. Qed.

Lemma lower_idem (s : string) : Str.lower (Str.lower s) = Str.lower s.
Proof. induction s as [|c s IH]; simpl; [done|]. by rewrite lower_char_idem, IH. Qed.

Lemma all2_set {V W} (R : V -> W -> Prop) (d1 : Dict.t V) (d2 : Dict.t W)
    (k : string) (x : V) (y : W) :
  all2 (keyed R) d1 d2 -> R x y -> all2 (keyed R) (Dict.set k x d1) (Dict.set k y d2).
Proof.
  intros Hall Hxy. revert d2 Hall.
  induction d1 as [|[k1 x1] d1 IH]; intros [|[k2 y2] d2]; simpl; try done.
  intros [[Hk H1] Hrest]. simpl in Hk. subst k2.
  destruct (String.eqb k k1); simpl; [done|]. split; [done | by apply IH].
Qed.

Lemma all2_fold_set {V W} (R : V -> W -> Prop) (f : string -> string)
    (l1 : Dict.t V) (l2 : Dict.t W) (d1 : Dict.t V) (d2 : Dict.t W) :
  all2 (keyed R) l1 l2 -> all2 (keyed R) d1 d2 ->
  all2 (keyed R)
    (fold_left (fun d '(key, value) => Dict.set (f key) value d) l1 d1)
    (fold_left (fun d '(key, value) => Dict.set (f key) value d) l2 d2).
Proof.
  revert l2 d1 d2. induction l1 as [|[k1 x] l1 IH]; intros [|[k2 y] l2] d1 d2; simpl; try done.
  intros [[Hk Hxy] Hrest] Hd. simpl in Hk. subst k2.
  apply IH; [done|]. by apply all2_set.
Qed.

Lemma all2_filter_key {V W} (R : V -> W -> Prop) (f : string -> bool)
    (d1 : Dict.t V) (d2 : Dict.t W) :
  all2 (keyed R) d1 d2 ->
  all2 (keyed R) (List.filter (fun '(key, _) => f key) d1)
    (List.filter (fun '(key, _) => f key) d2).
Proof.
  revert d2. induction d1 as [|[k1 x] d1 IH]; intros [|[k2 y] d2]; simpl; try done.
  intros [[Hk Hxy] Hrest]. simpl in Hk. subst k2.
  destruct (f k1); simpl; [split; [done|] |]; by apply IH.
Qed.

Lemma enabled_repr (P : loc -> Prop) (h : heap) (kvs : Dict.t json) (v : val) :
  repr_in P h (JDict kvs) v ->
  exists enabled,
    Heap.dict_get h v "enabled" (VBool true) = inr enabled
    /\ Heap.truthy h enabled = json_enabled (JDict kvs).
Proof.
  intros Hr. simpl. destruct (Dict.get "enabled" kvs) as [j|] eqn:Eg.
  - destruct (dict_get_repr P h kvs v (VBool true) "enabled" j Hr Eg) as (e & -> & He).
    exists e. split; [done|]. by eapply truthy_repr.
  - rewrite (dict_get_default P h kvs v (VBool true) "enabled" Hr Eg). by exists (VBool true).
Qed.

Lemma filter_length_all {A} (f : A -> bool) (l : list A) :
  List.length (List.filter f l) = List.length l -> Forall (fun a => f a = true) l.
Proof.
  induction l as [|a l IH]; simpl; [constructor|].
  pose proof (List.filter_length_le f l) as Hle.
  destruct (f a) eqn:E; simpl; intros H; [|lia].
  constructor; [done|]. apply IH. lia.
Qed.

Lemma filter_all {A} (f : A -> bool) (l : list A) :
  Forall (fun a => f a = true) l -> List.filter f l = l.
Proof. induction 1 as [|a l Ha _ IH]; simpl; [done|]. by rewrite Ha, IH. Qed.

Lemma sublist_filter_map {A B} (f : A -> bool) (g : A -> B) (l : list A) :
  sublist (map g (List.filter f l)) (map g l).
Proof.
  induction l as [|a l IH]; simpl; [constructor|].
  destruct (f a); simpl; by constructor.
Qed.

Section FactoryFacts.

Variable importable : string -> option (Dict.t pyattr).

Lemma get_company_config_spec (st : state) (companies : Dict.t json) (glob : json)
    (company_key : string) (j : json) :
  factory_ok st companies glob ->
  Dict.get (Str.lower company_key) companies = Some j ->
  exists h v,
    get_company_config company_key st = (set_objects st h, inr v)
    /\ objects st ⊆ h
    /\ repr_in (fun l => l ∉ dom (objects st)) h j v.
Proof.
  intros [Hcs _] Hget. unfold get_company_config.
  pose proof (all2_get (repr (objects st)) _ _ (Str.lower company_key) Hcs) as Hm.
  rewrite Hget in Hm.
  destruct (Dict.get (Str.lower company_key) (_company_configs (factory st)))
    as [config|]; [|done].
  destruct (deepcopy_spec _ _ _ _ Hm) as (h & v & -> & Hsub & Hr).
  by exists h, v.
Qed.

Lemma get_company_config_unknown (st : state) (companies : Dict.t json) (glob : json)
    (company_key : string) :
  factory_ok st companies glob ->
  Dict.get (Str.lower company_key) companies = None ->
  get_company_config company_key st
  = (st, inl (KeyError ("No configuration found for company '" ++ company_key ++ "'"))).
Proof.
  intros [Hcs _] Hget. unfold get_company_config.
  pose proof (all2_get (repr (objects st)) _ _ (Str.lower company_key) Hcs) as Hm.
  rewrite Hget in Hm.
  by destruct (Dict.get (Str.lower company_key) (_company_configs (factory st))).
Qed.

(** Resolving the class touches the registry and the import log only. *)
Lemma get_scraper_class_frame (company_key : string) (config : val) (st st' : state)
    (r : result string) :
  _get_scraper_class importable company_key config st = (st', r) ->
  objects st' = objects st
  /\ _company_configs (factory st') = _company_configs (factory st)
  /\ _global_config (factory st') = _global_config (factory st).
Proof.
  unfold _get_scraper_class. repeat case_match; intros [= <- <-]; done.
Qed.


Lemma available_all (h : heap) (configs : Dict.t val) :
  available_loop h true configs = (map fst configs, None).
Proof.
  induction configs as [|[k v] configs IH]; simpl; [done|]. by rewrite IH.
Qed.

Lemma available_enabled (h : heap) (companies : Dict.t json) (configs : Dict.t val) :
  all2 (keyed (repr h)) companies configs ->
  Forall (fun kj => is_dict (snd kj)) companies ->
  available_loop h false configs
  = (map fst (List.filter (fun kj => json_enabled (snd kj)) companies), None).
Proof.
  revert configs.
  induction companies as [|[k j] companies IH]; intros [|[k' v] configs]; simpl; try done.
  intros [[Hk Hr] Hrest] Hd. apply Forall_cons in Hd as [Hd Hds]. simpl in *. subst k'.
  destruct j as [| | | | |kvs]; try done.
  destruct (enabled_repr _ h kvs v Hr) as (e & -> & ->).
  rewrite (IH configs Hrest Hds). simpl.
  by destruct (json_truthy _).
Qed.

End FactoryFacts.

Section FactoryClaims.

Variable importable : string -> option (Dict.t pyattr).

(** What a successful [create_scraper] went through. *)
Lemma create_scraper_call (st st1 : state) (companies : Dict.t json) (glob : json)
    (company_key : string) (j : json) (call : constructor_call) :
  factory_ok st companies glob ->
  Dict.get (Str.lower company_key) companies = Some j ->
  create_scraper importable company_key st = (st1, inr call) ->
  objects st ⊆ objects st1
  /\ _company_configs (factory st1) = _company_configs (factory st)
  /\ _global_config (factory st1) = _global_config (factory st)
  /\ repr_in (new_since (objects st)) (objects st1) j (call_company_config call)
  /\ repr_in (new_since (objects st)) (objects st1) glob (call_global_config call).
Proof.
  intros Hok Hget. unfold create_scraper.
  rewrite <- lower_idem in Hget.
  destruct (get_company_config_spec st companies glob _ j Hok Hget)
    as (h1 & v1 & -> & Hs1 & Hr1).
  cbn [objects set_objects].
  destruct (Heap.dict_get h1 v1 "enabled" (VBool true)) as [e|enabled]; [discriminate|].
  destruct (negb (Heap.truthy h1 enabled)); [discriminate|].
  destruct (_get_scraper_class importable (Str.lower company_key) v1 (set_objects st h1))
    as [st2 [e|cls]] eqn:Ec; [discriminate|].
  apply get_scraper_class_frame in Ec as (Ho & Hc & Hg). simpl in Ho, Hc, Hg.
  destruct Hok as [_ Hglob].
  assert (repr (objects st2) glob (_global_config (factory st2))) as Hg2.
  { rewrite Ho, Hg. revert Hglob. by apply repr_in_mono. }
  destruct (deepcopy_spec _ _ _ _ Hg2) as (h2 & g2 & -> & Hs2 & Hr2).
  intros [= <- <-]. simpl. rewrite Ho in *.
  split_and!; [by etrans | done | done | |].
  - revert Hr1. by apply repr_in_mono.
  - revert Hr2. apply repr_in_mono; [done|]. intros l. by apply not_dom_weaken.
Qed.

Lemma factory_ok_serves (st : state) (companies : Dict.t json) (glob : json) :
  factory_ok st companies glob -> serves importable st companies glob.
Proof.
  intros Hok. split.
  - intros key j Hget.
    destruct (get_company_config_spec st companies glob key j Hok Hget)
      as (h & v & -> & _ & Hr).
    eexists _, v. split; [done|]. simpl. revert Hr. by apply repr_in_mono.
  - intros key j st' call Hget Hcall.
    destruct (create_scraper_call st st' companies glob key j call Hok Hget Hcall)
      as (_ & _ & _ & Hc & Hg).
    split; [revert Hc | revert Hg]; by apply repr_in_mono.
Qed.

(** C6.  When the configuration of the company has [enabled] set to
    false, [create_scraper] raises the disabled-company [ValueError].
    The state it leaves differs from the one it found in the heap only,
    which has gained the copy that was made and dropped: the registry and
    the stored configuration are as before, no module was imported, and
    no constructor call is returned. *)
Theorem create_scraper_disabled (st : state) (companies : Dict.t json) (glob : json)
    (company_key : string) (config : Dict.t json) :
  factory_ok st companies glob ->
  Dict.get (Str.lower company_key) companies = Some (JDict config) ->
  Dict.get "enabled" config = Some (JBool false) ->
  exists st',
    create_scraper importable company_key st
    = (st', inl (ValueError ("Scraper for company '" ++ company_key
                              ++ "' is disabled in configuration")))
    /\ factory st' = factory st
    /\ imports st' = imports st
    /\ objects st ⊆ objects st'
    /\ factory_ok st' companies glob.
Proof.
  intros Hok Hget Hen. unfold create_scraper.
  rewrite <- lower_idem in Hget.
  destruct (get_company_config_spec st companies glob _ _ Hok Hget)
    as (h1 & v1 & -> & Hs1 & Hr1).
  cbn [objects set_objects].
  destruct (dict_get_repr _ h1 config v1 (VBool true) "enabled" _ Hr1 Hen)
    as (e & -> & He).
  simpl in He. subst e. simpl.
  exists (set_objects st h1). split_and!; try done.
  by apply (factory_ok_mono st).
Qed.

(** C7, as amended.  With the default flag [available_companies] yields,
    in configuration order, exactly the keys of the companies whose
    [enabled] entry is true or missing; with [include_disabled] it yields
    every key.  The first result is a sublist of the second, and the two
    are equal exactly when no company is disabled. *)
Theorem available_companies_spec (st : state) (companies : Dict.t json) (glob : json) :
  factory_ok st companies glob ->
  Forall (fun kj => is_dict (snd kj)) companies ->
  available_companies false st
  = (map fst (List.filter (fun kj => json_enabled (snd kj)) companies), None)
  /\ available_companies true st = (map fst companies, None)
  /\ sublist (fst (available_companies false st)) (fst (available_companies true st))
  /\ (fst (available_companies false st) = fst (available_companies true st)
      <-> Forall (fun kj => json_enabled (snd kj) = true) companies).
Proof.
  intros [Hcs _] Hd. unfold available_companies.
  rewrite (available_enabled _ companies _ Hcs Hd), available_all.
  assert (map fst (_company_configs (factory st)) = map fst companies) as ->.
  { clear Hd. revert Hcs. generalize (_company_configs (factory st)).
    induction companies as [|[k j] cs IH]; intros [|[k' v] configs]; simpl; try done.
    intros [[Hk _] Hrest]. simpl in Hk. subst k'. f_equal. by apply IH. }
  split_and!; [done | done | apply sublist_filter_map |]. simpl. split.
  - intros Heq. apply filter_length_all.
    apply (f_equal (@List.length string)) in Heq. by rewrite !length_map in Heq.
  - intros Hall. by rewrite filter_all.
Qed.

(** C9.  The dictionary [get_company_config] returns, and the two
    dictionaries [create_scraper] passes to the constructor, read as the
    stored company configuration and the stored global configuration and
    consist of objects allocated by the call: every location they lead to
    is new.  Whatever is then written to locations that are not the
    factory's leaves the stored configuration reading as before, so any
    later [get_company_config] or [create_scraper] hands out the values
    that were loaded. *)
Theorem handed_out_configs_are_copies (st : state) (companies : Dict.t json)
    (glob : json) (company_key : string) (j : json) :
  factory_ok st companies glob ->
  Dict.get (Str.lower company_key) companies = Some j ->
  (exists st1 v,
     get_company_config company_key st = (st1, inr v)
     /\ repr_in (new_since (objects st)) (objects st1) j v
     /\ (forall l, reach (objects st1) v l -> new_since (objects st) l)
     /\ forall h',
          mutated (new_since (objects st)) (objects st1) h' ->
          factory_ok (set_objects st1 h') companies glob
          /\ serves importable (set_objects st1 h') companies glob)
  /\ (forall st1 call,
        create_scraper importable company_key st = (st1, inr call) ->
        repr_in (new_since (objects st)) (objects st1) j (call_company_config call)
        /\ repr_in (new_since (objects st)) (objects st1) glob (call_global_config call)
        /\ (forall l,
              reach (objects st1) (call_company_config call) l
              \/ reach (objects st1) (call_global_config call) l ->
              new_since (objects st) l)
        /\ forall h',
             mutated (new_since (objects st)) (objects st1) h' ->
             factory_ok (set_objects st1 h') companies glob
             /\ serves importable (set_objects st1 h') companies glob).
Proof.
  intros Hok Hget. split.
  - destruct (get_company_config_spec st companies glob company_key j Hok Hget)
      as (h & v & -> & Hs & Hr).
    exists (set_objects st h), v. split_and!; [done | done | |].
    + intros l. by apply repr_in_reach with (j := j).
    + intros h' Hmut.
      assert (factory_ok (set_objects (set_objects st h) h') companies glob) as Hok'.
      { apply (factory_ok_mono st); [done | done | | done]. simpl.
        by apply (mutated_subseteq (new_since (objects st)) _ h). }
      split; [done | by apply factory_ok_serves].
  - intros st1 call Hcall.
    destruct (create_scraper_call st st1 companies glob company_key j call Hok Hget Hcall)
      as (Hs & Hc & Hg & Hrc & Hrg).
    split_and!; [done | done | |].
    + intros l [Hl | Hl]; [by apply repr_in_reach with (j := j) (v := call_company_config call) (h := objects st1)
                          | by apply repr_in_reach with (j := glob) (v := call_global_config call) (h := objects st1)].
    + intros h' Hmut.
      assert (factory_ok (set_objects st1 h') companies glob) as Hok'.
      { apply (factory_ok_mono st); [done | done | | done]. simpl.
        by apply (mutated_subseteq (new_since (objects st)) _ (objects st1)). }
      split; [done | by apply factory_ok_serves].
Qed.

End FactoryClaims.

Lemma dict_items_repr (P : loc -> Prop) (h : heap) (j : json) (v : val)
    (items : Dict.t val) :
  repr_in P h j v -> Heap.dict_items h v = inr items ->
  exists kvs, j = JDict kvs /\ all2 (keyed (repr_in P h)) kvs items.
Proof.
  destruct j as [| | | | js | kvs]; simpl; try (by intros ->).
  - intros (l & vs & -> & _ & Hlook & _). simpl. by rewrite Hlook.
  - intros (l & items' & -> & _ & Hlook & Hall). simpl. rewrite Hlook.
    intros [= <-]. by exists kvs.
Qed.

Lemma dict_lookup_is_dict (P : loc -> Prop) (h : heap) (j : json) (v : val)
    (key : string) (found : option val) :
  repr_in P h j v -> Heap.dict_lookup h v key = inr found -> exists kvs, j = JDict kvs.
Proof.
  destruct j as [| | | | js | kvs]; simpl; try (by intros ->).
  - intros (l & vs & -> & _ & Hlook & _). simpl. by rewrite Hlook.
  - intros _ _. by exists kvs.
Qed.

(** [__init__] stores the companies of the document under lower-cased
    keys, and everything but the companies as the global configuration. *)
Lemma init_ok (raw_config : json) (st : state) :
  __init__ raw_config = inr st ->
  factory_ok st (loaded_companies raw_config) (loaded_global raw_config).
Proof.
  unfold __init__. destruct (Heap.load raw_config ∅) as [h raw] eqn:El.
  apply load_spec in El as [_ Hraw].
  destruct (Heap.dict_lookup h raw "companies") as [e|found] eqn:Elook; [discriminate|].
  destruct (dict_lookup_is_dict _ _ _ _ _ _ Hraw Elook) as [kvs ->].
  destruct (dict_lookup_repr _ _ _ _ "companies" Hraw) as (found' & Hl & Hm).
  rewrite Elook in Hl. injection Hl as <-. cbn [bind].
  set (P := fun l : loc => l ∉ dom (∅ : heap)) in *.
  assert ((exists company_items,
            match found with
            | Some companies => Heap.dict_items h companies
            | None => ret []
            end = inr company_items
            /\ all2 (keyed (repr_in P h))
                 (match Dict.get "companies" kvs with
                  | Some (JDict cs) => cs
                  | _ => []
                  end) company_items)
            \/ exists e, match found with
                         | Some companies => Heap.dict_items h companies
                         | None => ret []
                         end = inl e) as Hitems.
  { destruct (Dict.get "companies" kvs) as [jc|], found as [vc|]; try done.
    - destruct (Heap.dict_items h vc) as [e|items] eqn:Ei; [right; by exists e|].
      destruct (dict_items_repr _ _ _ _ _ Hm Ei) as (cs & -> & Hall).
      left. by exists items.
    - left. by exists []. }
  destruct Hitems as [(company_items & -> & Hcs) | [e He]]; [|by rewrite He].
  destruct (Heap.dict_items h raw) as [e|raw_items] eqn:Eraw; [discriminate|].
  destruct (dict_items_repr _ _ _ _ _ Hraw Eraw) as (kvs' & [= <-] & Hall).
  cbn [bind]. unfold Heap.alloc. intros [= <-]. unfold factory_ok. simpl.
  assert (h ⊆ <[fresh (dom h) := ODict (List.filter
            (fun '(key, _) => negb (String.eqb key "companies")) raw_items)]> h) as Hsub.
  { apply insert_subseteq, not_elem_of_dom, is_fresh. }
  split.
  - assert (all2 (keyed (repr_in P h))
              (match Dict.get "companies" kvs with
               | Some (JDict companies) =>
                   fold_left (fun d '(key, value) => Dict.set (Str.lower key) value d)
                     companies []
               | _ => []
               end)
              (fold_left (fun d '(key, value) => Dict.set (Str.lower key) value d)
                 company_items [])) as Hfold.
    { destruct (Dict.get "companies" kvs) as [[| | | | |cs]|];
        try (destruct company_items; done).
      by apply all2_fold_set. }
    eapply all2_mono; [|exact Hfold]. intros a b [H0 H1]. split; [done|].
    revert H1. by apply repr_in_mono.
  - exists (fresh (dom h)), (List.filter
      (fun '(key, _) => negb (String.eqb key "companies")) raw_items).
    split_and!; [done | done | by rewrite lookup_insert_eq |].
    pose proof (all2_filter_key (repr_in P h)
                  (fun key => negb (String.eqb key "companies")) _ _ Hall) as Hf.
    eapply all2_mono; [|exact Hf]. intros a b [H0 H1]. split; [done|].
    revert H1. by apply repr_in_mono.
Qed.

(** Whenever [__init__] returns, the factory it returns holds the document:
    the companies under lower-cased keys, the rest as global configuration. *)
Theorem init_holds_document (raw_config : json) :
  match __init__ raw_config with
  | inr st => factory_ok st (loaded_companies raw_config) (loaded_global raw_config)
  | inl _ => True
  end.
Proof.
  destruct (__init__ raw_config) as [e|st] eqn:E; [done|]. by apply init_ok.
Qed.

(** ** The factory on a sample document *)

Module FactoryRuns.
Import Sample.

Lemma loaded_init : __init__ document = inr loaded.
Proof. by vm_compute. Qed.

Lemma loaded_ok : factory_ok loaded (loaded_companies document) (loaded_global document).
Proof. apply init_ok, loaded_init. Qed.

(** C6 at the sample document, for the key "META". *)
Lemma create_scraper_disabled_witness :
  factory_ok loaded (loaded_companies document) (loaded_global document)
  /\ Dict.get (Str.lower "META") (loaded_companies document) = Some (JDict meta_config)
  /\ Dict.get "enabled" meta_config = Some (JBool false)
  /\ exists st',
       create_scraper modules "META" loaded
       = (st', inl (ValueError ("Scraper for company '" ++ "META"
                                 ++ "' is disabled in configuration")))
       /\ factory st' = factory loaded
       /\ imports st' = imports loaded
       /\ objects loaded ⊆ objects st'
       /\ factory_ok st' (loaded_companies document) (loaded_global document).
Proof.
  split_and!; [apply loaded_ok | by vm_compute | by vm_compute |].
  apply (create_scraper_disabled modules loaded (loaded_companies document)
           (loaded_global document) "META" meta_config);
    [apply loaded_ok | by vm_compute | by vm_compute].
Defined.

Example create_scraper_meta :
  snd (create_scraper modules "META" loaded)
  = inl (ValueError "Scraper for company 'META' is disabled in configuration")
  /\ imports (fst (create_scraper modules "META" loaded)) = []
  /\ _registry (factory (fst (create_scraper modules "META" loaded))) = ∅.
Proof. vm_compute. repeat split. Qed.

Example create_scraper_amazon :
  match snd (create_scraper modules "Amazon" loaded) with
  | inr call => Some (call_class call)
  | inl _ => None
  end = Some "AmazonScraper"
  /\ imports (fst (create_scraper modules "Amazon" loaded))
     = ["scrapers.companies.amazon_scraper"]
  /\ _registry (factory (fst (create_scraper modules "Amazon" loaded))) !! "amazon"
     = Some "AmazonScraper".
Proof. vm_compute. repeat split. Qed.

(** C7 at the sample document. *)
Lemma available_companies_spec_witness :
  factory_ok loaded (loaded_companies document) (loaded_global document)
  /\ Forall (fun kj => is_dict (snd kj)) (loaded_companies document)
  /\ available_companies false loaded
     = (map fst (List.filter (fun kj => json_enabled (snd kj)) (loaded_companies document)),
        None)
  /\ available_companies true loaded = (map fst (loaded_companies document), None)
  /\ sublist (fst (available_companies false loaded)) (fst (available_companies true loaded))
  /\ (fst (available_companies false loaded) = fst (available_companies true loaded)
      <-> Forall (fun kj => json_enabled (snd kj) = true) (loaded_companies document)).
Proof.
  assert (Forall (fun kj => is_dict (snd kj)) (loaded_companies document)) as Hd.
  { vm_compute. repeat constructor. }
  split; [apply loaded_ok|]. split; [exact Hd|].
  apply (available_companies_spec loaded (loaded_companies document) (loaded_global document));
    [apply loaded_ok | exact Hd].
Defined.

Example available_companies_sample :
  available_companies false loaded = (["amazon"], None)
  /\ available_companies true loaded = (["meta"; "amazon"], None).
Proof. vm_compute. split; reflexivity. Qed.

(** C7, the claim as stated fails: when every company is enabled, the
    result with [include_disabled] is the default result, not a strict
    superset of it. *)
Lemma available_companies_not_strict :
  __init__ document_all_enabled = inr loaded_all_enabled
  /\ available_companies false loaded_all_enabled = (["meta"; "amazon"], None)
  /\ available_companies true loaded_all_enabled = (["meta"; "amazon"], None).
Proof. vm_compute. repeat split. Qed.

(** C9 at the sample document, for the key "Amazon". *)
Lemma handed_out_configs_are_copies_witness :
  factory_ok loaded (loaded_companies document) (loaded_global document)
  /\ Dict.get (Str.lower "Amazon") (loaded_companies document) = Some (JDict amazon_config)
  /\ (exists st1 v,
        get_company_config "Amazon" loaded = (st1, inr v)
        /\ repr_in (new_since (objects loaded)) (objects st1) (JDict amazon_config) v
        /\ (forall l, reach (objects st1) v l -> new_since (objects loaded) l)
        /\ forall h',
             mutated (new_since (objects loaded)) (objects st1) h' ->
             factory_ok (set_objects st1 h') (loaded_companies document)
               (loaded_global document)
             /\ serves modules (set_objects st1 h') (loaded_companies document)
                  (loaded_global document))
  /\ (forall st1 call,
        create_scraper modules "Amazon" loaded = (st1, inr call) ->
        repr_in (new_since (objects loaded)) (objects st1) (JDict amazon_config)
          (call_company_config call)
        /\ repr_in (new_since (objects loaded)) (objects st1) (loaded_global document)
             (call_global_config call)
        /\ (forall l,
              reach (objects st1) (call_company_config call) l
              \/ reach (objects st1) (call_global_config call) l ->
              new_since (objects loaded) l)
        /\ forall h',
             mutated (new_since (objects loaded)) (objects st1) h' ->
             factory_ok (set_objects st1 h') (loaded_companies document)
               (loaded_global document)
             /\ serves modules (set_objects st1 h') (loaded_companies document)
                  (loaded_global document)).
Proof.
  split; [apply loaded_ok|]. split; [by vm_compute|].
  apply (handed_out_configs_are_copies modules loaded (loaded_companies document)
           (loaded_global document) "Amazon" (JDict amazon_config));
    [apply loaded_ok | by vm_compute].
Defined.

(** The copy is a different object: the stored Amazon dictionary lies at
    location 3, the dictionary handed out at a location allocated by the
    call, and a write to the latter leaves the former as it was. *)
Example copy_is_not_the_stored_dictionary :
  Dict.get "amazon" (_company_configs (factory loaded)) = Some (VRef 3)
  /\ snd (get_company_config "Amazon" loaded) = inr (VRef 10)
  /\ objects loaded !! 10 = None
  /\ (<[10 := ODict []]> (objects (fst (get_company_config "Amazon" loaded)))) !! 3
     = objects loaded !! 3.
Proof. vm_compute. repeat split. Qed.

(** Had the stored dictionary itself been handed out, a write to it would
    show: emptying the object at the location of the stored Meta dictionary
    changes what [create_scraper] does for "meta". *)
Example write_to_stored_dictionary_shows :
  Dict.get "meta" (_company_configs (factory loaded)) = Some (VRef 2)
  /\ snd (create_scraper modules "meta"
            (set_objects loaded (<[2 := ODict []]> (objects loaded))))
     = inl (ValueError "Scraper class not specified for company 'meta'").
Proof. vm_compute. repeat split. Qed.

End FactoryRuns.

(** * Further properties

    What follows covers more of the code: the rest of the categorizer and
    of the normalization helpers, the statistics of a run, the life of the
    registry of the factory, the construction of a scraper and its user
    agent. *)

(** ** Texts *)

Module TextFacts.

Lemma truthy_lower (s : string) : Str.truthy (Str.lower s) = Str.truthy s.
Proof. by destruct s. Qed.

Lemma lower_app (a b : string) : Str.lower (a ++ b) = (Str.lower a ++ Str.lower b)%string.
Proof.
  induction a as [|c a IH]; [done|].
  rewrite StrFacts.append_cons. simpl. by rewrite IH.
Qed.

Lemma take_lower (n : nat) (s : string) : Str.take n (Str.lower s) = Str.lower (Str.take n s).
Proof.
  revert s. induction n as [|n IH]; intros [|c s]; simpl; try done. by rewrite IH.
Qed.

Lemma take_take (n : nat) (s : string) : Str.take n (Str.take n s) = Str.take n s.
Proof.
  revert s. induction n as [|n IH]; intros [|c s]; simpl; try done. by rewrite IH.
Qed.

Lemma app_assoc_str (a b c : string) : ((a ++ b) ++ c = a ++ (b ++ c))%string.
Proof.
  induction a as [|x a IH]; [done|]. rewrite !StrFacts.append_cons. by rewrite IH.
Qed.

(** A text that contains a phrase contains every phrase the phrase starts with. *)
Lemma contains_app_l (a b s : string) :
  Str.contains (a ++ b) s = true -> Str.contains a s = true.
Proof.
  rewrite !StrFacts.contains_spec. intros (x & y & ->).
  exists x, (b ++ y)%string. by rewrite app_assoc_str.
Qed.

End TextFacts.

(** ** More on the categorizer *)

Module CategorizerMore.
Import Categorizer.

Lemma lower_or_empty_Some (s : string) : lower_or_empty (Some s) = Str.lower s.
Proof. by destruct s. Qed.

Lemma lower_or_empty_lower (p : option string) :
  lower_or_empty (Str.lower <$> p) = lower_or_empty p.
Proof.
  destruct p as [s|]; [|done]. simpl.
  rewrite TextFacts.truthy_lower. destruct (Str.truthy s); [|done]. apply lower_idem.
Qed.

Lemma fold_left_pointwise {A B} (f g : A -> B -> A) (l : list B) (a : A) :
  (forall x y, f x y = g x y) -> fold_left f l a = fold_left g l a.
Proof.
  intros H. revert a. induction l as [|y l IH]; intros a; simpl; [done|].
  by rewrite H, IH.
Qed.

Lemma score_category_sample (c : JobCategorizer) (t d p : string) (info : category_info) :
  score_category c t (Str.take 500 d) p info = score_category c t d p info.
Proof. unfold score_category. by rewrite TextFacts.take_take. Qed.

Lemma score_all_sample (c : JobCategorizer) (t d p : string) :
  score_all c t (Str.take 500 d) p = score_all c t d p.
Proof.
  unfold score_all. apply fold_left_pointwise.
  intros [scores counts] [k info]. by rewrite score_category_sample.
Qed.

(** The categorizer reads its three texts lower-cased, and of the
    description the first 500 characters only: lower-casing the texts
    beforehand, or cutting the description after 500 characters, changes
    nothing in the result. *)
Theorem categorize_job_text_window (c : JobCategorizer)
    (title description : string) (department : option string) :
  categorize_job c (Str.lower title) (Str.lower description) (Str.lower <$> department)
  = categorize_job c title description department
  /\ categorize_job c title (Str.take 500 description) department
     = categorize_job c title description department.
Proof.
  unfold categorize_job. rewrite !lower_or_empty_Some, !lower_idem, lower_or_empty_lower.
  split; [done|].
  by rewrite <- TextFacts.take_lower, score_all_sample.
Qed.

End CategorizerMore.

Module BestFacts.
Import Categorizer.



Lemma set_keys {V} (k : string) (v : V) (d : Dict.t V) :
  map fst (Dict.set k v d)
  = if Dict.mem k d then map fst d else map fst d ++ [k].
Proof.
  unfold Dict.mem. induction d as [|[k' v'] d IH]; simpl; [done|].
  destruct (String.eqb_spec k k') as [->|Hne]; simpl; [done|].
  rewrite IH. by destruct (Dict.get k d).
Qed.

Lemma mem_In_keys {V} (k : string) (d : Dict.t V) :
  Dict.mem k d = true <-> In k (map fst d).
Proof.
  unfold Dict.mem. induction d as [|[k' v'] d IH]; simpl; [split; [discriminate|done]|].
  destruct (String.eqb_spec k k') as [->|Hne]; [split; auto|].
  rewrite IH. split; [auto|]. intros [H|H]; [congruence | done].
Qed.

Lemma set_keys_NoDup {V} (k : string) (v : V) (d : Dict.t V) :
  List.NoDup (map fst d) -> List.NoDup (map fst (Dict.set k v d)).
Proof.
  intros Hnd. rewrite set_keys. destruct (Dict.mem k d) eqn:E; [done|].
  apply NoDup_ListNoDup. apply NoDup_ListNoDup in Hnd.
  apply NoDup_app. split; [done|]. split; [|apply NoDup_singleton].
  intros x Hx Hk. apply list_elem_of_singleton in Hk as ->.
  apply list_elem_of_In, mem_In_keys in Hx. congruence.
Qed.

Lemma get_unique {V} (k : string) (v : V) (d : Dict.t V) :
  List.NoDup (map fst d) -> In (k, v) d -> Dict.get k d = Some v.
Proof.
  induction d as [|[k' v'] d IH]; simpl; [done|].
  intros Hnd [[= -> ->] | Hin].
  - by rewrite String.eqb_refl.
  - apply List.NoDup_cons_iff in Hnd as [Hk Hnd].
    destruct (String.eqb_spec k k') as [->|Hne]; [|by apply IH].
    exfalso. apply Hk. change k' with (fst (k', v)). by apply in_map.
Qed.



End BestFacts.

Module CategorizerBest.
Import Categorizer.


End CategorizerBest.

(** ** The job type *)

Section JobTypeFacts.

(** A disjunct that implies an earlier one can be dropped. *)
Lemma orb_absorb (a b : bool) : (b = true -> a = true) -> a || b = a.
Proof. destruct a, b; intros H; try done. by rewrite H. Qed.

(** The cascade of [_determine_job_type], with the words that another
    word of the same test makes redundant left out. *)
Lemma determine_job_type_cascade (title description : string) :
  let text := Str.lower (title ++ " " ++ description) in
  _determine_job_type title description
  = inr (if Str.contains "intern" text || Str.contains "student" text then INTERNSHIP
         else if Str.contains "contract" text || Str.contains "temp" text then CONTRACT
         else if Str.contains "part time" text || Str.contains "part-time" text
                 || Str.contains "parttime" text then PART_TIME
         else if Str.contains "freelance" text || Str.contains "consultant" text
         then FREELANCE
         else FULL_TIME).
Proof.
  intros text. unfold _determine_job_type, Str.any_in. fold text. cbn [existsb].
  rewrite !orb_false_r, !orb_assoc.
  rewrite (orb_absorb (Str.contains "intern" text) (Str.contains "internship" text))
    by apply (TextFacts.contains_app_l "intern" "ship").
  rewrite (orb_absorb (Str.contains "contract" text) (Str.contains "contractor" text))
    by apply (TextFacts.contains_app_l "contract" "or").
  rewrite <- (orb_assoc (Str.contains "contract" text)).
  rewrite (orb_comm (Str.contains "temporary" text) (Str.contains "temp" text)).
  rewrite (orb_absorb (Str.contains "temp" text) (Str.contains "temporary" text))
    by apply (TextFacts.contains_app_l "temp" "orary").
  rewrite (orb_absorb (Str.contains "freelance" text) (Str.contains "freelancer" text))
    by apply (TextFacts.contains_app_l "freelance" "r").
  by repeat case_match.
Qed.

(** No text is classified as temporary: "temp" and "temporary" are among
    the words of the contract test, which comes first. *)
Lemma determine_job_type_not_temporary (title description : string) :
  _determine_job_type title description <> inr TEMPORARY.
Proof.
  pose proof (determine_job_type_cascade title description) as H. simpl in H.
  rewrite H. by repeat case_match.
Qed.

(** [_determine_job_type] always returns, and what it returns is decided
    by nine words looked for in the lower-cased title and description
    joined by a space, in this order: "intern" or "student" give
    INTERNSHIP; else "contract" or "temp" give CONTRACT; else "part time",
    "part-time" or "parttime" give PART_TIME; else "freelance" or
    "consultant" give FREELANCE; else FULL_TIME.  The other words of the
    source lists ("internship", "contractor", "temporary", "freelancer")
    change nothing, TEMPORARY is never returned, and the case of the
    input does not matter. *)
Theorem determine_job_type_spec (title description : string) :
  let text := Str.lower (title ++ " " ++ description) in
  _determine_job_type title description
  = inr (if Str.contains "intern" text || Str.contains "student" text then INTERNSHIP
         else if Str.contains "contract" text || Str.contains "temp" text then CONTRACT
         else if Str.contains "part time" text || Str.contains "part-time" text
                 || Str.contains "parttime" text then PART_TIME
         else if Str.contains "freelance" text || Str.contains "consultant" text
         then FREELANCE
         else FULL_TIME)
  /\ _determine_job_type title description <> inr TEMPORARY
  /\ _determine_job_type (Str.lower title) (Str.lower description)
     = _determine_job_type title description.
Proof.
  intros text. split_and!.
  - apply determine_job_type_cascade.
  - apply determine_job_type_not_temporary.
  - unfold _determine_job_type.
    by rewrite !TextFacts.lower_app, !lower_idem.
Qed.

End JobTypeFacts.

(** ** More on [_clean_text] *)

Module SubFacts.
Import Re.

Lemma chars_app (a b : string) : chars (a ++ b) = chars a ++ chars b.
Proof.
  induction a as [|c a IH]; [done|]. rewrite StrFacts.append_cons. simpl. by rewrite IH.
Qed.

Lemma str_drop_length (n : nat) (s : string) : String.length (Str.drop n s) <= String.length s.
Proof.
  revert s. induction n as [|n IH]; intros [|c s]; simpl; try lia.
  specialize (IH s). lia.
Qed.

(** A pattern that begins with a character of a class does not match
    where the text begins with a character outside it. *)
Lemma match_here_miss (cls : ascii -> bool) (hi : option nat) (r : regex)
    (prev : option ascii) (c : ascii) (s : string) :
  cls c = false -> match_here (Rep cls 1 hi :: r) prev (String c s) = None.
Proof.
  intros Hc. cbn [match_here].
  assert (leading cls hi (String c s) = 0) as ->.
  { destruct hi as [[|n]|]; simpl; by rewrite ?Hc. }
  reflexivity.
Qed.

(** A run of characters of a class, or one such character, matches where
    the text begins with one, and the match is not empty. *)
Lemma match_here_run (cls : ascii -> bool) (hi : option nat)
    (prev : option ascii) (c : ascii) (s : string) :
  cls c = true -> hi <> Some 0 ->
  exists rest,
    match_here [Rep cls 1 hi] prev (String c s) = Some rest
    /\ rest = Str.drop (leading cls hi (String c s)) (String c s)
    /\ exists k, String.length (String c s) - String.length rest = S k.
Proof.
  intros Hc Hhi. cbn [match_here].
  assert (exists m, leading cls hi (String c s) = S m) as [m Hm].
  { destruct hi as [[|n]|]; [done | |]; simpl; rewrite Hc; eauto. }
  rewrite Hm. cbn [backtrack Nat.ltb Nat.leb match_here].
  eexists. split; [reflexivity|]. split; [reflexivity|].
  cbn [Str.drop]. pose proof (str_drop_length m s). cbn [String.length].
  exists (String.length s - String.length (Str.drop m s)). lia.
Qed.

(** What [re.sub] returns is made of characters of the text and of the
    replacement. *)
Lemma sub_loop_keeps (P : ascii -> Prop) (r : regex) (repl : string) :
  Forall P (chars repl) ->
  forall s skip prev, Forall P (chars s) -> Forall P (chars (sub_loop r repl skip prev s)).
Proof.
  intros Hrepl. induction s as [|c s IH]; intros skip prev Hs; [done|].
  apply Forall_cons in Hs as [Hc Hs]. cbn [sub_loop].
  destruct skip as [|k]; [|by apply IH].
  destruct (match_here r prev (String c s)) as [rest|].
  - destruct (String.length (String c s) - String.length rest) as [|k].
    + constructor; [done | by apply IH].
    + rewrite chars_app. apply Forall_app. split; [done | by apply IH].
  - constructor; [done | by apply IH].
Qed.

(** Replacing the runs of a class leaves no character of the class but
    those of the replacement. *)
Lemma sub_loop_class (cls : ascii -> bool) (hi : option nat) (repl : string) :
  hi <> Some 0 ->
  forall s skip prev,
    Forall (fun c => In c (chars repl) \/ cls c = false)
      (chars (sub_loop [Rep cls 1 hi] repl skip prev s)).
Proof.
  intros Hhi. induction s as [|c s IH]; intros skip prev; [constructor|].
  cbn [sub_loop]. destruct skip as [|k]; [|by apply IH].
  destruct (cls c) eqn:Hc.
  - destruct (match_here_run cls hi prev c s Hc Hhi) as (rest & -> & _ & k & ->).
    rewrite chars_app. apply Forall_app. split; [|by apply IH].
    apply List.Forall_forall. auto.
  - rewrite match_here_miss by done. constructor; [by right | by apply IH].
Qed.

(** Where nothing matches, [re.sub] returns the text. *)
Lemma sub_loop_no_match (cls : ascii -> bool) (hi : option nat) (r : regex) (repl : string) :
  forall s prev,
    Forall (fun c => cls c = false) (chars s) ->
    sub_loop (Rep cls 1 hi :: r) repl 0 prev s = s.
Proof.
  induction s as [|c s IH]; intros prev Hs; [done|].
  apply Forall_cons in Hs as [Hc Hs]. cbn [sub_loop].
  rewrite match_here_miss by done. by rewrite IH.
Qed.

End SubFacts.

Section CleanTextFacts.

Lemma control_char_class :
  Patterns.control_char = [Re.Rep is_control 1 (Some 1)].
Proof. reflexivity. Qed.

Lemma whitespace_run_class :
  Patterns.whitespace_run = [Re.Rep Str.isspace 1 None].
Proof. reflexivity. Qed.

(** Whatever [_clean_text] returns holds no control character (no code
    point in 0..31 or 127..159) and no white space but the plain space:
    tabs, line breaks and the like have been collapsed or removed. *)
Theorem clean_text_leaves_no_control (text : option string) (s : string) :
  _clean_text text = Some s ->
  Forall (fun c => is_control c = false /\ (Str.isspace c = true -> c = " "%char)) (chars s).
Proof.
  unfold _clean_text. destruct text as [t|]; [|discriminate].
  destruct (negb (Str.truthy t)); [discriminate|].
  destruct (Str.truthy _); [|discriminate]. intros [= <-].
  set (a := Re.sub Patterns.whitespace_run " " (Str.strip t)).
  set (b := Re.sub Patterns.markup_tag "" a).
  assert (Forall (fun c => Str.isspace c = true -> c = " "%char) (chars a)) as Ha.
  { unfold a, Re.sub. rewrite whitespace_run_class.
    eapply Forall_impl; [apply SubFacts.sub_loop_class; discriminate|].
    intros c [[<- | []] | Hc] Hs; [done | congruence]. }
  assert (Forall (fun c => Str.isspace c = true -> c = " "%char) (chars b)) as Hb.
  { unfold b, Re.sub. apply SubFacts.sub_loop_keeps; [constructor | exact Ha]. }
  apply Forall_and. split.
  - unfold Re.sub. rewrite control_char_class.
    eapply Forall_impl; [apply SubFacts.sub_loop_class; discriminate|].
    by intros c [[] | Hc].
  - unfold Re.sub. apply SubFacts.sub_loop_keeps; [constructor | exact Hb].
Qed.

End CleanTextFacts.

Section TidyFacts.

Lemma tidy_from_chars (b : bool) (s : string) :
  tidy_from b s = true ->
  Forall (fun c => is_control c = false) (chars s)
  /\ Forall (fun c => Ascii.eqb "<" c = false) (chars s).
Proof.
  revert b. induction s as [|c s IH]; intros b; simpl; [by split|].
  destruct (Str.isspace c) eqn:Hs.
  - rewrite !andb_true_iff. intros [[Hc _] Ht].
    apply Ascii.eqb_eq in Hc as ->. destruct (IH _ Ht) as [H1 H2].
    split; by constructor.
  - rewrite !andb_true_iff, !negb_true_iff. intros [[Hc Hlt] Ht].
    destruct (IH _ Ht) as [H1 H2]. split; constructor; try done.
Qed.

Lemma tidy_from_rstrip (b : bool) (s : string) :
  tidy_from b s = true -> Str.rstrip s = s.
Proof.
  revert b. induction s as [|c s IH]; intros b; simpl; [done|].
  destruct (Str.isspace c) eqn:Hs.
  - rewrite !andb_true_iff. intros [_ Ht]. rewrite (IH _ Ht).
    destruct s; [discriminate | done].
  - rewrite !andb_true_iff. intros [_ Ht]. rewrite (IH _ Ht). by destruct s.
Qed.

Lemma tidy_strip (s : string) : tidy s = true -> Str.strip s = s.
Proof.
  intros Ht. unfold Str.strip.
  assert (Str.lstrip s = s) as ->; [|by apply (tidy_from_rstrip true)].
  unfold tidy in Ht. destruct s as [|c s]; [done|]. simpl in *.
  destruct (Str.isspace c); [|done]. by rewrite andb_false_r in Ht.
Qed.

Lemma tidy_from_spaces (b : bool) (s : string) (prev : option ascii) :
  tidy_from b s = true -> Re.sub_loop Patterns.whitespace_run " " 0 prev s = s.
Proof.
  revert b prev. induction s as [|c s IH]; intros b prev; [done|].
  cbn [tidy_from]. destruct (Str.isspace c) eqn:Hs.
  - rewrite !andb_true_iff. intros [[Hc _] Ht]. apply Ascii.eqb_eq in Hc as ->.
    cbn [Re.sub_loop]. rewrite whitespace_run_class.
    destruct (SubFacts.match_here_run Str.isspace None prev " " s Hs)
      as (rest & -> & -> & _); [done|].
    assert (Re.leading Str.isspace None (String " " s) = 1) as ->.
    { cbn [Re.leading]. rewrite Hs. destruct s as [|c' s]; [done|].
      cbn [tidy_from] in Ht. cbn [fmap option_fmap option_map Re.leading].
      destruct (Str.isspace c'); [|done]. by rewrite andb_false_r in Ht. }
    cbn [Str.drop String.length].
    replace (S (String.length s) - String.length s) with 1 by lia.
    rewrite <- whitespace_run_class, (IH _ _ Ht). reflexivity.
  - rewrite !andb_true_iff. intros [_ Ht].
    cbn [Re.sub_loop]. rewrite whitespace_run_class, SubFacts.match_here_miss by done.
    rewrite <- whitespace_run_class. by rewrite (IH _ _ Ht).
Qed.

(** Text that needs no cleaning comes back as it is: a text that is not
    empty, has no "<" and no control character, and whose white space is
    single plain spaces between other characters. *)
Theorem clean_text_keeps_tidy_text (s : string) :
  tidy s = true -> _clean_text (Some s) = Some s.
Proof.
  intros Ht. unfold _clean_text.
  assert (Str.truthy s = true) as Hne by (by destruct s).
  rewrite Hne. cbn [negb]. rewrite (tidy_strip s Ht). unfold Re.sub.
  rewrite (tidy_from_spaces true s None Ht).
  destruct (tidy_from_chars true s Ht) as [Hctl Htag].
  unfold Patterns.markup_tag, Re.chr. rewrite SubFacts.sub_loop_no_match by exact Htag.
  rewrite control_char_class, SubFacts.sub_loop_no_match by exact Hctl.
  by rewrite Hne.
Qed.

End TidyFacts.

Module TagFacts.
Import Re.

Lemma markup_tag_atoms :
  Patterns.markup_tag
  = [Rep (Ascii.eqb "<") 1 (Some 1); Rep not_close 1 None; Rep (Ascii.eqb ">") 1 (Some 1)].
Proof. reflexivity. Qed.

Lemma match_close (prev : option ascii) (s : string) :
  match_here [Rep (Ascii.eqb ">") 1 (Some 1)] prev s
  = if closes s then Some (Str.drop 1 s) else None.
Proof.
  destruct s as [|c s]; [done|]. cbn [match_here closes].
  destruct (Ascii.eqb ">" c) eqn:Hc.
  - cbn [leading]. rewrite Hc. by destruct s.
  - cbn [leading]. by rewrite Hc.
Qed.

Lemma leading_all (cls : ascii -> bool) (s : string) (m : nat) :
  m < leading cls None s ->
  exists c t, Str.drop m s = String c t /\ cls c = true.
Proof.
  revert s. induction m as [|m IH]; intros [|c s]; simpl; try lia.
  - destruct (cls c) eqn:Hc; [|lia]. intros _. by exists c, s.
  - destruct (cls c); [|lia]. intros H. apply IH. lia.
Qed.

Lemma leading_stop (cls : ascii -> bool) (s : string) :
  match Str.drop (leading cls None s) s with
  | String c _ => cls c = false
  | EmptyString => True
  end.
Proof.
  induction s as [|c s IH]; simpl; [done|].
  destruct (cls c) eqn:Hc; simpl; [exact IH | exact Hc].
Qed.

Lemma not_close_closes (s : string) (c : ascii) (t : string) :
  s = String c t -> not_close c = true -> closes s = false.
Proof.
  intros -> H. unfold not_close in H. apply negb_true_iff in H.
  cbn [closes]. by rewrite Ascii.eqb_sym.
Qed.

Lemma drop_drop_1 (m : nat) (s : string) : Str.drop 1 (Str.drop m s) = Str.drop (S m) s.
Proof.
  revert s. induction m as [|m IH]; intros [|c s]; try done.
  cbn [Str.drop] in *. apply IH.
Qed.

(** Giving back characters of the run never helps: the character after
    a shorter run is one of the run, not ">". *)
Lemma backtrack_run (prev : option ascii) (s : string) (n : nat) :
  n <= leading not_close None s ->
  backtrack (fun p t => match_here [Rep (Ascii.eqb ">") 1 (Some 1)] p t) n 1 prev s
  = if Nat.leb 1 n && closes (Str.drop n s) then Some (Str.drop (S n) s) else None.
Proof.
  induction n as [|n IH]; intros Hn; [done|].
  cbn [backtrack Nat.ltb Nat.leb andb]. rewrite match_close.
  destruct (closes (Str.drop (S n) s)) eqn:Hc.
  - by rewrite drop_drop_1.
  - rewrite IH by lia.
    destruct (leading_all not_close s n) as (c & t & Hd & Hcls); [lia|].
    rewrite (not_close_closes _ c t Hd Hcls). by rewrite andb_false_r.
Qed.

Lemma match_here_rep (cls : ascii -> bool) (lo : nat) (hi : option nat) (r : regex)
    (prev : option ascii) (s : string) :
  match_here (Rep cls lo hi :: r) prev s
  = backtrack (fun p s' => match_here r p s') (leading cls hi s) lo prev s.
Proof. reflexivity. Qed.

Lemma leading_none (cls : ascii -> bool) (s : string) : leading cls (Some 0) s = 0.
Proof. by destruct s. Qed.

(** A pattern that begins with one given character, at that character. *)
Lemma match_here_chr (a : ascii) (r : regex) (prev : option ascii) (s : string) :
  match_here (Rep (Ascii.eqb a) 1 (Some 1) :: r) prev (String a s)
  = match_here r (Some a) s.
Proof.
  rewrite match_here_rep. cbn [leading]. rewrite Ascii.eqb_refl.
  cbn [fmap option_fmap option_map pred]. rewrite leading_none.
  cbn [backtrack Nat.ltb Nat.leb before Str.drop].
  by destruct (match_here r (Some a) s).
Qed.

(** Where the tag pattern matches at a "<". *)
Lemma match_tag (prev : option ascii) (s : string) :
  match_here Patterns.markup_tag prev (String "<" s)
  = if Nat.leb 1 (leading not_close None s) && closes (Str.drop (leading not_close None s) s)
    then Some (Str.drop (S (leading not_close None s)) s) else None.
Proof.
  rewrite markup_tag_atoms, match_here_chr, match_here_rep.
  by rewrite backtrack_run.
Qed.

Lemma match_tag_other (prev : option ascii) (c : ascii) (s : string) :
  Ascii.eqb "<" c = false -> match_here Patterns.markup_tag prev (String c s) = None.
Proof. intros H. rewrite markup_tag_atoms. by apply SubFacts.match_here_miss. Qed.

Lemma has_close_drop (s : string) (n : nat) :
  has_close s = false -> has_close (Str.drop n s) = false.
Proof.
  revert s. induction n as [|n IH]; intros [|c s]; cbn [Str.drop has_close]; try done.
  intros H. apply orb_false_iff in H as [_ H]. by apply IH.
Qed.

Lemma closes_has_close (s : string) : closes s = true -> has_close s = true.
Proof. destruct s as [|c s]; cbn [closes has_close]; [done|]. by intros ->. Qed.

(** A run of characters other than ">" that is not followed by ">"
    goes to the end of the text. *)
Lemma run_to_end (s : string) :
  closes (Str.drop (leading not_close None s) s) = false -> has_close s = false.
Proof.
  induction s as [|c s IH]; [done|].
  cbn [leading has_close].
  assert (not_close c = negb (Ascii.eqb ">" c)) as ->
    by (unfold not_close; by rewrite Ascii.eqb_sym).
  destruct (Ascii.eqb ">" c) eqn:Hc; cbn [negb Str.drop closes orb].
  - by rewrite Hc.
  - exact IH.
Qed.

Lemma tagless_no_match (s : string) (prev : option ascii) :
  tagless s = true -> search_from Patterns.markup_tag prev s = None.
Proof.
  revert prev. induction s as [|c s IH]; intros prev; [done|].
  cbn [tagless search_from]. rewrite andb_true_iff. intros [Hc Ht].
  destruct (Ascii.eqb "<" c) eqn:E.
  - apply Ascii.eqb_eq in E as <-. rewrite match_tag.
    assert (Nat.leb 1 (leading not_close None s)
            && closes (Str.drop (leading not_close None s) s) = false) as ->;
      [|by apply IH].
    apply orb_true_iff in Hc as [Hc | Hc].
    + destruct s as [|c' s]; [done|]. cbn [closes] in Hc. cbn [leading].
      unfold not_close. by rewrite (Ascii.eqb_sym c' ">"), Hc.
    + apply negb_true_iff in Hc. apply andb_false_iff. right.
      destruct (closes _) eqn:Hcl; [|done].
      apply closes_has_close in Hcl. by rewrite has_close_drop in Hcl.
  - rewrite match_tag_other by done. by apply IH.
Qed.

Lemma has_close_chars (s : string) :
  has_close s = false <-> Forall (fun c => Ascii.eqb ">" c = false) (chars s).
Proof.
  induction s as [|c s IH]; [split; [constructor | done]|].
  cbn [has_close chars list_ascii_of_string].
  rewrite orb_false_iff, IH, Forall_cons. done.
Qed.

(** Removing the tags leaves none. *)
Lemma sub_tag_tagless (s : string) (skip : nat) (prev : option ascii) :
  tagless (sub_loop Patterns.markup_tag "" skip prev s) = true.
Proof.
  revert skip prev. induction s as [|c s IH]; intros skip prev; [done|].
  cbn [sub_loop]. destruct skip as [|k]; [|by apply IH].
  destruct (Ascii.eqb "<" c) eqn:E.
  - apply Ascii.eqb_eq in E as <-. rewrite match_tag.
    destruct (Nat.leb 1 (leading not_close None s)) eqn:Hn;
      [destruct (closes (Str.drop (leading not_close None s) s)) eqn:Hcl|]; cbn [andb].
    + destruct (String.length (String "<" s) - _) as [|k] eqn:Hlen; [|by apply IH].
      exfalso.
      pose proof (SubFacts.str_drop_length (S (leading not_close None s)) s) as Hl.
      cbn [String.length] in Hlen. lia.
    + cbn [tagless Ascii.eqb Bool.eqb]. rewrite IH, andb_true_r.
      apply orb_true_iff. right. apply negb_true_iff, has_close_chars.
      apply SubFacts.sub_loop_keeps; [constructor|].
      by apply has_close_chars, run_to_end.
    + cbn [tagless Ascii.eqb Bool.eqb]. rewrite IH, andb_true_r.
      apply leb_complete_conv in Hn.
      destruct s as [|c' s]; [done|]. cbn [leading] in Hn.
      destruct (not_close c') eqn:Hc'; [lia|].
      unfold not_close in Hc'. apply negb_false_iff, Ascii.eqb_eq in Hc' as ->.
      cbn [sub_loop]. rewrite match_tag_other by done. done.
  - rewrite match_tag_other by done. cbn [tagless]. by rewrite E, IH.
Qed.

End TagFacts.

Module WithoutFacts.
Import Re.

(** Replacing each character of a class by nothing removes them. *)
Lemma sub_one_without (cls : ascii -> bool) (s : string) (prev : option ascii) :
  sub_loop [Rep cls 1 (Some 1)] "" 0 prev s = without cls s.
Proof.
  revert prev. induction s as [|c s IH]; intros prev; [done|].
  cbn [sub_loop without]. destruct (cls c) eqn:Hc.
  - destruct (SubFacts.match_here_run cls (Some 1) prev c s Hc) as (rest & -> & -> & _);
      [done|].
    cbn [leading]. rewrite Hc. cbn [fmap option_fmap option_map pred].
    rewrite TagFacts.leading_none. cbn [Str.drop String.length].
    replace (S (String.length s) - String.length s) with 1 by lia.
    rewrite IH. reflexivity.
  - rewrite SubFacts.match_here_miss by done. by rewrite IH.
Qed.

Lemma without_closes (cls : ascii -> bool) (s : string) :
  cls ">"%char = false -> closes s = true -> closes (without cls s) = true.
Proof.
  intros Hgt. destruct s as [|c s]; [done|]. cbn [closes without].
  intros Hc. apply Ascii.eqb_eq in Hc as <-. rewrite Hgt. cbn [closes].
  apply Ascii.eqb_refl.
Qed.

Lemma without_has_close (cls : ascii -> bool) (s : string) :
  has_close s = false -> has_close (without cls s) = false.
Proof.
  induction s as [|c s IH]; [done|]. cbn [has_close without].
  intros H. apply orb_false_iff in H as [Hc H].
  destruct (cls c); [by apply IH|]. cbn [has_close]. by rewrite Hc, IH.
Qed.

Lemma without_tagless (cls : ascii -> bool) (s : string) :
  cls "<"%char = false -> cls ">"%char = false ->
  tagless s = true -> tagless (without cls s) = true.
Proof.
  intros Hlt Hgt. induction s as [|c s IH]; [done|]. cbn [tagless without].
  rewrite andb_true_iff. intros [Hc Ht].
  destruct (Ascii.eqb "<" c) eqn:E.
  - apply Ascii.eqb_eq in E as <-. rewrite Hlt. cbn [tagless].
    rewrite Ascii.eqb_refl, (IH Ht), andb_true_r.
    apply orb_true_iff in Hc as [Hc | Hc]; apply orb_true_iff.
    + left. by apply without_closes.
    + right. apply negb_true_iff in Hc. apply negb_true_iff. by apply without_has_close.
  - destruct (cls c); [by apply IH|]. cbn [tagless]. by rewrite E, IH.
Qed.

End WithoutFacts.

(** Whatever [_clean_text] returns holds no markup tag: the pattern
    [<[^>]+>] matches nowhere in it.  Removing the control characters
    after the tags cannot bring a tag back. *)
Theorem clean_text_leaves_no_tag (text : option string) (s : string) :
  _clean_text text = Some s -> Re.search Patterns.markup_tag s = None.
Proof.
  unfold _clean_text. destruct text as [t|]; [|discriminate].
  destruct (negb (Str.truthy t)); [discriminate|].
  destruct (Str.truthy _); [|discriminate]. intros [= <-].
  unfold Re.search, Re.sub at 1. rewrite control_char_class, WithoutFacts.sub_one_without.
  apply TagFacts.tagless_no_match, WithoutFacts.without_tagless; [done | done |].
  apply TagFacts.sub_tag_tagless.
Qed.


(** ** More on the run loop *)

Section RunFacts.

Variable dateutil_parse : string -> option date.
Variable today : date.
Variable urljoin : string -> string -> result string.

Local Abbreviation body' := (process_job_body dateutil_parse today urljoin).
Local Abbreviation step' := (scrape_step dateutil_parse today urljoin).
Local Abbreviation scrape' := (scrape_jobs dateutil_parse today urljoin).
Local Abbreviation record := (yielded dateutil_parse today urljoin).

(** The body counts an item as categorized at most once, and always
    when the item yields a record. *)
Lemma body_categorized (self : BaseScraper) (raw : raw_job) :
  exists k,
    jobs_categorized (fst (body' self raw)) = jobs_categorized (stats_ self) + k
    /\ List.length (option_list (record self raw)) <= k <= 1.
Proof.
  unfold yielded, process_job_body.
  repeat case_match; simpl in *; try discriminate;
    first [ exists 0; simpl; split; [lia | lia] | exists 1; simpl; split; [lia | lia] ].
Qed.

Lemma step_categorized (self : BaseScraper) (jobs : list Job) (delays : list Q)
    (raw : raw_job) :
  exists k,
    jobs_categorized (stats_ (fst (fst (step' (self, jobs, delays) raw))))
    = jobs_categorized (stats_ self) + k
    /\ List.length (option_list (record self raw)) <= k <= 1.
Proof.
  destruct (body_categorized self raw) as (k & Hk & Hb). exists k. split; [|done].
  unfold scrape_step, _process_job_data.
  destruct (body' self raw) as [st [e|[job|]]]; simpl in *; done.
Qed.

Lemma loop_categorized (raw_jobs : list raw_job) (self : BaseScraper)
    (jobs : list Job) (delays : list Q) :
  exists k,
    jobs_categorized (stats_ (fst (fst (fold_left step' raw_jobs (self, jobs, delays)))))
    = jobs_categorized (stats_ self) + k
    /\ List.length (omap (record self) raw_jobs) <= k <= List.length raw_jobs.
Proof.
  revert self jobs delays.
  induction raw_jobs as [|raw raws IH]; intros self jobs delays.
  - exists 0. simpl. split; [lia|]. unfold omap. simpl. lia.
  - cbn [fold_left].
    destruct (step_categorized self jobs delays raw) as (k1 & Hk1 & Hb1).
    destruct (step_spec dateutil_parse today urljoin self jobs delays raw)
      as (s1 & Es & Hc & _).
    rewrite Es in *. cbn [fst] in Hk1.
    destruct (IH s1 (jobs ++ option_list (record self raw)) (delays ++ pauses self 1))
      as (k2 & Hk2 & Hb2).
    exists (k1 + k2). split; [lia|].
    assert (omap (record s1) raws = omap (record self) raws) as Hy.
    { clear -Hc. unfold omap. induction raws as [|x xs IHx]; [done|]. simpl.
      by rewrite (yielded_same_config dateutil_parse today urljoin self s1 x Hc), IHx. }
    rewrite Hy in Hb2. unfold omap in *. simpl.
    destruct (record self raw); simpl in *; lia.
Qed.

Lemma pauses_length (self : BaseScraper) (n : nat) :
  List.length (pauses self n) = if Qgtb (rate_limit self) 0 then n else 0.
Proof. unfold pauses. destruct (Qgtb _ _); [apply repeat_length | done]. Qed.

(** The statistics of one run.  On the listings the extraction stage
    returned, [scrape_jobs] sets [jobs_found] to their number, adds the
    number of records it returns to [jobs_processed], adds to
    [jobs_categorized] a number between the two, leaves the error list
    alone, and sleeps once per listing, [1 / rate_limit] each time, when
    the rate limit is positive, and not at all otherwise.  When navigation
    or extraction raises, it returns no record, sleeps nothing, appends
    one message to the error list and leaves the three counters,
    [jobs_found] too, as they were. *)
Theorem scrape_jobs_counters (self : BaseScraper) (raw_jobs : list raw_job) :
  (exists self' jobs delays categorized,
     scrape' self (inr raw_jobs) = (self', jobs, delays)
     /\ jobs_found (stats_ self') = List.length raw_jobs
     /\ jobs_processed (stats_ self') = jobs_processed (stats_ self) + List.length jobs
     /\ jobs_categorized (stats_ self') = jobs_categorized (stats_ self) + categorized
     /\ List.length jobs <= categorized <= List.length raw_jobs
     /\ errors (stats_ self') = errors (stats_ self)
     /\ List.length delays = (if Qgtb (rate_limit self) 0 then List.length raw_jobs else 0)
     /\ Forall (fun d => d = (1 / rate_limit self)%Q) delays)
  /\ forall e, exists self' message,
       scrape' self (inl e) = (self', [], [])
       /\ errors (stats_ self') = errors (stats_ self) ++ [message]
       /\ jobs_found (stats_ self') = jobs_found (stats_ self)
       /\ jobs_processed (stats_ self') = jobs_processed (stats_ self)
       /\ jobs_categorized (stats_ self') = jobs_categorized (stats_ self).
Proof.
  split.
  - destruct (scrape_spec dateutil_parse today urljoin self raw_jobs)
      as (self' & Hs & He & Hf & Hp).
    destruct (loop_categorized raw_jobs self [] []) as (k & Hk & Hb).
    exists self', (omap (record self) raw_jobs), (pauses self (List.length raw_jobs)), k.
    split_and!; try done.
    + unfold scrape_jobs in Hs.
      destruct (fold_left step' raw_jobs (self, [], [])) as [[s1 j1] d1].
      injection Hs as <- _ _. exact Hk.
    + lia.
    + lia.
    + apply pauses_length.
    + unfold pauses. destruct (Qgtb _ _); [|constructor].
      apply Forall_forall. intros d Hd. apply list_elem_of_In in Hd.
      by apply repeat_spec in Hd.
  - intros e. eexists _, (exn_str e). simpl. by split_and!.
Qed.

Lemma scrape_same_config (self : BaseScraper) (raw_jobs : list raw_job) :
  same_config self (fst (fst (scrape' self (inr raw_jobs)))).
Proof.
  unfold scrape_jobs.
  destruct (loop_spec dateutil_parse today urljoin raw_jobs self [] [])
    as (s1 & -> & Hc & _).
  simpl. by apply same_config_set_stats.
Qed.

(** A scraper can run again.  The records and the delays of a run do
    not depend on the runs before it; [jobs_processed] adds up over the
    runs, while [jobs_found] is the number of listings of the last run
    only. *)
Theorem scrape_jobs_runs_accumulate (self : BaseScraper) (first second : list raw_job) :
  exists self1 jobs1 delays1 self2 jobs2 delays2,
    scrape' self (inr first) = (self1, jobs1, delays1)
    /\ scrape' self1 (inr second) = (self2, jobs2, delays2)
    /\ jobs2 = snd (fst (scrape' self (inr second)))
    /\ delays2 = snd (scrape' self (inr second))
    /\ jobs_found (stats_ self2) = List.length second
    /\ jobs_processed (stats_ self2)
       = jobs_processed (stats_ self) + List.length jobs1 + List.length jobs2.
Proof.
  pose proof (scrape_same_config self first) as Hc.
  destruct (scrape_spec dateutil_parse today urljoin self first)
    as (self1 & Hs1 & _ & _ & Hp1).
  rewrite Hs1 in Hc. cbn [fst] in Hc.
  destruct (scrape_spec dateutil_parse today urljoin self1 second)
    as (self2 & Hs2 & _ & Hf2 & Hp2).
  destruct (scrape_spec dateutil_parse today urljoin self second)
    as (self3 & Hs3 & _).
  assert (omap (record self1) second = omap (record self) second) as Hy.
  { clear -Hc. unfold omap. induction second as [|x xs IHx]; [done|]. simpl.
    by rewrite (yielded_same_config dateutil_parse today urljoin self self1 x Hc), IHx. }
  rewrite Hy in *. rewrite (pauses_same_config self self1) in Hs2 by exact Hc.
  eexists _, _, _, _, _, _. split; [exact Hs1|]. split; [exact Hs2|].
  rewrite Hs3. cbn [fst snd]. split_and!; try done. lia.
Qed.

(** What a record holds.  Its title, description and location are the
    cleaned fields of the listing, none of them empty; its department and
    posted date are the cleaned department and the parsed date; its URL is
    the URL of the listing, resolved against the careers page when it is
    not empty and does not begin with "http", and the empty string when
    the listing has none; its identifier is empty, its company is the
    scraper's, its category the categorizer's, and its job type, which is
    never [TEMPORARY], experience level and workplace type are those of
    the three cascades. *)
Theorem record_fields (self : BaseScraper) (raw : raw_job) (job : Job) :
  record self raw = Some job ->
  _clean_text (raw_get raw "title" (Some "")) = Some (job_title job)
  /\ _clean_text (raw_get raw "description" (Some "")) = Some (job_description job)
  /\ _clean_text (raw_get raw "location" (Some "")) = Some (job_location job)
  /\ job_department job = _clean_text (raw_get raw "department" None)
  /\ job_posted_date job = _parse_date dateutil_parse today (raw_get raw "posted_date" None)
  /\ absolute_url urljoin self (raw_get raw "url" (Some "")) = inr (job_url job)
  /\ job_company job = company_name self
  /\ job_id job = ""
  /\ (exists categorization,
        Categorizer.categorize_job (categorizer self) (job_title job) (job_description job)
          (job_department job) = inr categorization
        /\ job_category job = category categorization)
  /\ _determine_job_type (job_title job) (job_description job) = inr (job_type job)
  /\ _determine_experience_level (job_title job) (job_description job)
     = inr (job_experience_level job)
  /\ _determine_workplace_type (job_location job) (job_description job)
     = inr (job_workplace_type job)
  /\ job_title job <> "" /\ job_description job <> "" /\ job_location job <> ""
  /\ job_type job <> TEMPORARY.
Proof.
  unfold yielded, process_job_body.
  destruct (_clean_text (raw_get raw "title" (Some ""))) as [title|] eqn:Et; [|done].
  destruct (_clean_text (raw_get raw "description" (Some ""))) as [description|] eqn:Ed;
    [|done].
  destruct (_clean_text (raw_get raw "location" (Some ""))) as [location|] eqn:El; [|done].
  destruct (negb (Str.truthy title) || negb (Str.truthy description)
            || negb (Str.truthy location)); [done|].
  destruct (absolute_url urljoin self (raw_get raw "url" (Some ""))) as [e|url]; [done|].
  destruct (Categorizer.categorize_job (categorizer self) title description
              (_clean_text (raw_get raw "department" None))) as [e|categorization] eqn:Ec;
    [done|].
  cbn [snd]. unfold bind.
  destruct (_determine_job_type title description) as [e|jt] eqn:Ejt; [done|].
  destruct (_determine_experience_level title description) as [e|el] eqn:Eel; [done|].
  destruct (_determine_workplace_type location description) as [e|wt] eqn:Ewt; [done|].
  intros [= <-]. cbn. split_and!; try done.
  - by exists categorization.
  - by apply (clean_text_nonempty _ _ Et).
  - by apply (clean_text_nonempty _ _ Ed).
  - by apply (clean_text_nonempty _ _ El).
  - intros ->. by apply (determine_job_type_not_temporary title description).
Qed.

End RunFacts.

(** ** More on the factory *)

Lemma copy_list_grows (fuel : nat) :
  (forall h v h' v', Heap.deepcopy_fuel fuel h v = Some (h', v') -> h ⊆ h') ->
  forall vs h h' vs', copy_list fuel vs h = Some (h', vs') -> h ⊆ h'.
Proof.
  intros IH. induction vs as [|v vs IHvs]; intros h h' vs'.
  - by intros [= <- <-].
  - rewrite copy_list_cons.
    destruct (Heap.deepcopy_fuel fuel h v) as [[h1 v1]|] eqn:E1; [|discriminate].
    destruct (copy_list fuel vs h1) as [[h2 vs2]|] eqn:E2; [|discriminate].
    intros [= <- <-]. etrans; [by eapply IH | by eapply IHvs].
Qed.

Lemma copy_items_grows (fuel : nat) :
  (forall h v h' v', Heap.deepcopy_fuel fuel h v = Some (h', v') -> h ⊆ h') ->
  forall items h h' items', copy_items fuel items h = Some (h', items') -> h ⊆ h'.
Proof.
  intros IH. induction items as [|[k v] items IHi]; intros h h' items'.
  - by intros [= <- <-].
  - rewrite copy_items_cons.
    destruct (Heap.deepcopy_fuel fuel h v) as [[h1 v1]|] eqn:E1; [|discriminate].
    destruct (copy_items fuel items h1) as [[h2 items2]|] eqn:E2; [|discriminate].
    intros [= <- <-]. etrans; [by eapply IH | by eapply IHi].
Qed.

(** [deepcopy] allocates and changes no object that is there. *)
Lemma deepcopy_fuel_grows (fuel : nat) (h : heap) (v : val) (h' : heap) (v' : val) :
  Heap.deepcopy_fuel fuel h v = Some (h', v') -> h ⊆ h'.
Proof.
  revert h v h' v'. induction fuel as [|fuel IH]; intros h v h' v'; [discriminate|].
  rewrite deepcopy_fuel_S. destruct v as [| | | |l]; try (by intros [= <- <-]).
  destruct (h !! l) as [[items|vs]|]; [| |discriminate].
  - destruct (copy_items fuel items h) as [[h1 items1]|] eqn:E; [|discriminate].
    destruct (Heap.alloc h1 (ODict items1)) as [h2 v2] eqn:Ea. intros [= <- <-].
    apply alloc_spec in Ea as (l2 & _ & _ & _ & Hs).
    etrans; [by eapply copy_items_grows | exact Hs].
  - destruct (copy_list fuel vs h) as [[h1 vs1]|] eqn:E; [|discriminate].
    destruct (Heap.alloc h1 (OList vs1)) as [h2 v2] eqn:Ea. intros [= <- <-].
    apply alloc_spec in Ea as (l2 & _ & _ & _ & Hs).
    etrans; [by eapply copy_list_grows | exact Hs].
Qed.

Lemma deepcopy_grows (h : heap) (v : val) (h' : heap) (v' : val) :
  Heap.deepcopy h v = Some (h', v') -> h ⊆ h'.
Proof. apply deepcopy_fuel_grows. Qed.

Lemma configured_keys (st : state) :
  fst (available_companies true st) = map fst (_company_configs (factory st)).
Proof. unfold available_companies. by rewrite available_all. Qed.

Lemma configured_get (st : state) (k : string) :
  In k (fst (available_companies true st))
  <-> is_Some (Dict.get k (_company_configs (factory st))).
Proof.
  rewrite configured_keys, <- BestFacts.mem_In_keys. unfold Dict.mem.
  destruct (Dict.get k _) as [v|]; split; done.
Qed.

Lemma fold_set_lower_keys {V} (items d : Dict.t V) :
  Forall (fun k => Str.lower k = k) (map fst d) -> List.NoDup (map fst d) ->
  Forall (fun k => Str.lower k = k)
    (map fst (fold_left (fun d '(key, value) => Dict.set (Str.lower key) value d) items d))
  /\ List.NoDup
       (map fst (fold_left (fun d '(key, value) => Dict.set (Str.lower key) value d) items d)).
Proof.
  revert d. induction items as [|[k v] items IH]; intros d Hl Hnd; [done|].
  cbn [fold_left]. apply IH.
  - rewrite BestFacts.set_keys. destruct (Dict.mem (Str.lower k) d); [done|].
    apply Forall_app. split; [done|]. constructor; [apply lower_idem | constructor].
  - by apply BestFacts.set_keys_NoDup.
Qed.

Lemma loaded_companies_keys (raw_config : json) :
  Forall (fun k => Str.lower k = k) (map fst (loaded_companies raw_config))
  /\ List.NoDup (map fst (loaded_companies raw_config)).
Proof.
  unfold loaded_companies.
  destruct raw_config as [| | | | |kvs]; try (split; constructor).
  destruct (Dict.get "companies" kvs) as [[| | | | |cs]|]; try (split; constructor).
  apply fold_set_lower_keys; constructor.
Qed.

Lemma all2_keys {V W} (R : V -> W -> Prop) (d1 : Dict.t V) (d2 : Dict.t W) :
  all2 (keyed R) d1 d2 -> map fst d2 = map fst d1.
Proof.
  revert d2. induction d1 as [|[k x] d1 IH]; intros [|[k' y] d2]; simpl; try done.
  intros [[Hk _] Hrest]. simpl in Hk. subst k'. f_equal. by apply IH.
Qed.

Lemma dict_items_dict (P : loc -> Prop) (h : heap) (kvs : Dict.t json) (v : val) :
  repr_in P h (JDict kvs) v -> exists items, Heap.dict_items h v = inr items.
Proof. intros (l & items & -> & _ & Hlook & _). simpl. rewrite Hlook. by eexists. Qed.

Lemma dict_items_other (P : loc -> Prop) (h : heap) (j : json) (v : val) :
  repr_in P h j v -> ~ is_dict j ->
  Heap.dict_items h v = inl (AttributeError "object has no attribute 'items'").
Proof.
  destruct j as [| | | | js | kvs]; simpl; try (by intros ->).
  - intros (l & vs & -> & _ & Hlook & _) _. simpl. by rewrite Hlook.
  - intros _ H. by destruct H.
Qed.

Lemma dict_lookup_other (P : loc -> Prop) (h : heap) (j : json) (v : val) (key : string) :
  repr_in P h j v -> ~ is_dict j ->
  Heap.dict_lookup h v key = inl (AttributeError "object has no attribute 'get'").
Proof.
  destruct j as [| | | | js | kvs]; simpl; try (by intros ->).
  - intros (l & vs & -> & _ & Hlook & _) _. simpl. by rewrite Hlook.
  - intros _ H. by destruct H.
Qed.

(** Which documents [__init__] accepts: exactly the objects whose
    [companies] entry, if present, is an object; for any other document it
    raises [AttributeError].  A new factory has an empty registry and has
    imported nothing. *)
Theorem init_reads_objects_only (raw_config : json) :
  match __init__ raw_config with
  | inr st =>
      readable raw_config
      /\ registered_companies st = ∅
      /\ imports st = []
  | inl e => ~ readable raw_config /\ exists msg, e = AttributeError msg
  end.
Proof.
  unfold __init__. destruct (Heap.load raw_config ∅) as [h raw] eqn:El.
  apply load_spec in El as [_ Hraw].
  destruct raw_config as [| b | q | s | js | kvs];
    try (rewrite (dict_lookup_other _ _ _ _ "companies" Hraw) by (simpl; tauto);
         cbn [bind]; split; [simpl; tauto | by eexists]).
  destruct (dict_lookup_repr _ _ _ _ "companies" Hraw) as (found & -> & Hm). cbn [bind].
  destruct (dict_items_dict _ _ _ _ Hraw) as [raw_items Hitems].
  unfold readable.
  destruct (Dict.get "companies" kvs) as [jc|], found as [vc|]; try done.
  - destruct jc as [| b | q | s | js | cs];
      try (rewrite (dict_items_other _ _ _ _ Hm) by (simpl; tauto);
           cbn [bind]; split; [tauto | by eexists]).
    destruct (dict_items_dict _ _ _ _ Hm) as [items ->]. cbn [bind].
    rewrite Hitems. cbn [bind]. unfold Heap.alloc. simpl. by split_and!.
  - cbn [bind ret]. rewrite Hitems. cbn [bind]. unfold Heap.alloc. simpl. by split_and!.
Qed.

Section FactoryBehaviour.

Variable importable : string -> option (Dict.t pyattr).

Lemma get_company_config_frame (company_key : string) (st st' : state) (r : result val) :
  get_company_config company_key st = (st', r) ->
  factory st' = factory st /\ imports st' = imports st /\ objects st ⊆ objects st'
  /\ (forall v, r = inr v ->
        is_Some (Dict.get (Str.lower company_key) (_company_configs (factory st)))).
Proof.
  unfold get_company_config.
  destruct (Dict.get _ _) as [config|]; [|intros [= <- <-]; split_and!; done].
  destruct (Heap.deepcopy (objects st) config) as [[h copy]|] eqn:E.
  - intros [= <- <-]. split_and!; try done. by eapply deepcopy_grows.
  - intros [= <- <-]. split_and!; done.
Qed.

(** What resolving a class can change: the registry gains the class it
    returns, under the key it was asked for, and at most one module is
    imported, none when the key was registered. *)
Lemma get_scraper_class_effect (company_key : string) (config : val) (st st' : state)
    (r : result string) :
  _get_scraper_class importable company_key config st = (st', r) ->
  (imports st' = imports st \/ exists module_path, imports st' = imports st ++ [module_path])
  /\ (is_Some (_registry (factory st) !! company_key) -> imports st' = imports st)
  /\ match r with
     | inl _ => _registry (factory st') = _registry (factory st)
     | inr cls => _registry (factory st') = <[company_key := cls]> (_registry (factory st))
     end.
Proof.
  unfold _get_scraper_class.
  destruct (_registry (factory st) !! company_key) as [cls|] eqn:Er.
  - intros [= <- <-]. split_and!; [by left | done | simpl; by rewrite insert_id].
  - repeat case_match; intros [= <- <-]; simpl;
      (split_and!; [first [by left | right; by eexists] | by intros [? ?] | done]).
Qed.

Lemma create_scraper_effect (st : state) (companies : Dict.t json) (glob : json)
    (company_key : string) :
  factory_ok st companies glob ->
  let '(st', r) := create_scraper importable company_key st in
  _company_configs (factory st') = _company_configs (factory st)
  /\ _global_config (factory st') = _global_config (factory st)
  /\ objects st ⊆ objects st'
  /\ factory_ok st' companies glob
  /\ (imports st' = imports st \/ exists module_path, imports st' = imports st ++ [module_path])
  /\ (is_Some (_registry (factory st) !! Str.lower company_key) -> imports st' = imports st)
  /\ match r with
     | inl _ => _registry (factory st') = _registry (factory st)
     | inr call =>
         _registry (factory st')
         = <[Str.lower company_key := call_class call]> (_registry (factory st))
     end.
Proof.
  intros Hok.
  assert (forall st', _company_configs (factory st') = _company_configs (factory st)
            /\ _global_config (factory st') = _global_config (factory st)
            /\ objects st ⊆ objects st' ->
          _company_configs (factory st') = _company_configs (factory st)
          /\ _global_config (factory st') = _global_config (factory st)
          /\ objects st ⊆ objects st'
          /\ factory_ok st' companies glob) as Hframe.
  { intros st' (Hc & Hg & Ho). split_and!; try done. by apply (factory_ok_mono st). }
  unfold create_scraper.
  destruct (get_company_config (Str.lower company_key) st) as [st1 r1] eqn:E1.
  apply get_company_config_frame in E1 as (Hf1 & Hi1 & Ho1 & _).
  assert (_company_configs (factory st1) = _company_configs (factory st)
          /\ _global_config (factory st1) = _global_config (factory st)
          /\ objects st ⊆ objects st1) as H1 by (by rewrite Hf1).
  apply Hframe in H1 as (Hc1 & Hg1 & _ & Hok1).
  destruct r1 as [e|company_config].
  { rewrite Hi1, Hf1. split_and!; try done. by left. }
  destruct (Heap.dict_get (objects st1) company_config "enabled" (VBool true)) as [e|enabled].
  { rewrite Hi1, Hf1. split_and!; try done. by left. }
  destruct (negb (Heap.truthy (objects st1) enabled)).
  { rewrite Hi1, Hf1. split_and!; try done. by left. }
  destruct (_get_scraper_class importable (Str.lower company_key) company_config st1)
    as [st2 r2] eqn:E2.
  pose proof (get_scraper_class_frame importable _ _ _ _ _ E2) as (Ho2 & Hc2 & Hg2).
  apply get_scraper_class_effect in E2 as (Hi2 & Hr2 & Hreg).
  rewrite Hf1, Hi1 in *.
  assert (_company_configs (factory st2) = _company_configs (factory st)
          /\ _global_config (factory st2) = _global_config (factory st)
          /\ objects st ⊆ objects st2) as H2 by (by rewrite Ho2).
  apply Hframe in H2 as (_ & _ & Hs2 & Hok2).
  destruct r2 as [e|cls]; [split_and!; done|].
  destruct Hok2 as [_ Hglob].
  destruct (deepcopy_spec _ _ _ _ Hglob) as (h & gc & -> & Hs & _).
  cbn [call_class].
  assert (_company_configs (factory (set_objects st2 h)) = _company_configs (factory st)
          /\ _global_config (factory (set_objects st2 h)) = _global_config (factory st)
          /\ objects st ⊆ objects (set_objects st2 h)) as H3.
  { simpl. split_and!; [done | done | by etrans]. }
  apply Hframe in H3 as (? & ? & ? & ?). split_and!; done.
Qed.


Lemma registry_ok_insert (st : state) (k cls : string) :
  registry_ok st -> In k (fst (available_companies true st)) ->
  registry_ok (set_registry st (<[k := cls]> (_registry (factory st)))).
Proof.
  intros Hok Hk k'. unfold registered_companies. simpl.
  rewrite dom_insert, elem_of_union, elem_of_singleton.
  intros [-> | Hin]; [exact Hk | by apply Hok].
Qed.

Lemma registry_ok_frame (st st' : state) :
  _registry (factory st') = _registry (factory st) ->
  _company_configs (factory st') = _company_configs (factory st) ->
  registry_ok st -> registry_ok st'.
Proof.
  intros Hr Hc Hok k. unfold registered_companies. rewrite Hr, configured_keys, Hc.
  rewrite <- configured_keys. apply Hok.
Qed.

(** The registry stays within the configuration: every registered
    company is a configured one.  This holds of a new factory, and
    [register_scraper], [get_company_config] and [create_scraper] keep
    it, whether they return or raise. *)
Theorem registry_within_configuration :
  (forall raw_config st, __init__ raw_config = inr st -> registry_ok st)
  /\ (forall company_key scraper_cls st,
        registry_ok st -> registry_ok (fst (register_scraper company_key scraper_cls st)))
  /\ (forall company_key st,
        registry_ok st -> registry_ok (fst (get_company_config company_key st)))
  /\ (forall company_key st,
        registry_ok st -> registry_ok (fst (create_scraper importable company_key st))).
Proof.
  split_and!.
  - intros raw st. unfold __init__.
    destruct (Heap.load raw ∅) as [h v].
    destruct (Heap.dict_lookup h v "companies") as [e|found]; [discriminate|]. cbn [bind].
    destruct (match found with Some c => Heap.dict_items h c | None => ret [] end)
      as [e|items]; [discriminate|]. cbn [bind].
    destruct (Heap.dict_items h v) as [e|raw_items]; [discriminate|]. cbn [bind].
    unfold Heap.alloc. intros [= <-].
    assert (registered_companies
              {| factory := {| _company_configs :=
                   fold_left (fun d '(key, value) => Dict.set (Str.lower key) value d) items [];
                   _global_config := VRef (fresh (dom h)); _registry := ∅ |};
                 objects := <[fresh (dom h) := ODict (List.filter
                   (fun '(key, _) => negb (String.eqb key "companies")) raw_items)]> h;
                 imports := [] |} = ∅) as He.
    { unfold registered_companies. simpl. apply dom_empty_L. }
    intros k. rewrite He. set_solver.
  - intros key cls st Hok. unfold register_scraper.
    destruct cls as [name|]; [|done].
    destruct (negb (Dict.mem (Str.lower key) (_company_configs (factory st)))) eqn:E; [done|].
    apply registry_ok_insert; [done|].
    apply negb_false_iff in E. rewrite configured_keys. by apply BestFacts.mem_In_keys.
  - intros key st Hok.
    destruct (get_company_config key st) as [st' r] eqn:E.
    apply get_company_config_frame in E as (Hf & _). simpl.
    apply (registry_ok_frame st); [by rewrite Hf | by rewrite Hf | done].
  - intros key st Hok. unfold create_scraper.
    destruct (get_company_config (Str.lower key) st) as [st1 r1] eqn:E1.
    apply get_company_config_frame in E1 as (Hf1 & _ & _ & Hsome).
    assert (registry_ok st1) as Hok1
      by (apply (registry_ok_frame st); [by rewrite Hf1 | by rewrite Hf1 | done]).
    destruct r1 as [e|config]; [done|].
    assert (In (Str.lower key) (fst (available_companies true st1))) as Hk.
    { apply configured_get. rewrite Hf1. rewrite <- (lower_idem key). by apply (Hsome config). }
    destruct (Heap.dict_get (objects st1) config "enabled" (VBool true)) as [e|enabled];
      [done|].
    destruct (negb (Heap.truthy (objects st1) enabled)); [done|].
    destruct (_get_scraper_class importable (Str.lower key) config st1) as [st2 r2] eqn:E2.
    pose proof (get_scraper_class_frame importable _ _ _ _ _ E2) as (Ho2 & Hc2 & Hg2).
    apply get_scraper_class_effect in E2 as (_ & _ & Hreg).
    assert (registry_ok st2) as Hok2.
    { destruct r2 as [e|cls].
      - by apply (registry_ok_frame st1).
      - intros k. unfold registered_companies. rewrite Hreg, configured_keys, Hc2.
        rewrite <- configured_keys, dom_insert, elem_of_union, elem_of_singleton.
        intros [-> | Hin]; [exact Hk | by apply Hok1]. }
    destruct r2 as [e|cls]; [done|].
    destruct (Heap.deepcopy (objects st2) (_global_config (factory st2))) as [[h gc]|]; [|done].
    simpl. by apply (registry_ok_frame st2).
Qed.

(** A company that is not configured is refused everywhere, and nothing
    changes: [get_company_config] and [register_scraper] raise [KeyError]
    with the key as it was given, [create_scraper] raises the [KeyError]
    of [get_company_config] with the key lower-cased.  A class that does
    not inherit from [BaseScraper] is refused with [TypeError] before the
    key is looked at. *)
Theorem unknown_company_is_refused (company_key : string) (cls : string) (st : state) :
  ~ In (Str.lower company_key) (fst (available_companies true st)) ->
  get_company_config company_key st
  = (st, inl (KeyError ("No configuration found for company '" ++ company_key ++ "'")))
  /\ create_scraper importable company_key st
     = (st, inl (KeyError ("No configuration found for company '"
                           ++ Str.lower company_key ++ "'")))
  /\ register_scraper company_key (ScraperClass cls) st
     = (st, inl (KeyError ("Unknown company '" ++ company_key ++ "' in configuration")))
  /\ register_scraper company_key NotAScraper st
     = (st, inl (TypeError "Scraper class must inherit from BaseScraper")).
Proof.
  intros Hk.
  assert (Dict.get (Str.lower company_key) (_company_configs (factory st)) = None) as Hget.
  { destruct (Dict.get _ _) eqn:E; [|done]. exfalso. apply Hk, configured_get. by eexists. }
  split_and!.
  - unfold get_company_config. by rewrite Hget.
  - unfold create_scraper, get_company_config. by rewrite lower_idem, Hget.
  - unfold register_scraper, Dict.mem. by rewrite Hget.
  - reflexivity.
Qed.

Lemma factory_ok_set_registry (st : state) (companies : Dict.t json) (glob : json)
    (r : gmap string string) :
  factory_ok st companies glob -> factory_ok (set_registry st r) companies glob.
Proof. by intros [H1 H2]. Qed.

(** With a class in the registry for the key, [create_scraper] on an
    enabled company returns a call of that class and imports nothing. *)
Lemma create_registered (st : state) (companies : Dict.t json) (glob : json)
    (company_key cls : string) (config : Dict.t json) :
  factory_ok st companies glob ->
  Dict.get (Str.lower company_key) companies = Some (JDict config) ->
  json_enabled (JDict config) = true ->
  _registry (factory st) !! Str.lower company_key = Some cls ->
  exists st' call,
    create_scraper importable company_key st = (st', inr call)
    /\ call_class call = cls
    /\ imports st' = imports st
    /\ _registry (factory st') = _registry (factory st)
    /\ repr (objects st') (JDict config) (call_company_config call)
    /\ repr (objects st') glob (call_global_config call).
Proof.
  intros Hok Hget Hen Hreg. unfold create_scraper.
  rewrite <- lower_idem in Hget.
  destruct (get_company_config_spec st companies glob _ _ Hok Hget)
    as (h1 & v1 & -> & Hs1 & Hr1).
  cbn [objects set_objects].
  destruct (enabled_repr _ h1 config v1 Hr1) as (e & -> & He). rewrite He, Hen. cbn [negb].
  unfold _get_scraper_class. cbn [factory set_objects]. rewrite Hreg.
  destruct Hok as [_ Hglob].
  assert (repr h1 glob (_global_config (factory st))) as Hg1
    by (revert Hglob; by apply repr_in_mono).
  destruct (deepcopy_spec _ _ _ _ Hg1) as (h2 & g2 & Hd & Hs2 & Hr2).
  cbn [objects set_objects factory]. rewrite Hd.
  eexists _, _. split; [reflexivity|]. simpl. split_and!; try done.
  - revert Hr1. by apply repr_in_mono.
  - revert Hr2. by apply repr_in_mono.
Qed.

(** A successful [create_scraper] was asked for a configured company
    whose configuration is a dictionary in which [enabled] is true or
    missing. *)
Lemma create_scraper_success (st st1 : state) (companies : Dict.t json) (glob : json)
    (company_key : string) (call : constructor_call) :
  factory_ok st companies glob ->
  create_scraper importable company_key st = (st1, inr call) ->
  exists config,
    Dict.get (Str.lower company_key) companies = Some (JDict config)
    /\ json_enabled (JDict config) = true.
Proof.
  intros Hok. unfold create_scraper.
  destruct (Dict.get (Str.lower company_key) companies) as [j|] eqn:Hget.
  - rewrite <- lower_idem in Hget.
    destruct (get_company_config_spec st companies glob _ _ Hok Hget)
      as (h1 & v1 & -> & Hs1 & Hr1).
    cbn [objects set_objects].
    destruct (Heap.dict_get h1 v1 "enabled" (VBool true)) as [e|enabled] eqn:Ed;
      [discriminate|].
    unfold Heap.dict_get in Ed.
    destruct (Heap.dict_lookup h1 v1 "enabled") as [e|found] eqn:El; [discriminate|].
    destruct (dict_lookup_is_dict _ _ _ _ _ _ Hr1 El) as [config ->].
    destruct (enabled_repr _ h1 config v1 Hr1) as (e & He & Ht).
    unfold Heap.dict_get in He. rewrite El in He. rewrite Ed in He. injection He as <-.
    rewrite Ht. destruct (json_enabled (JDict config)) eqn:Hen; [|discriminate].
    intros _. by exists config.
  - rewrite <- lower_idem in Hget.
    by rewrite (get_company_config_unknown st companies glob _ Hok Hget).
Qed.

(** Registration decides the class.  After [register_scraper] for a
    configured company that is enabled, the company is among the
    registered ones, and [create_scraper], asked with the key in any
    case, returns a call of the registered class with copies of the
    company's and the global configuration, and imports nothing. *)
Theorem registered_class_is_created (st : state) (companies : Dict.t json) (glob : json)
    (registered_as asked_as cls : string) (config : Dict.t json) :
  factory_ok st companies glob ->
  Dict.get (Str.lower registered_as) companies = Some (JDict config) ->
  json_enabled (JDict config) = true ->
  Str.lower asked_as = Str.lower registered_as ->
  exists st1 st2 call,
    register_scraper registered_as (ScraperClass cls) st = (st1, inr tt)
    /\ Str.lower registered_as ∈ registered_companies st1
    /\ create_scraper importable asked_as st1 = (st2, inr call)
    /\ call_class call = cls
    /\ imports st2 = imports st
    /\ repr (objects st2) (JDict config) (call_company_config call)
    /\ repr (objects st2) glob (call_global_config call).
Proof.
  intros Hok Hget Hen Hkey.
  set (st1 := set_registry st (<[Str.lower registered_as := cls]> (_registry (factory st)))).
  assert (register_scraper registered_as (ScraperClass cls) st = (st1, inr tt)) as Hreg.
  { unfold register_scraper, Dict.mem.
    destruct Hok as [Hcs _].
    pose proof (all2_get (repr (objects st)) _ _ (Str.lower registered_as) Hcs) as Hm.
    rewrite Hget in Hm.
    by destruct (Dict.get (Str.lower registered_as) (_company_configs (factory st))). }
  destruct (create_registered st1 companies glob asked_as cls config)
    as (st2 & call & Hc & Hcls & Hi & _ & Hrc & Hrg).
  - by apply factory_ok_set_registry.
  - by rewrite Hkey.
  - exact Hen.
  - rewrite Hkey. simpl. by rewrite lookup_insert_eq.
  - exists st1, st2, call. split_and!; try done.
    unfold registered_companies. simpl. rewrite dom_insert. set_solver.
Qed.

(** A class that was resolved is kept.  After a successful
    [create_scraper] the company is registered, and asking again returns a
    call of the same class without importing anything and without
    touching the registry. *)
Theorem resolved_class_is_cached (st st1 : state) (companies : Dict.t json) (glob : json)
    (company_key : string) (call : constructor_call) :
  factory_ok st companies glob ->
  create_scraper importable company_key st = (st1, inr call) ->
  Str.lower company_key ∈ registered_companies st1
  /\ exists st2 again,
       create_scraper importable company_key st1 = (st2, inr again)
       /\ call_class again = call_class call
       /\ imports st2 = imports st1
       /\ _registry (factory st2) = _registry (factory st1).
Proof.
  intros Hok Hcall.
  destruct (create_scraper_success st st1 companies glob company_key call Hok Hcall)
    as (config & Hget & Hen).
  pose proof (create_scraper_effect st companies glob company_key Hok) as Heff.
  rewrite Hcall in Heff. destruct Heff as (_ & _ & _ & Hok1 & _ & _ & Hreg).
  assert (_registry (factory st1) !! Str.lower company_key = Some (call_class call)) as Hl
    by (by rewrite Hreg, lookup_insert_eq).
  split.
  - unfold registered_companies. apply elem_of_dom. by eexists.
  - destruct (create_registered st1 companies glob company_key (call_class call) config
                Hok1 Hget Hen Hl) as (st2 & again & Hc & Hcls & Hi & Hr & _).
    by exists st2, again.
Qed.



Lemma get_scraper_class_not_disabled (company_key : string) (config : val)
    (st st' : state) (e : exn) :
  _get_scraper_class importable company_key config st = (st', inl e) ->
  (exists msg, e = AttributeError msg) \/ (exists msg, e = TypeError msg)
  \/ (exists msg, e = ModuleNotFoundError msg)
  \/ e = ValueError ("Scraper class not specified for company '" ++ company_key ++ "'").
Proof.
  unfold _get_scraper_class, Heap.dict_get, Heap.dict_lookup, as_str, bind, raise, ret.
  repeat case_match; intros Hres; simplify_eq; eauto 10.
Qed.

(** What [available_companies] lists can be asked for.  In a factory
    built from a document whose company entries are dictionaries, every
    key listed with [include_disabled] is lower-case and has a
    configuration that [get_company_config] returns; and it is listed by
    default exactly when [create_scraper] does not refuse it as
    disabled. *)
Theorem available_companies_can_be_created (raw_config : json) (st : state)
    (company_key : string) :
  __init__ raw_config = inr st ->
  Forall (fun kj => is_dict (snd kj)) (loaded_companies raw_config) ->
  In company_key (fst (available_companies true st)) ->
  Str.lower company_key = company_key
  /\ (exists st' config, get_company_config company_key st = (st', inr config))
  /\ (In company_key (fst (available_companies false st))
      <-> snd (create_scraper importable company_key st) <> inl (disabled_error company_key)).
Proof.
  intros Hinit Hdict Hin.
  pose proof (init_ok raw_config st Hinit) as Hok.
  destruct (loaded_companies_keys raw_config) as [Hlow Hnd].
  set (companies := loaded_companies raw_config) in *.
  set (glob := loaded_global raw_config) in *.
  pose proof Hok as [Hcs _].
  rewrite configured_keys, (all2_keys _ _ _ Hcs) in Hin.
  assert (Str.lower company_key = company_key) as Hk.
  { rewrite List.Forall_forall in Hlow. by apply Hlow. }
  apply in_map_iff in Hin as ([k j] & Hfst & Hinj). simpl in Hfst. subst k.
  pose proof (BestFacts.get_unique _ _ _ Hnd Hinj) as Hget.
  assert (exists config, j = JDict config) as [config ->].
  { rewrite List.Forall_forall in Hdict. specialize (Hdict _ Hinj). simpl in Hdict.
    destruct j; try done. by eexists. }
  split; [exact Hk|]. split.
  { rewrite <- Hk in Hget.
    destruct (get_company_config_spec st companies glob _ _ Hok Hget) as (h & v & -> & _).
    by eexists _, _. }
  unfold available_companies.
  rewrite (available_enabled (objects st) companies _ Hcs Hdict). cbn [fst].
  assert (In company_key (map fst (List.filter (fun kj => json_enabled (snd kj)) companies))
          <-> json_enabled (JDict config) = true) as ->.
  { rewrite in_map_iff. split.
    - intros ([k j] & Hfst & Hf). simpl in Hfst. subst k.
      apply filter_In in Hf as [Hf He]. simpl in He.
      pose proof (BestFacts.get_unique _ _ _ Hnd Hf) as Hget'. congruence.
    - intros He. exists (company_key, JDict config). split; [done|].
      apply filter_In. by split. }
  unfold create_scraper. rewrite Hk.
  rewrite <- Hk in Hget.
  destruct (get_company_config_spec st companies glob _ _ Hok Hget)
    as (h1 & v1 & -> & Hs1 & Hr1).
  cbn [objects set_objects].
  destruct (enabled_repr _ h1 config v1 Hr1) as (e & -> & ->).
  destruct (json_enabled (JDict config)); cbn [negb snd].
  - split; [intros _ | done].
    destruct (_get_scraper_class importable company_key v1 (set_objects st h1))
      as [st2 [e2|cls]] eqn:E2.
    + apply get_scraper_class_not_disabled in E2
        as [[m ->] | [[m ->] | [[m ->] | ->]]]; simpl; try discriminate.
    + by destruct (Heap.deepcopy _ _) as [[? ?]|].
  - split; [discriminate|]. intros H. by destruct H.
Qed.

End FactoryBehaviour.

Lemma dict_get_other (P : loc -> Prop) (h : heap) (j : json) (v dflt : val) (key : string) :
  repr_in P h j v -> ~ is_dict j ->
  Heap.dict_get h v key dflt = inl (AttributeError "object has no attribute 'get'").
Proof.
  intros Hr Hd. unfold Heap.dict_get. by rewrite (dict_lookup_other P h j v key Hr Hd).
Qed.

Lemma available_until (h : heap) (before : Dict.t json) (j : json) (after : Dict.t json)
    (key : string) (configs : Dict.t val) :
  all2 (keyed (repr h)) (before ++ (key, j) :: after) configs ->
  Forall (fun kj => is_dict (snd kj)) before -> ~ is_dict j ->
  available_loop h false configs
  = (map fst (List.filter (fun kj => json_enabled (snd kj)) before),
     Some (AttributeError "object has no attribute 'get'")).
Proof.
  revert configs. induction before as [|[k0 j0] before IH]; intros [|[k' v] configs];
    simpl; try done.
  - intros [[_ Hr] _] _ Hd. simpl in Hr. by rewrite (dict_get_other _ h j v _ _ Hr Hd).
  - intros [[Hk Hr] Hrest] Hb Hd. apply Forall_cons in Hb as [Hb Hbs]. simpl in *.
    destruct j0 as [| | | | |kvs]; try done.
    destruct (enabled_repr _ h kvs v Hr) as (e & -> & ->).
    rewrite (IH configs Hrest Hbs Hd). simpl. subst k'. by destruct (json_truthy _).
Qed.

(** A company entry that is not a dictionary.  With [include_disabled]
    the generator never looks into the entries and yields every key.  By
    default it yields the enabled keys before the first such entry and
    then raises [AttributeError]: the keys after it are never reached. *)
Theorem available_companies_stops_at_a_bad_entry (st : state) (glob : json)
    (before : Dict.t json) (company_key : string) (j : json) (after : Dict.t json) :
  factory_ok st (before ++ (company_key, j) :: after) glob ->
  Forall (fun kj => is_dict (snd kj)) before ->
  ~ is_dict j ->
  available_companies true st = (map fst before ++ company_key :: map fst after, None)
  /\ available_companies false st
     = (map fst (List.filter (fun kj => json_enabled (snd kj)) before),
        Some (AttributeError "object has no attribute 'get'")).
Proof.
  intros [Hcs _] Hb Hd. unfold available_companies. split.
  - rewrite available_all. rewrite (all2_keys _ _ _ Hcs).
    by rewrite map_app.
  - by apply (available_until _ before j after company_key).
Qed.


(** ** The settings, the construction of a scraper and its statistics *)

(** [get_enabled_companies] returns, in the order in which [CompanyName]
    declares them, the values of the companies whose switch is on: each
    name it returns is a value of [CompanyName], and a name is returned
    exactly when the switch of its company is on. *)
Theorem enabled_companies_are_company_names (companies : CompanySettings) :
  sublist (get_enabled_companies companies) (map fst CompanyName_values)
  /\ Forall (fun name => exists member, CompanyName_of_value name = inr member)
       (get_enabled_companies companies)
  /\ (In "meta" (get_enabled_companies companies) <-> enable_meta_scraping companies = true)
  /\ (In "amazon" (get_enabled_companies companies)
      <-> enable_amazon_scraping companies = true)
  /\ (In "apple" (get_enabled_companies companies) <-> enable_apple_scraping companies = true)
  /\ (In "netflix" (get_enabled_companies companies)
      <-> enable_netflix_scraping companies = true)
  /\ (In "google" (get_enabled_companies companies)
      <-> enable_google_scraping companies = true).
Proof.
  destruct companies as [[] [] [] [] []]; unfold get_enabled_companies; simpl;
    (split_and!;
     [ repeat first [apply sublist_nil | apply sublist_skip; [] | apply sublist_cons]
     | repeat constructor; by eexists
     | .. ]);
    try (split; [intros _; reflexivity | intros _; tauto]);
    try (split; [ | discriminate]; intros H;
         repeat (destruct H as [H|H]; [discriminate H|]); destruct H).
  all: try (split; [intros _; reflexivity | intros _; simpl; tauto]).
Qed.

Section UserAgentFacts.

Variable settings_user_agent : string.
Variable entropy : nat.

Local Abbreviation user_agent := (Instance._get_user_agent settings_user_agent entropy).

(** The user agent of a scraper whose global configuration lists
    [agents] under [user_agents], or lists none, in which case [agents]
    is the agent of the settings alone.  [_get_user_agent] returns; what
    it returns is one of [agents], or the agent of the settings when
    [agents] is empty; and it is the first of them unless rotation is
    switched on and there is more than one. *)
Theorem user_agent_is_a_configured_one (self : Instance.t) (entries : Dict.t json)
    (agents : list json) :
  Instance.global_config self = JDict entries ->
  default (JList [JStr settings_user_agent]) (Dict.get "user_agents" entries) = JList agents ->
  exists agent,
    user_agent self = inr agent
    /\ (agents = [] -> agent = JStr settings_user_agent)
    /\ (agents <> [] -> In agent agents)
    /\ (json_truthy (default (JBool false) (Dict.get "user_agent_rotation" entries)) = false
        \/ List.length agents <= 1 ->
        agent = hd (JStr settings_user_agent) agents).
Proof.
  intros Hg Hagents. unfold Instance._get_user_agent. rewrite Hg. cbn [Json.get bind ret].
  rewrite Hagents.
  destruct (json_truthy (default (JBool false) (Dict.get "user_agent_rotation" entries)))
    eqn:Hrot; cbn [Json.len bind ret].
  - destruct (Nat.ltb_spec 1 (List.length agents)) as [Hlt|Hle].
    + unfold Instance.random_choice. cbn [Json.len bind ret Json.index].
      assert (entropy mod List.length agents < List.length agents) as Hi
        by (apply Nat.mod_upper_bound; lia).
      destruct (nth_error agents (entropy mod List.length agents)) as [agent|] eqn:En.
      * exists agent. split; [done|]. split_and!.
        -- intros ->. simpl in Hlt. lia.
        -- intros _. by eapply nth_error_In.
        -- intros [? | ?]; [done | lia].
      * apply nth_error_None in En. lia.
    + destruct agents as [|a [|b rest]]; simpl in Hle; [| |lia].
      * eexists. split; [reflexivity|]. by split_and!.
      * eexists. split; [reflexivity|]. split_and!; [done | by left | done].
  - destruct agents as [|a rest].
    + eexists. split; [reflexivity|]. by split_and!.
    + eexists. split; [reflexivity|]. split_and!; [done | by left | done].
Qed.

End UserAgentFacts.

(** What [BaseScraper.__init__] asks of a company configuration that is
    a dictionary, given a global configuration that is one.  It returns
    exactly when [name] is a string whose lower-cased form is a value of
    [CompanyName], and [careers_url] is present.  The scraper then has
    that company; the display name defaults to the name, the rate limit
    to the global [default_rate_limit] and then to 2, the page limit to
    the global [default_max_pages] and then to 5; the categorizer is
    built from the [job_categories] and [categorization_rules] of the
    global configuration; and the statistics are zero, with no error.
    Otherwise it raises: [KeyError] for a missing [name] or
    [careers_url], [AttributeError] for a [name] that is no string,
    [ValueError] for one that is no company. *)
Theorem init_needs_name_and_url (company_config global_config : Dict.t json) :
  match Instance.__init__ (JDict company_config) (JDict global_config) with
  | inr self =>
      exists name,
        Dict.get "name" company_config = Some (JStr name)
        /\ Dict.get (Str.lower name) CompanyName_values = Some (Instance.company_name self)
        /\ Dict.get "careers_url" company_config = Some (Instance.careers_url self)
        /\ Instance.display_name self
           = default (JStr name) (Dict.get "display_name" company_config)
        /\ Instance.rate_limit self
           = default (default (JNum 2) (Dict.get "default_rate_limit" global_config))
               (Dict.get "rate_limit" company_config)
        /\ Instance.max_pages self
           = default (default (JNum 5) (Dict.get "default_max_pages" global_config))
               (Dict.get "max_pages" company_config)
        /\ Instance.categories self
           = default (JDict []) (Dict.get "job_categories" global_config)
        /\ Instance.rules self
           = default (JDict []) (Dict.get "categorization_rules" global_config)
        /\ Instance.company_config self = JDict company_config
        /\ Instance.global_config self = JDict global_config
        /\ Instance.stats_ self
           = {| jobs_found := 0; jobs_processed := 0; jobs_categorized := 0; errors := [] |}
  | inl e =>
      match Dict.get "name" company_config with
      | None => e = KeyError "name"
      | Some (JStr name) =>
          match Dict.get (Str.lower name) CompanyName_values with
          | None => e = ValueError ("'" ++ Str.lower name ++ "' is not a valid CompanyName")
          | Some _ => Dict.get "careers_url" company_config = None /\ e = KeyError "careers_url"
          end
      | Some _ => exists msg, e = AttributeError msg
      end
  end.
Proof.
  unfold Instance.__init__. cbn [Json.getitem Json.get bind ret].
  destruct (Dict.get "name" company_config) as [name|]; [|done]. cbn [bind ret raise].
  destruct name as [| b | q | name | js | kvs]; try (by eexists).
  cbn [Json.lower bind ret]. unfold CompanyName_of_value.
  destruct (Dict.get (Str.lower name) CompanyName_values) as [member|] eqn:Ec; [|done].
  cbn [bind ret].
  destruct (Dict.get "careers_url" company_config) as [url|]; [|done].
  cbn [bind ret]. exists name. by split_and!.
Qed.

Lemma Qnat_succ (n : nat) : (Qnat n + 1)%Q = Qnat (n + 1).
Proof.
  unfold Qnat, Qplus, inject_Z. simpl. f_equal. lia.
Qed.

Lemma new_stats_at (h : heap) :
  exists errors_at,
    stats_at (fst (new_stats h)) (snd (new_stats h)) errors_at
      {| jobs_found := 0; jobs_processed := 0; jobs_categorized := 0; errors := [] |}
    /\ h ⊆ fst (new_stats h).
Proof.
  unfold new_stats, Heap.alloc. simpl.
  set (le := fresh (dom h)). set (h1 := <[le := OList []]> h).
  set (l := fresh (dom h1)).
  assert (le ∉ dom h) as Hle by apply is_fresh.
  assert (l ∉ dom h1) as Hl by apply is_fresh.
  assert (l <> le) as Hne.
  { intros ->. apply Hl. unfold h1. rewrite dom_insert. set_solver. }
  exists le. split.
  - exists l. split_and!; [done | done | by rewrite lookup_insert_eq |].
    rewrite lookup_insert_ne by done. unfold h1. by rewrite lookup_insert_eq.
  - etrans; [apply (insert_subseteq h le), not_elem_of_dom, Hle|].
    apply insert_subseteq, not_elem_of_dom, Hl.
Qed.

(** [get_stats] hands out a copy of the dictionary, not of the list in
    it.  The copy is a new object that reads as the statistics; a counter
    the scraper increments afterwards changes in the scraper's dictionary
    and not in the copy; an error the scraper records afterwards shows in
    both, because the two dictionaries hold the same list. *)
Theorem get_stats_shares_the_error_list (h : heap) (self_stats : val) (errors_at : loc)
    (st : stats) :
  stats_at h self_stats errors_at st ->
  exists h1 snapshot,
    get_stats h self_stats = inr (h1, snapshot)
    /\ snapshot <> self_stats
    /\ stats_at h1 self_stats errors_at st
    /\ stats_at h1 snapshot errors_at st
    /\ (exists h2,
          increment h1 self_stats "jobs_processed" = inr h2
          /\ stats_at h2 self_stats errors_at (add_processed st)
          /\ stats_at h2 snapshot errors_at st)
    /\ (forall message, exists h2,
          record_error h1 self_stats message = inr h2
          /\ stats_at h2 self_stats errors_at (add_error message st)
          /\ stats_at h2 snapshot errors_at (add_error message st)).
Proof.
  intros (l & -> & Hne & Hl & He).
  unfold get_stats, Store.copy, Heap.alloc. rewrite Hl. cbn [ret].
  set (l' := fresh (dom h)).
  assert (l' ∉ dom h) as Hfresh by apply is_fresh.
  assert (l' <> l) as Hl'.
  { intros E. apply Hfresh. rewrite E. apply elem_of_dom. by eexists. }
  assert (l' <> errors_at) as Hle'.
  { intros E. apply Hfresh. rewrite E. apply elem_of_dom. by eexists. }
  eexists _, (VRef l'). split; [reflexivity|]. split; [congruence|].
  set (h1 := <[l' := _]> h).
  assert (h1 !! l = Some (ODict [("jobs_found", VNum (Qnat (jobs_found st)));
                                 ("jobs_processed", VNum (Qnat (jobs_processed st)));
                                 ("jobs_categorized", VNum (Qnat (jobs_categorized st)));
                                 ("errors", VRef errors_at)])) as Hl1
    by (unfold h1; by rewrite lookup_insert_ne).
  assert (h1 !! errors_at = Some (OList (map VStr (errors st)))) as He1
    by (unfold h1; by rewrite lookup_insert_ne).
  assert (h1 !! l' = Some (ODict [("jobs_found", VNum (Qnat (jobs_found st)));
                                  ("jobs_processed", VNum (Qnat (jobs_processed st)));
                                  ("jobs_categorized", VNum (Qnat (jobs_categorized st)));
                                  ("errors", VRef errors_at)])) as Hs1
    by (unfold h1; by rewrite lookup_insert_eq).
  clearbody h1.
  split_and!.
  - by exists l.
  - by exists l'.
  - unfold increment, Store.getitem, Store.setitem. rewrite Hl1. cbn [Dict.get String.eqb
      Ascii.eqb Bool.eqb bind ret]. simpl.
    eexists. split; [reflexivity|]. split.
    + exists l. split_and!; [done | done | | by rewrite lookup_insert_ne].
      rewrite lookup_insert_eq. by rewrite Qnat_succ.
    + exists l'. split_and!; [done | done | by rewrite lookup_insert_ne
                             | by rewrite lookup_insert_ne].
  - intros message. unfold record_error, Store.getitem, Store.append.
    rewrite Hl1. simpl. rewrite He1. simpl.
    eexists. split; [reflexivity|]. split.
    + exists l. split_and!; [done | done | by rewrite lookup_insert_ne |].
      rewrite lookup_insert_eq. simpl. by rewrite List.map_app.
    + exists l'. split_and!; [done | done | by rewrite lookup_insert_ne |].
      rewrite lookup_insert_eq. simpl. by rewrite List.map_app.
Qed.

(** ** The further properties on the sample data *)

Module MoreRuns.
Import Sample Fixtures.

(** A title with a tag, a run of spaces and spaces around it. *)
Lemma clean_text_leaves_no_control_witness :
  _clean_text (Some "  Senior   <b>Engineer</b> ") = Some "Senior Engineer"
  /\ Forall (fun c => is_control c = false /\ (Str.isspace c = true -> c = " "%char))
       (chars "Senior Engineer").
Proof.
  split; [reflexivity|].
  apply (clean_text_leaves_no_control (Some "  Senior   <b>Engineer</b> ")). reflexivity.
Defined.

(** A tidy text with punctuation. *)
Lemma clean_text_keeps_tidy_text_witness :
  tidy "Senior Engineer (m/f/d), 50% remote" = true
  /\ _clean_text (Some "Senior Engineer (m/f/d), 50% remote")
     = Some "Senior Engineer (m/f/d), 50% remote".
Proof.
  split; [reflexivity|]. apply (clean_text_keeps_tidy_text _). reflexivity.
Defined.

(** A text with an empty pair of angle brackets, which is no tag and stays, and
    with two tags, which go. *)
Lemma clean_text_leaves_no_tag_witness :
  _clean_text (Some "x <> y <b>z</b>") = Some "x <> y z"
  /\ Re.search Patterns.markup_tag "x <> y z" = None.
Proof.
  split; [reflexivity|].
  apply (clean_text_leaves_no_tag (Some "x <> y <b>z</b>")). reflexivity.
Defined.

(** A text that is not tidy and is still returned as it is: the converse
    of [clean_text_keeps_tidy_text] does not hold. *)
Example clean_text_keeps_more :
  tidy "1 < 2" = false /\ _clean_text (Some "1 < 2") = Some "1 < 2".
Proof. split; reflexivity. Qed.

(** Cleaning twice is not cleaning once: removing a tag can leave two
    spaces side by side. *)
Example clean_text_twice :
  _clean_text (Some "a <b> c") = Some "a  c"
  /\ _clean_text (_clean_text (Some "a <b> c")) = Some "a c".
Proof. split; reflexivity. Qed.

(** The record of the senior listing of the sample. *)
Lemma record_fields_witness :
  yielded parse now join (scraper 0) senior_remote_listing = Some senior_record
  /\ _clean_text (raw_get senior_remote_listing "title" (Some ""))
     = Some (job_title senior_record)
  /\ _clean_text (raw_get senior_remote_listing "description" (Some ""))
     = Some (job_description senior_record)
  /\ _clean_text (raw_get senior_remote_listing "location" (Some ""))
     = Some (job_location senior_record)
  /\ job_department senior_record
     = _clean_text (raw_get senior_remote_listing "department" None)
  /\ job_posted_date senior_record
     = _parse_date parse now (raw_get senior_remote_listing "posted_date" None)
  /\ absolute_url join (scraper 0) (raw_get senior_remote_listing "url" (Some ""))
     = inr (job_url senior_record)
  /\ job_company senior_record = company_name (scraper 0)
  /\ job_id senior_record = ""
  /\ (exists categorization,
        Categorizer.categorize_job (categorizer (scraper 0)) (job_title senior_record)
          (job_description senior_record) (job_department senior_record)
        = inr categorization
        /\ job_category senior_record = category categorization)
  /\ _determine_job_type (job_title senior_record) (job_description senior_record)
     = inr (job_type senior_record)
  /\ _determine_experience_level (job_title senior_record) (job_description senior_record)
     = inr (job_experience_level senior_record)
  /\ _determine_workplace_type (job_location senior_record) (job_description senior_record)
     = inr (job_workplace_type senior_record)
  /\ job_title senior_record <> "" /\ job_description senior_record <> ""
  /\ job_location senior_record <> ""
  /\ job_type senior_record <> TEMPORARY.
Proof.
  assert (yielded parse now join (scraper 0) senior_remote_listing = Some senior_record)
    as H by (by vm_compute).
  split; [exact H|].
  apply (record_fields parse now join (scraper 0) senior_remote_listing senior_record H).
Defined.

Example senior_record_fields :
  job_title senior_record = "Senior Engineer"
  /\ job_url senior_record = Some "https://careers.example.com/jobs/12345"
  /\ job_posted_date senior_record = Some {| year := 2024; month := 6; day := 1 |}
  /\ job_department senior_record = None.
Proof. repeat split. Qed.

(** Two runs of one scraper: the second returns what a first would, and
    counts on. *)
Example two_runs :
  let '(self1, jobs1, _) :=
    scrape_jobs parse now join (scraper 0) (inr [senior_remote_listing; plain_listing]) in
  let '(self2, jobs2, _) := scrape_jobs parse now join self1 (inr [director_listing]) in
  map job_title jobs1 = ["Senior Engineer"] /\ map job_title jobs2 = ["Director of Sales"]
  /\ jobs_found (stats_ self2) = 1 /\ jobs_processed (stats_ self2) = 2
  /\ jobs_categorized (stats_ self2) = 3.
Proof. vm_compute. repeat split. Qed.


(** A company the sample document does not configure. *)
Lemma unknown_company_is_refused_witness :
  ~ In (Str.lower "Tesla") (fst (available_companies true loaded))
  /\ get_company_config "Tesla" loaded
     = (loaded, inl (KeyError ("No configuration found for company '" ++ "Tesla" ++ "'")))
  /\ create_scraper modules "Tesla" loaded
     = (loaded, inl (KeyError ("No configuration found for company '"
                               ++ Str.lower "Tesla" ++ "'")))
  /\ register_scraper "Tesla" (ScraperClass "TeslaScraper") loaded
     = (loaded, inl (KeyError ("Unknown company '" ++ "Tesla" ++ "' in configuration")))
  /\ register_scraper "Tesla" NotAScraper loaded
     = (loaded, inl (TypeError "Scraper class must inherit from BaseScraper")).
Proof.
  assert (~ In (Str.lower "Tesla") (fst (available_companies true loaded))) as H.
  { vm_compute. intros [H | [H | []]]; discriminate H. }
  split; [exact H|].
  apply (unknown_company_is_refused modules "Tesla" "TeslaScraper" loaded H).
Defined.

(** Registering a class for "Amazon" and asking for "AMAZON". *)
Lemma registered_class_is_created_witness :
  factory_ok loaded (loaded_companies document) (loaded_global document)
  /\ Dict.get (Str.lower "Amazon") (loaded_companies document) = Some (JDict amazon_config)
  /\ json_enabled (JDict amazon_config) = true
  /\ Str.lower "AMAZON" = Str.lower "Amazon"
  /\ exists st1 st2 call,
       register_scraper "Amazon" (ScraperClass "DummyScraper") loaded = (st1, inr tt)
       /\ Str.lower "Amazon" ∈ registered_companies st1
       /\ create_scraper modules "AMAZON" st1 = (st2, inr call)
       /\ call_class call = "DummyScraper"
       /\ imports st2 = imports loaded
       /\ repr (objects st2) (JDict amazon_config) (call_company_config call)
       /\ repr (objects st2) (loaded_global document) (call_global_config call).
Proof.
  split; [apply FactoryRuns.loaded_ok|]. split; [by vm_compute|].
  split; [by vm_compute|]. split; [by vm_compute|].
  apply (registered_class_is_created modules loaded (loaded_companies document)
           (loaded_global document) "Amazon" "AMAZON" "DummyScraper" amazon_config);
    [apply FactoryRuns.loaded_ok | by vm_compute | by vm_compute | by vm_compute].
Defined.

(** Asking twice for "Amazon", whose class is resolved by convention. *)
Lemma resolved_class_is_cached_witness :
  factory_ok loaded (loaded_companies document) (loaded_global document)
  /\ create_scraper modules "Amazon" loaded = (fst amazon_created, inr amazon_call)
  /\ Str.lower "Amazon" ∈ registered_companies (fst amazon_created)
  /\ exists st2 again,
       create_scraper modules "Amazon" (fst amazon_created) = (st2, inr again)
       /\ call_class again = call_class amazon_call
       /\ imports st2 = imports (fst amazon_created)
       /\ _registry (factory st2) = _registry (factory (fst amazon_created)).
Proof.
  assert (create_scraper modules "Amazon" loaded = (fst amazon_created, inr amazon_call))
    as H by (by vm_compute).
  split; [apply FactoryRuns.loaded_ok|]. split; [exact H|].
  apply (resolved_class_is_cached modules loaded (fst amazon_created)
           (loaded_companies document) (loaded_global document) "Amazon" amazon_call);
    [apply FactoryRuns.loaded_ok | exact H].
Defined.


(** The three ways in which resolution by convention fails, and the
    missing class name. *)
Example resolution_failures :
  resolution modules "amazon" "scrapers.companies.amazon_scraper" "helper"
  = inl (TypeError "Scraper class 'helper' for company 'amazon' must inherit from BaseScraper")
  /\ resolution modules "amazon" "scrapers.companies.amazon_scraper" "Missing"
     = inl (AttributeError
              "Module 'scrapers.companies.amazon_scraper' does not define scraper class 'Missing'")
  /\ resolution modules "meta" "scrapers.companies.meta_scraper" "MetaScraper"
     = inl (ModuleNotFoundError
              "Unable to import module 'scrapers.companies.meta_scraper' for company 'meta'")
  /\ snd (create_scraper modules "apple" loaded_bad_entry)
     = inl (ValueError "Scraper class not specified for company 'apple'").
Proof. vm_compute. repeat split. Qed.

(** The key "amazon" of the sample factory. *)
Lemma available_companies_can_be_created_witness :
  __init__ document = inr loaded
  /\ Forall (fun kj => is_dict (snd kj)) (loaded_companies document)
  /\ In "amazon" (fst (available_companies true loaded))
  /\ Str.lower "amazon" = "amazon"
  /\ (exists st' config, get_company_config "amazon" loaded = (st', inr config))
  /\ (In "amazon" (fst (available_companies false loaded))
      <-> snd (create_scraper modules "amazon" loaded) <> inl (disabled_error "amazon")).
Proof.
  assert (Forall (fun kj => is_dict (snd kj)) (loaded_companies document)) as Hd.
  { vm_compute. repeat constructor. }
  assert (In "amazon" (fst (available_companies true loaded))) as Hin.
  { vm_compute. auto. }
  split; [apply FactoryRuns.loaded_init|]. split; [exact Hd|]. split; [exact Hin|].
  apply (available_companies_can_be_created modules document loaded "amazon");
    [apply FactoryRuns.loaded_init | exact Hd | exact Hin].
Defined.

(** A document in which the entry of "amazon" is a number. *)
Lemma available_companies_stops_at_a_bad_entry_witness :
  factory_ok loaded_bad_entry
    ([("meta", JDict meta_config)] ++ ("amazon", JNum 5)
       :: [("apple", JDict [("name", JStr "Apple")])]) (JDict [])
  /\ Forall (fun kj => is_dict (snd kj)) [("meta", JDict meta_config)]
  /\ ~ is_dict (JNum 5)
  /\ available_companies true loaded_bad_entry
     = (map fst [("meta", JDict meta_config)] ++ "amazon"
          :: map fst [("apple", JDict [("name", JStr "Apple")])], None)
  /\ available_companies false loaded_bad_entry
     = (map fst (List.filter (fun kj => json_enabled (snd kj)) [("meta", JDict meta_config)]),
        Some (AttributeError "object has no attribute 'get'")).
Proof.
  assert (factory_ok loaded_bad_entry
            ([("meta", JDict meta_config)] ++ ("amazon", JNum 5)
               :: [("apple", JDict [("name", JStr "Apple")])]) (JDict [])) as Hok.
  { assert (__init__ document_bad_entry = inr loaded_bad_entry) as Hi by (by vm_compute).
    apply init_ok in Hi. exact Hi. }
  assert (Forall (fun kj => is_dict (snd kj)) [("meta", JDict meta_config)]) as Hd
    by (by repeat constructor).
  assert (~ is_dict (JNum 5)) as Hn by (simpl; tauto).
  split; [exact Hok|]. split; [exact Hd|]. split; [exact Hn|].
  apply (available_companies_stops_at_a_bad_entry loaded_bad_entry (JDict [])
           [("meta", JDict meta_config)] "amazon" (JNum 5)
           [("apple", JDict [("name", JStr "Apple")])] Hok Hd Hn).
Defined.

Example bad_entry_sample :
  available_companies true loaded_bad_entry = (["meta"; "amazon"; "apple"], None)
  /\ available_companies false loaded_bad_entry
     = ([], Some (AttributeError "object has no attribute 'get'")).
Proof. vm_compute. split; reflexivity. Qed.

(** Two agents and rotation switched on. *)
Lemma user_agent_is_a_configured_one_witness :
  Instance.global_config meta_instance = JDict rotating
  /\ default (JList [JStr "default/0"]) (Dict.get "user_agents" rotating)
     = JList [JStr "agent/1"; JStr "agent/2"]
  /\ exists agent,
       Instance._get_user_agent "default/0" 7 meta_instance = inr agent
       /\ ([JStr "agent/1"; JStr "agent/2"] = [] -> agent = JStr "default/0")
       /\ ([JStr "agent/1"; JStr "agent/2"] <> [] ->
           In agent [JStr "agent/1"; JStr "agent/2"])
       /\ (json_truthy (default (JBool false) (Dict.get "user_agent_rotation" rotating))
           = false
           \/ List.length [JStr "agent/1"; JStr "agent/2"] <= 1 ->
           agent = hd (JStr "default/0") [JStr "agent/1"; JStr "agent/2"]).
Proof.
  split; [reflexivity|]. split; [reflexivity|].
  apply (user_agent_is_a_configured_one "default/0" 7 meta_instance rotating
           [JStr "agent/1"; JStr "agent/2"]); reflexivity.
Defined.

Example user_agent_samples :
  Instance._get_user_agent "default/0" 7 meta_instance = inr (JStr "agent/2")
  /\ Instance._get_user_agent "default/0" 4 meta_instance = inr (JStr "agent/1")
  /\ Instance._get_user_agent "default/0" 7 no_instance
     = inl (AttributeError "object has no attribute 'get'").
Proof. repeat split. Qed.

Example init_samples :
  match Instance.__init__ (JDict amazon_config) (JDict global_entries) with
  | inl e => e = KeyError "careers_url"
  | inr _ => False
  end
  /\ match
       Instance.__init__ (JDict [("name", JStr "Tesla"); ("careers_url", JStr "/")])
         (JDict [])
     with
     | inl e => e = ValueError "'tesla' is not a valid CompanyName"
     | inr _ => False
     end
  /\ Instance.rate_limit meta_instance = JNum 2
  /\ Instance.company_name meta_instance = META.
Proof. vm_compute. repeat split. Qed.

(** The statistics of a new scraper. *)
Lemma get_stats_shares_the_error_list_witness :
  stats_at (fst fresh_stats) (snd fresh_stats) 0 no_stats
  /\ exists h1 snapshot,
       get_stats (fst fresh_stats) (snd fresh_stats) = inr (h1, snapshot)
       /\ snapshot <> snd fresh_stats
       /\ stats_at h1 (snd fresh_stats) 0 no_stats
       /\ stats_at h1 snapshot 0 no_stats
       /\ (exists h2,
             increment h1 (snd fresh_stats) "jobs_processed" = inr h2
             /\ stats_at h2 (snd fresh_stats) 0 (add_processed no_stats)
             /\ stats_at h2 snapshot 0 no_stats)
       /\ (forall message, exists h2,
             record_error h1 (snd fresh_stats) message = inr h2
             /\ stats_at h2 (snd fresh_stats) 0 (add_error message no_stats)
             /\ stats_at h2 snapshot 0 (add_error message no_stats)).
Proof.
  assert (stats_at (fst fresh_stats) (snd fresh_stats) 0 no_stats) as H.
  { exists 1. split_and!; [reflexivity | lia | by vm_compute | by vm_compute]. }
  split; [exact H|].
  apply (get_stats_shares_the_error_list (fst fresh_stats) (snd fresh_stats) 0 no_stats H).
Defined.

End MoreRuns.
